(** * The mediated passthrough filesystem of [example/passthrough.c]

    A shallow embedding of the C source: the pure string routines the
    mediator relies on, the library calls as steps of a small state and
    error monad driven by an explicit environment, and the operations
    themselves.  The theorems at the end settle the specification's
    statements against these definitions. *)

From Stdlib Require Import ZArith List String Ascii Bool Lia.
Import ListNotations.

Local Open Scope string_scope.
Local Open Scope list_scope.

(** ** C strings *)

Module CStr.

Definition NUL : ascii := Ascii.zero.
Definition LF : ascii := "010"%char.
Definition COMMA : ascii := ","%char.
Definition PERCENT : ascii := "%"%char.

(** The C string held by a sequence of bytes: everything before the first
    NUL. *)
Fixpoint cstr (s : string) : string :=
  match s with
  | EmptyString => EmptyString
  | String c s' => if Ascii.eqb c NUL then EmptyString else String c (cstr s')
  end.

(** The C string stored in a fixed-size array; [None] when the array holds
    no NUL, so that a scan would run past its end. *)
Fixpoint cstring_of (buf : list ascii) : option string :=
  match buf with
  | [] => None
  | c :: buf' =>
      if Ascii.eqb c NUL then Some EmptyString
      else option_map (String c) (cstring_of buf')
  end.

(** [buf[i] = c]; [None] when [i] is outside the array. *)
Fixpoint store (buf : list ascii) (i : nat) (c : ascii) : option (list ascii) :=
  match buf, i with
  | [], _ => None
  | _ :: buf', O => Some (c :: buf')
  | b :: buf', S i' => option_map (cons b) (store buf' i' c)
  end.

(** Bytes [data] written from the start of [buf]; the rest of [buf] is left
    as it was. *)
Definition overlay (data buf : list ascii) : list ascii :=
  data ++ skipn (List.length data) buf.

(** [strcmp]: only the sign of the result is specified by C. *)
Definition strcmp (a b : string) : Z :=
  match String.compare a b with
  | Eq => 0%Z
  | Lt => (-1)%Z
  | Gt => 1%Z
  end.

(** The fields of [s] around the delimiter [d], empty ones included. *)
Fixpoint fields (d : ascii) (s : string) : list string :=
  match s with
  | EmptyString => [EmptyString]
  | String c s' =>
      if Ascii.eqb c d then EmptyString :: fields d s'
      else match fields d s' with
           | [] => [String c EmptyString]
           | f :: fs => String c f :: fs
           end
  end.

Definition nonempty (s : string) : bool :=
  match s with EmptyString => false | _ => true end.

(** The tokens [strtok(s, d)], [strtok(NULL, d)], ... return in turn, for a
    one-character delimiter set: [strtok] skips every run of delimiters, so
    the tokens are the non-empty fields. *)
Definition strtok_all (d : ascii) (s : string) : list string :=
  filter nonempty (fields d s).

(** The first call [strtok(s, d)]; [None] is the NULL pointer. *)
Definition strtok (d : ascii) (s : string) : option string :=
  hd_error (strtok_all d s).

(** [strcat(buf, s)] on an array [buf]: appends [s] and a NUL after the C
    string the array holds.  [None] when the array holds no string or the
    result does not fit. *)
Definition strcat (buf : list ascii) (s : string) : option (list ascii) :=
  match cstring_of buf with
  | None => None
  | Some old =>
      let l := String.length old in
      let n := String.length s in
      if Nat.ltb (l + n) (List.length buf)
      then Some (firstn l buf ++ list_ascii_of_string s ++ NUL :: skipn (l + n + 1) buf)
      else None
  end.

(** What [printf(fmt)] writes when it is called with a format and no
    further argument: [None] when [fmt] holds a conversion that would fetch
    an argument (or a lone percent sign), which C leaves undefined. *)
Fixpoint fmt_render (fmt : string) : option string :=
  match fmt with
  | EmptyString => Some EmptyString
  | String c rest =>
      if Ascii.eqb c PERCENT then
        match rest with
        | String c' rest' =>
            if Ascii.eqb c' PERCENT
            then option_map (String PERCENT) (fmt_render rest')
            else None
        | EmptyString => None
        end
      else option_map (String c) (fmt_render rest)
  end.

(** One [fgets(line, room + 1, file)] on a stream whose unread content is
    [s]: at most [room] characters, stopping after a newline. *)
Fixpoint fgets_from (room : nat) (s : string) : string * string :=
  match room, s with
  | O, _ => (EmptyString, s)
  | _, EmptyString => (EmptyString, EmptyString)
  | S r, String c s' =>
      if Ascii.eqb c LF then (String c EmptyString, s')
      else let (l, rest) := fgets_from r s' in (String c l, rest)
  end.

(** [fgets(line, n, file)]: [None] is the NULL returned at end of file. *)
Definition fgets (n : nat) (s : string) : option (string * string) :=
  match s with
  | EmptyString => None
  | _ => Some (fgets_from (n - 1) s)
  end.

(** The lines a loop [while (fgets(line, n, file) != NULL)] sees. *)
Fixpoint read_lines (fuel n : nat) (s : string) : list string :=
  match fuel with
  | O => []
  | S fuel' =>
      match fgets n s with
      | None => []
      | Some (l, rest) => l :: read_lines fuel' n rest
      end
  end.

Definition file_lines (n : nat) (s : string) : list string :=
  read_lines (String.length s) n s.

End CStr.

Import CStr.

(** ** Machine integers *)

(** Conversion to [int] (32 bits, two's complement), as in [fd = fi->fh]
    and [res = pread(...)]. *)
Definition to_int (z : Z) : Z :=
  ((z + 2 ^ 31) mod 2 ^ 32 - 2 ^ 31)%Z.

(** Conversion to [uint64_t], as in [fi->fh = res]. *)
Definition to_uint64 (z : Z) : Z := (z mod 2 ^ 64)%Z.

(** Arithmetic in [size_t] (64 bits, unsigned, on the LP64 hosts the
    program is built for), as in [size - 1]. *)
Definition to_size_t (z : Z) : Z := (z mod 2 ^ 64)%Z.

(** ** Library calls and the environment *)

(** The calls into libc and the host, with the arguments that matter. *)
Inductive Call : Type :=
| Lstat (path : string)
| Access (path : string) (mask : Z)
| Readlink (path : string) (size : Z)
| Mknod (path : string) (mode : Z) (rdev : Z)
| Mkfifo (path : string) (mode : Z)
| Mkdir (path : string) (mode : Z)
| Unlink (path : string)
| Rmdir (path : string)
| Symlink (from to : string)
| Rename (from to : string)
| Link (from to : string)
| Chmod (path : string) (mode : Z)
| Lchown (path : string) (uid gid : Z)
| Truncate (path : string) (size : Z)
| Ftruncate (fd : Z) (size : Z)
| Open2 (path : string) (flags : Z)
| Open3 (path : string) (flags : Z) (mode : Z)
| Close (fd : Z)
| Pread (fd : Z) (size offset : Z)
| Pwrite (fd : Z) (size offset : Z)
| Statvfs (path : string)
| Opendir (path : string)
| Readdir
| Closedir
| Filler (name : string) (st_ino st_mode : Z) (off : Z) (fill_flags : Z)
| Utimensat (dirfd : Z) (path : string) (ts : (Z * Z) * (Z * Z)) (at_flags : Z)
| Posix_fallocate (fd : Z) (offset length : Z)
| Lsetxattr (path name value : string) (size : Z) (xflags : Z)
| Lgetxattr (path name : string) (size : Z)
| Llistxattr (path : string) (size : Z)
| Lremovexattr (path name : string)
| Pipe
| Dup (fd : Z)
| Dup2
| ClosePipe
| System (cmd : string)
| Read (count : nat)
| Printf (out : string)
| Fopen (path : string)
| Fgets
| Fclose
| Rand
| Malloc (size : nat).

(** [struct dirent], as far as [xmp_readdir] reads it; [d_type] is an
    [unsigned char]. *)
Record Dirent : Type := { d_ino : Z; d_type : ascii; d_name : string }.

(** Everything the program obtains from outside itself during one
    operation. *)
Record World : Type := {
  (** the integer a call returns, by its position in the run *)
  w_ret : nat -> Call -> Z;
  (** [errno] once the call has returned, from its value before *)
  w_errno : nat -> Call -> Z -> Z;
  (** what [fopen(path, "r")] would read; [None] when it returns NULL *)
  w_file : string -> option string;
  (** [opendir(path)], by its position in the run: [None] when it returns
      NULL, else the entries [readdir] delivers before it returns NULL *)
  w_dir : nat -> string -> option (list Dirent);
  (** the bytes waiting for the n-th [read] on a prompt pipe *)
  w_pipe : nat -> list ascii;
  (** the n-th value of [rand()] *)
  w_rand : nat -> Z;
  (** [malloc]: [None] for NULL, else the bytes the fresh block holds *)
  w_malloc : nat -> nat -> option (nat -> ascii);
  (** the bytes an uninitialised local array holds, by its name *)
  w_uninit : string -> nat -> ascii;
  (** the strings the rows of the uninitialised [credenciais] and [acesso]
      hold *)
  w_credenciais : nat -> string;
  w_acesso : nat -> string
}.

Record State : Type := {
  errno : Z;
  trace : list Call;   (* the calls made so far, oldest first *)
  rands : nat;         (* how many times rand() was called *)
  reads : nat          (* how many read()s were made on prompt pipes *)
}.

(** A computation either returns a value and a state, or has run into
    behaviour C leaves undefined. *)
Inductive Res (A : Type) : Type :=
| Done (a : A) (s : State)
| Undef.
Arguments Done {A} a s.
Arguments Undef {A}.

Definition M (A : Type) : Type := State -> Res A.

Definition ret {A} (a : A) : M A := fun s => Done a s.

Definition bind {A B} (m : M A) (k : A -> M B) : M B :=
  fun s => match m s with
           | Done a s' => k a s'
           | Undef => Undef
           end.

Definition undef {A} : M A := fun _ => Undef.

Notation "x <- m ;; k" := (bind m (fun x => k))
  (at level 61, m at next level, right associativity).
Notation "m ;;; k" := (bind m (fun _ => k))
  (at level 61, right associativity).

Definition get_errno : M Z := fun s => Done (errno s) s.

(** A value that must exist for the program to go on. *)
Definition must {A} (o : option A) : M A :=
  match o with
  | Some a => ret a
  | None => undef
  end.

(** The per-open record [struct fuse_file_info], as far as the operations
    use it. *)
Record Fi : Type := { flags : Z; fh : Z }.

(** [struct fuse_config]: the fields [xmp_init] writes (the three timeouts
    are of type [double], in seconds) and, in [cfg_rest], the others. *)
Record fuse_config : Type := {
  use_ino : Z;
  entry_timeout : Z;
  attr_timeout : Z;
  negative_timeout : Z;
  cfg_rest : list Z
}.

Definition set_fh (fi : Fi) (v : Z) : Fi := {| flags := flags fi; fh := v |}.

Definition nl : string := String LF EmptyString.
Definition dq : string := String (ascii_of_nat 34) EmptyString.

Definition cred_path : string := "/Teste/autenticacao.txt".
Definition perm_path : string := "/Teste/permission.txt".

Definition zenity_entry : string :=
  "answer=$(zenity --entry --text=" ++ dq ++ "Username" ++ dq ++ " --title="
  ++ dq ++ "Introduza o seu username" ++ dq ++ "); echo $answer;".
Definition zenity_password : string :=
  "answer=$(zenity --password --title=" ++ dq ++ "Introduza a sua password"
  ++ dq ++ "); echo $answer;".
Definition zenity_error : string :=
  "zenity --error --text=" ++ dq
  ++ "Nao tem autorizacao para aceder a este ficheiro" ++ dq.
Definition zenity_senha : string :=
  "answer=$(zenity --timeout=60 --password --text=" ++ dq ++ "Senha recebida"
  ++ dq ++ " --title=" ++ dq ++ "Introduza a senha recebida por email!" ++ dq
  ++ "); echo $answer;".
Definition sms_command : string :=
  "cd | python3 /home/parallels/Desktop/temporario/sms.py ".

Definition charset : string :=
  "abcdcv9834543543wedwed4534547234234sa65234csacsacascFE4R4R23423324324xfsd5423434634f43543rt6546546fert54c34f43534543534sdf654654sdffds23423543534544fsdfdseFQWERvD23423423F87dfdf654sdfdsfDSFxcvUYH6RT67234234T54RE33242344234cfghijklxcvcm9876543nxvc7654vcxvopq765432rsJHGFDtuvwxyzAB8765CDEFGHIJK123dfd4567890".

(** [sizeof (charset - 1)]: [charset - 1] is a pointer, and a pointer takes
    eight bytes on the LP64 hosts the program is built for. *)
Definition sizeof_charset_minus_1 : Z := 8.

(** [charset[key]], the array ending with its NUL. *)
Definition charset_at (key : Z) : option ascii :=
  if (key <? 0)%Z then None
  else nth_error (list_ascii_of_string charset ++ [NUL]) (Z.to_nat key).

(** [strcpy(rows[i], token)] into an array of rows of 100 bytes each, every
    row seen as the string it holds. *)
Definition strcpy_row (rows : list string) (i : nat) (token : string)
  : option (list string) :=
  if Nat.ltb i (List.length rows) && Nat.ltb (String.length token) 100
  then Some (firstn i rows ++ token :: skipn (S i) rows)
  else None.

Section Program.

Variable w : World.

(** One library call: it is recorded, [errno] becomes what the environment
    says, and the call's integer result is returned. *)
Definition tick (c : Call) : M Z :=
  fun s =>
    let k := List.length (trace s) in
    Done (w_ret w k c)
         {| errno := w_errno w k c (errno s);
            trace := trace s ++ [c];
            rands := rands s;
            reads := reads s |}.

Definition rand : M Z :=
  fun s =>
    match tick Rand s with
    | Done _ s' =>
        Done (w_rand w (rands s))
             {| errno := errno s'; trace := trace s';
                rands := S (rands s); reads := reads s' |}
    | Undef => Undef
    end.

(** [read(fd, buf, count)] on a prompt pipe: the bytes land at the start of
    [buf]. *)
Definition read (count : nat) (buf : list ascii) : M (list ascii) :=
  fun s =>
    match tick (Read count) s with
    | Done _ s' =>
        Done (overlay (firstn count (w_pipe w (reads s))) buf)
             {| errno := errno s'; trace := trace s';
                rands := rands s'; reads := S (reads s) |}
    | Undef => Undef
    end.

Definition malloc (size : nat) : M (option (list ascii)) :=
  fun s =>
    match tick (Malloc size) s with
    | Done _ s' =>
        Done (option_map (fun f => map f (seq 0 size))
                         (w_malloc w (List.length (trace s)) size)) s'
    | Undef => Undef
    end.

Definition fopen (path : string) : M (option string) :=
  tick (Fopen path) ;;; ret (w_file w path).

(** An uninitialised local [char name[size]]. *)
Definition uninit (name : string) (size : nat) : list ascii :=
  map (w_uninit w name) (seq 0 size).

(** [printf(s)] with [s] taken as the format. *)
Definition printf_fmt (s : string) : M Z :=
  out <- must (fmt_render s) ;; tick (Printf out).

(** *** The passthrough operations *)

(** [xmp_init] writes four fields of [cfg] and returns NULL. *)
Definition xmp_init (cfg : fuse_config) : M (Z * fuse_config) :=
  ret (0%Z, {| use_ino := 1;
               entry_timeout := 0;
               attr_timeout := 0;
               negative_timeout := 0;
               cfg_rest := cfg_rest cfg |}).

Definition xmp_getattr (path : string) : M Z :=
  res <- tick (Lstat path) ;;
  if (res =? -1)%Z then e <- get_errno ;; ret (- e)%Z else ret 0%Z.

Definition xmp_access (path : string) (mask : Z) : M Z :=
  res <- tick (Access path mask) ;;
  if (res =? -1)%Z then e <- get_errno ;; ret (- e)%Z else ret 0%Z.

(** [size - 1] is computed in [size_t], and the [ssize_t] that [readlink]
    returns is stored in the [int res] before it is tested.  The link text
    itself and its terminating NUL stay in the caller's buffer, which is not
    represented. *)
Definition xmp_readlink (path : string) (size : Z) : M Z :=
  n <- tick (Readlink path (to_size_t (size - 1))) ;;
  let res := to_int n in
  if (res =? -1)%Z then e <- get_errno ;; ret (- e)%Z else ret 0%Z.

(** [opendir(path)]: the stream, or [None] for NULL. *)
Definition opendir (path : string) : M (option (list Dirent)) :=
  fun s =>
    match tick (Opendir path) s with
    | Done _ s' => Done (w_dir w (List.length (trace s)) path) s'
    | Undef => Undef
    end.

(** The loop [while ((de = readdir(dp)) != NULL)] on the entries the
    stream still holds: [st] is zeroed but for [st_ino] and [st_mode], and
    the loop is left as soon as [filler] returns non-zero. *)
Fixpoint readdir_loop (des : list Dirent) : M unit :=
  match des with
  | [] => tick Readdir ;;; ret tt
  | de :: des' =>
      tick Readdir ;;;
      let st_ino := d_ino de in
      let st_mode := Z.shiftl (Z.of_N (N_of_ascii (d_type de))) 12 in
      full <- tick (Filler (d_name de) st_ino st_mode 0 0) ;;
      if negb (full =? 0)%Z then ret tt else readdir_loop des'
  end.

Definition xmp_readdir (path : string) (offset : Z) (fi : option Fi) (rflags : Z)
  : M Z :=
  dp <- opendir path ;;
  match dp with
  | None => e <- get_errno ;; ret (- e)%Z
  | Some des => readdir_loop des ;;; tick Closedir ;;; ret 0%Z
  end.

Definition S_IFMT : Z := 61440.    (* 0170000 *)
Definition S_IFREG : Z := 32768.   (* 0100000 *)
Definition S_IFIFO : Z := 4096.    (* 0010000 *)
Definition S_ISREG (mode : Z) : bool := (Z.land mode S_IFMT =? S_IFREG)%Z.
Definition S_ISFIFO (mode : Z) : bool := (Z.land mode S_IFMT =? S_IFIFO)%Z.

(** [O_CREAT | O_EXCL | O_WRONLY] *)
Definition O_CREAT_EXCL_WRONLY : Z := Z.lor (Z.lor 64 128) 1.

Definition xmp_mknod (path : string) (mode rdev : Z) : M Z :=
  res <- (if S_ISREG mode then
            res <- tick (Open3 path O_CREAT_EXCL_WRONLY mode) ;;
            if (0 <=? res)%Z then tick (Close res) else ret res
          else if S_ISFIFO mode then tick (Mkfifo path mode)
          else tick (Mknod path mode rdev)) ;;
  if (res =? -1)%Z then e <- get_errno ;; ret (- e)%Z else ret 0%Z.

Definition xmp_mkdir (path : string) (mode : Z) : M Z :=
  res <- tick (Mkdir path mode) ;;
  if (res =? -1)%Z then e <- get_errno ;; ret (- e)%Z else ret 0%Z.

Definition xmp_unlink (path : string) : M Z :=
  res <- tick (Unlink path) ;;
  if (res =? -1)%Z then e <- get_errno ;; ret (- e)%Z else ret 0%Z.

Definition xmp_rmdir (path : string) : M Z :=
  res <- tick (Rmdir path) ;;
  if (res =? -1)%Z then e <- get_errno ;; ret (- e)%Z else ret 0%Z.

Definition xmp_symlink (from to : string) : M Z :=
  res <- tick (Symlink from to) ;;
  if (res =? -1)%Z then e <- get_errno ;; ret (- e)%Z else ret 0%Z.

Definition EINVAL : Z := 22.

Definition xmp_rename (from to : string) (rflags : Z) : M Z :=
  if negb (rflags =? 0)%Z then ret (- EINVAL)%Z
  else
    res <- tick (Rename from to) ;;
    if (res =? -1)%Z then e <- get_errno ;; ret (- e)%Z else ret 0%Z.

Definition xmp_link (from to : string) : M Z :=
  res <- tick (Link from to) ;;
  if (res =? -1)%Z then e <- get_errno ;; ret (- e)%Z else ret 0%Z.

Definition xmp_chmod (path : string) (mode : Z) : M Z :=
  res <- tick (Chmod path mode) ;;
  if (res =? -1)%Z then e <- get_errno ;; ret (- e)%Z else ret 0%Z.

Definition xmp_chown (path : string) (uid gid : Z) : M Z :=
  res <- tick (Lchown path uid gid) ;;
  if (res =? -1)%Z then e <- get_errno ;; ret (- e)%Z else ret 0%Z.

Definition xmp_truncate (path : string) (size : Z) (fi : option Fi) : M Z :=
  res <- match fi with
         | Some fi => tick (Ftruncate (to_int (fh fi)) size)
         | None => tick (Truncate path size)
         end ;;
  if (res =? -1)%Z then e <- get_errno ;; ret (- e)%Z else ret 0%Z.

(** [AT_SYMLINK_NOFOLLOW] *)
Definition AT_SYMLINK_NOFOLLOW : Z := 256.

(** Under [#ifdef HAVE_UTIMENSAT]. *)
Definition xmp_utimens (path : string) (ts : (Z * Z) * (Z * Z)) (fi : option Fi)
  : M Z :=
  res <- tick (Utimensat 0 path ts AT_SYMLINK_NOFOLLOW) ;;
  if (res =? -1)%Z then e <- get_errno ;; ret (- e)%Z else ret 0%Z.

Definition xmp_create (path : string) (mode : Z) (fi : Fi) : M (Z * Fi) :=
  res <- tick (Open3 path (flags fi) mode) ;;
  if (res =? -1)%Z then e <- get_errno ;; ret ((- e)%Z, fi)
  else ret (0%Z, set_fh fi (to_uint64 res)).

Definition O_RDONLY : Z := 0.
Definition O_WRONLY : Z := 1.

Definition xmp_read (path : string) (size offset : Z) (fi : option Fi) : M Z :=
  fd <- match fi with
        | None => tick (Open2 path O_RDONLY)
        | Some fi => ret (to_int (fh fi))
        end ;;
  if (fd =? -1)%Z then e <- get_errno ;; ret (- e)%Z
  else
    n <- tick (Pread fd size offset) ;;
    let res := to_int n in
    res <- (if (res =? -1)%Z then e <- get_errno ;; ret (- e)%Z else ret res) ;;
    match fi with
    | None => tick (Close fd) ;;; ret res
    | Some _ => ret res
    end.

Definition xmp_write (path : string) (size offset : Z) (fi : option Fi) : M Z :=
  fd <- match fi with
        | None => tick (Open2 path O_WRONLY)
        | Some fi => ret (to_int (fh fi))
        end ;;
  if (fd =? -1)%Z then e <- get_errno ;; ret (- e)%Z
  else
    n <- tick (Pwrite fd size offset) ;;
    let res := to_int n in
    res <- (if (res =? -1)%Z then e <- get_errno ;; ret (- e)%Z else ret res) ;;
    match fi with
    | None => tick (Close fd) ;;; ret res
    | Some _ => ret res
    end.

Definition xmp_statfs (path : string) : M Z :=
  res <- tick (Statvfs path) ;;
  if (res =? -1)%Z then e <- get_errno ;; ret (- e)%Z else ret 0%Z.

Definition xmp_release (path : string) (fi : Fi) : M Z :=
  tick (Close (to_int (fh fi))) ;;; ret 0%Z.

Definition xmp_fsync (path : string) (isdatasync : Z) (fi : Fi) : M Z :=
  ret 0%Z.

Definition EOPNOTSUPP : Z := 95.

(** Under [#ifdef HAVE_POSIX_FALLOCATE].  [posix_fallocate] returns an error
    number, not -1, and it is that number which is negated. *)
Definition xmp_fallocate (path : string) (mode offset length : Z) (fi : option Fi)
  : M Z :=
  if negb (mode =? 0)%Z then ret (- EOPNOTSUPP)%Z
  else
    fd <- match fi with
          | None => tick (Open2 path O_WRONLY)
          | Some fi => ret (to_int (fh fi))
          end ;;
    if (fd =? -1)%Z then e <- get_errno ;; ret (- e)%Z
    else
      r <- tick (Posix_fallocate fd offset length) ;;
      let res := (- r)%Z in
      match fi with
      | None => tick (Close fd) ;;; ret res
      | Some _ => ret res
      end.

(** Under [#ifdef HAVE_SETXATTR]: the four operations on extended
    attributes.  [lgetxattr] and [llistxattr] return an [ssize_t], stored in
    an [int]. *)
Definition xmp_setxattr (path name value : string) (size xflags : Z) : M Z :=
  res <- tick (Lsetxattr path name value size xflags) ;;
  if (res =? -1)%Z then e <- get_errno ;; ret (- e)%Z else ret 0%Z.

Definition xmp_getxattr (path name : string) (size : Z) : M Z :=
  n <- tick (Lgetxattr path name size) ;;
  let res := to_int n in
  if (res =? -1)%Z then e <- get_errno ;; ret (- e)%Z else ret res.

Definition xmp_listxattr (path : string) (size : Z) : M Z :=
  n <- tick (Llistxattr path size) ;;
  let res := to_int n in
  if (res =? -1)%Z then e <- get_errno ;; ret (- e)%Z else ret res.

Definition xmp_removexattr (path name : string) : M Z :=
  res <- tick (Lremovexattr path name) ;;
  if (res =? -1)%Z then e <- get_errno ;; ret (- e)%Z else ret 0%Z.

(** *** The one-time password *)

(** The loop [for (n = 0; n < size; n++)] of [gera_password], [count]
    rounds from index [n]. *)
Fixpoint gera_password_loop (count n : nat) (str : list ascii) : M (list ascii) :=
  match count with
  | O => ret str
  | S count' =>
      r <- rand ;;
      let key := Z.rem r sizeof_charset_minus_1 in
      c <- must (charset_at key) ;;
      str' <- must (store str n c) ;;
      gera_password_loop count' (S n) str'
  end.

Definition gera_password (str : list ascii) (size : nat) : M (list ascii) :=
  match size with
  | O => ret str
  | S size' =>
      str' <- gera_password_loop size' 0 str ;;
      must (store str' size' NUL)
  end.

Definition string_alloc (size : nat) : M (option (list ascii)) :=
  s <- malloc (size + 1) ;;
  match s with
  | Some buf => buf' <- gera_password buf size ;; ret (Some buf')
  | None => ret None
  end.

(** *** The two stores *)

(** The loop [while (token != NULL)] that [verifica_credenciais] and
    [verifica_acesso] share: [key] is compared with every token, and from
    the first token equal to it on, the tokens are printed and copied into
    the rows. *)
Fixpoint scan_tokens (key : string) (tokens : list string)
         (guardar : bool) (i : nat) (rows : list string)
  : M (bool * list string) :=
  match tokens with
  | [] => ret (guardar, rows)
  | token :: tokens' =>
      let x := strcmp key token in
      let guardar := if (x =? 0)%Z then true else guardar in
      if guardar then
        printf_fmt token ;;;
        rows' <- must (strcpy_row rows i token) ;;
        scan_tokens key tokens' guardar (S i) rows'
      else scan_tokens key tokens' guardar i rows
  end.

(** The loop [while (fgets(line, sizeof line, file) != NULL)] of
    [verifica_credenciais]. *)
Fixpoint credenciais_loop (lines : list string) (myuser mypass : string)
         (credenciais : list string) : M (Z * list string) :=
  match lines with
  | [] => tick Fgets ;;; tick Fclose ;;; ret (0%Z, credenciais)
  | line :: lines' =>
      tick Fgets ;;;
      r <- scan_tokens myuser (strtok_all COMMA (cstr line)) false 0 credenciais ;;
      let '(guardar, credenciais) := r in
      if guardar then
        if (strcmp (nth 1 credenciais EmptyString) mypass =? 0)%Z
        then ret (1%Z, credenciais)
        else
          tick (Printf ("Erro autenticação!" ++ nl)) ;;;
          e <- get_errno ;; ret ((- e)%Z, credenciais)
      else credenciais_loop lines' myuser mypass credenciais
  end.

(** The array [credenciais] is the caller's: the function returns it along
    with its result. *)
Definition verifica_credenciais (credenciais : list string)
           (myuser mypass : option string) : M (Z * list string) :=
  u <- must myuser ;;
  tick (Printf ("User recebido:" ++ u ++ nl)) ;;;
  p <- must mypass ;;
  tick (Printf ("Pass recebida " ++ p ++ nl)) ;;;
  file <- fopen cred_path ;;
  match file with
  | Some content => credenciais_loop (file_lines 128 content) u p credenciais
  | None => e <- get_errno ;; ret ((- e)%Z, credenciais)
  end.

(** The loop [for (j = 0; j < 5; j++)] of [verifica_acesso]. *)
Definition acesso_tem (acesso : list string) (id : string) : bool :=
  existsb (fun row => (strcmp row id =? 0)%Z) acesso.

(** The loop [while (fgets(line, sizeof line, file) != NULL)] of
    [verifica_acesso]. *)
Fixpoint acesso_loop (lines : list string) (id path : string)
         (acesso : list string) : M Z :=
  match lines with
  | [] => tick Fgets ;;; tick Fclose ;;; ret 0%Z
  | line :: lines' =>
      tick Fgets ;;;
      r <- scan_tokens path (strtok_all COMMA (cstr line)) false 0 acesso ;;
      let '(guardar, acesso) := r in
      if guardar then
        if acesso_tem acesso id then ret 1%Z
        else
          tick (Printf ("Erro autenticação!" ++ nl)) ;;;
          e <- get_errno ;; ret (- e)%Z
      else acesso_loop lines' id path acesso
  end.

Definition verifica_acesso (id path : string) : M Z :=
  let acesso := map (w_acesso w) (seq 0 5) in
  tick (Printf ("User recebido:" ++ id ++ nl)) ;;;
  tick (Printf ("Path recebida " ++ path ++ nl)) ;;;
  file <- fopen perm_path ;;
  match file with
  | Some content => acesso_loop (file_lines 128 content) id path acesso
  | None => e <- get_errno ;; ret (- e)%Z
  end.

(** *** The mediated open *)

(** The locals of [xmp_open] that are live once both stores were asked. *)
Record Locals : Type := {
  myuser : option string;
  autenticado : Z;
  credenciais : list string;
  access : Z
}.

(** [xmp_open] up to and including the call of [verifica_acesso]: the two
    prompts, then the two stores, one after the other. *)
Definition xmp_open_checks (path : string) : M Locals :=
  tick Pipe ;;; tick (Dup 1) ;;; tick Dup2 ;;; tick Dup2 ;;;
  tick (System zenity_entry) ;;;
  user <- read 30 (uninit "user" 100) ;;
  tick (System zenity_password) ;;;
  pass <- read 30 (uninit "pass" 100) ;;
  tick Dup2 ;;; tick ClosePipe ;;;
  user <- must (cstring_of user) ;;
  let myuser := strtok LF user in
  pass <- must (cstring_of pass) ;;
  let mypass := strtok LF pass in
  r <- verifica_credenciais (map (w_credenciais w) (seq 0 4)) myuser mypass ;;
  let '(autenticado, credenciais) := r in
  tick (Printf "ID do utilizador ") ;;;
  printf_fmt (nth 3 credenciais EmptyString) ;;;
  tick (Printf nl) ;;;
  access <- verifica_acesso (nth 3 credenciais EmptyString) path ;;
  ret {| myuser := myuser; autenticado := autenticado;
         credenciais := credenciais; access := access |}.

(** The tail of [xmp_open]: the host's [open] and the binding of the
    handle. *)
Definition xmp_open_host (path : string) (fi : Fi) : M (Z * Fi) :=
  res <- tick (Open2 path (flags fi)) ;;
  if (res =? -1)%Z then e <- get_errno ;; ret ((- e)%Z, fi)
  else ret (0%Z, set_fh fi (to_uint64 res)).

(** [xmp_open] from [if (access != 1)] on. *)
Definition xmp_open_decide (path : string) (fi : Fi) (l : Locals) : M (Z * Fi) :=
  if negb (access l =? 1)%Z then
    tick (Printf ("Acesso negado" ++ nl)) ;;;
    tick (System zenity_error) ;;;
    e <- get_errno ;; ret ((- e)%Z, fi)
  else if (autenticado l =? 1)%Z then
    tick (Printf ("Autenticado com sucesso:" ++ nl)) ;;;
    senha <- string_alloc 7 ;;
    init <- malloc 100 ;;
    init <- must init ;;
    init <- must (strcat init sms_command) ;;
    init <- must (strcat init (nth 2 (credenciais l) EmptyString)) ;;
    init <- must (strcat init " ") ;;
    senha <- must senha ;;
    senha <- must (cstring_of senha) ;;
    init <- must (strcat init senha) ;;
    cmd <- must (cstring_of init) ;;
    tick (System cmd) ;;;
    printf_fmt (nth 2 (credenciais l) EmptyString) ;;;
    tick Pipe ;;; tick (Dup 1) ;;; tick Dup2 ;;; tick Dup2 ;;;
    tick (System zenity_senha) ;;;
    recebida <- read 7 (uninit "recebida" 100) ;;
    tick Dup2 ;;; tick ClosePipe ;;;
    recebida <- must (cstring_of recebida) ;;
    myrecebida <- must (strtok LF recebida) ;;
    if negb (strcmp myrecebida senha =? 0)%Z then
      tick (Printf ("Senha incorreta!" ++ nl)) ;;;
      e <- get_errno ;; ret ((- e)%Z, fi)
    else if (strcmp cred_path path =? 0)%Z then
      u <- must (myuser l) ;;
      if negb (strcmp u "root" =? 0)%Z then
        tick (Printf ("Não tem permissões para abrir este ficheiro!" ++ nl)) ;;;
        e <- get_errno ;; ret ((- e)%Z, fi)
      else xmp_open_host path fi
    else xmp_open_host path fi
  else
    tick (Printf ("Erro autenticação!;" ++ nl)) ;;;
    e <- get_errno ;; ret ((- e)%Z, fi).

Definition xmp_open (path : string) (fi : Fi) : M (Z * Fi) :=
  l <- xmp_open_checks path ;;
  xmp_open_decide path fi l.

End Program.

(** ** Vocabulary of the statements *)

(** The tokens the two stores see on one line read by [fgets]. *)
Definition tokens (line : string) : list string :=
  strtok_all COMMA (cstr line).

(** [first_match key lines copied]: some line has a token equal to [key],
    and on the first such line [copied] is that token followed by the
    tokens after it. *)
Definition first_match (key : string) (lines : list string)
           (copied : list string) : Prop :=
  exists l1 line l2 pre post,
    lines = l1 ++ line :: l2 /\
    (forall l, In l l1 -> ~ In key (tokens l)) /\
    tokens line = pre ++ key :: post /\
    ~ In key pre /\
    copied = key :: post.

(** No line has a token equal to [key]. *)
Definition no_match (key : string) (lines : list string) : Prop :=
  forall l, In l lines -> ~ In key (tokens l).

(** The rows of an array once [copied] was copied into its first rows. *)
Definition put_rows (copied rows : list string) : list string :=
  copied ++ skipn (List.length copied) rows.

(** The uninitialised arrays of [xmp_open] and [verifica_acesso]. *)
Definition credenciais0 (w : World) : list string := map (w_credenciais w) (seq 0 4).
Definition acesso0 (w : World) : list string := map (w_acesso w) (seq 0 5).

(** The lines [fgets] delivers from a store, when it can be opened. *)
Definition store_lines (w : World) (path : string) : option (list string) :=
  option_map (file_lines 128) (w_file w path).

(** The calls of the stdio layer, which the two stores are limited to. *)
Definition is_stdio (c : Call) : bool :=
  match c with
  | Printf _ | Fopen _ | Fgets | Fclose => true
  | _ => false
  end.

Fixpoint contains (pat s : string) : bool :=
  if String.prefix pat s then true
  else match s with
       | EmptyString => false
       | String _ s' => contains pat s'
       end.

(** The delivery gateway is the script [sms.py], run through [system]. *)
Definition is_delivery (c : Call) : bool :=
  match c with
  | System cmd => contains "sms.py" cmd
  | _ => false
  end.

(** The generator draws from [rand()]. *)
Definition is_generator (c : Call) : bool :=
  match c with
  | Rand => true
  | _ => false
  end.

Definition is_host_open (c : Call) : bool :=
  match c with
  | Open2 _ _ | Open3 _ _ _ => true
  | _ => false
  end.

(** The events a run added to the trace. *)
Definition emitted (st st' : State) (evs : list Call) : Prop :=
  trace st' = trace st ++ evs.

(** libc never stores a negative value in [errno]. *)
Definition errno_sane (w : World) : Prop :=
  forall k c e, (0 <= e)%Z -> (0 <= w_errno w k c e)%Z.

(** What the three prompts left in their buffers, for an open that starts
    in state [st]: the first line of each. *)
Definition prompt_line (w : World) (name : string) (count n : nat) : option string :=
  match cstring_of (overlay (firstn count (w_pipe w n)) (uninit w name 100)) with
  | Some s => strtok LF s
  | None => None
  end.

Definition entered_user (w : World) (st : State) : option string :=
  prompt_line w "user" 30 (reads st).
Definition entered_pass (w : World) (st : State) : option string :=
  prompt_line w "pass" 30 (S (reads st)).
Definition entered_senha (w : World) (st : State) : option string :=
  prompt_line w "recebida" 7 (S (S (reads st))).

(** The characters [gera_password] draws with the [count] values of
    [rand()] from the [n]-th on. *)
Fixpoint drawn (w : World) (n count : nat) : option (list ascii) :=
  match count with
  | O => Some []
  | S count' =>
      match charset_at (Z.rem (w_rand w n) sizeof_charset_minus_1),
            drawn w (S n) count' with
      | Some c, Some cs => Some (c :: cs)
      | _, _ => None
      end
  end.

Definition is_alnum (c : ascii) : bool :=
  let n := nat_of_ascii c in
  (Nat.leb 48 n && Nat.leb n 57) || (Nat.leb 65 n && Nat.leb n 90)
  || (Nat.leb 97 n && Nat.leb n 122).

(** *** The specification's own reading of the two files *)

(** The specification's reading: a store is a text with one record per line,
    the trailing newline stripped, the fields separated by single commas. *)
Definition spec_records (content : string) : list (list string) :=
  map (fields COMMA) (fields LF content).

(** The specification's reading: [lookup(username)] finds a record whose field 0
    is the username. *)
Definition spec_lookup (content username : string) (record : list string) : Prop :=
  In record (spec_records content) /\ hd_error record = Some username.

(** The specification's reading: a permission record grants its path to the
    user-ids that follow it. *)
Definition spec_lists (content path user_id : string) : Prop :=
  exists uids, In (path :: uids) (spec_records content) /\ In user_id uids.

(** The specification's reading: a permission record scanned over its first five
    fields, the path field included. *)
Definition spec_scan (content path user_id : string) : Prop :=
  exists record, In record (spec_records content) /\
                 hd_error record = Some path /\ In user_id (firstn 5 record).

(** *** Relations between the state before and after a run *)

(** Every call made between [st] and [st'] satisfies [P], and [errno] has
    stayed non-negative if it was. *)
Definition run_of (w : World) (P : Call -> bool) (st st' : State) : Prop :=
  (exists evs, emitted st st' evs /\ forallb P evs = true) /\
  (errno_sane w -> (0 <= errno st)%Z -> (0 <= errno st')%Z).

Definition same_counters (st st' : State) : Prop :=
  rands st' = rands st /\ reads st' = reads st.

(** The tokens from the first one equal to [key] on. *)
Fixpoint from_key (key : string) (toks : list string) : option (list string) :=
  match toks with
  | [] => None
  | t :: toks' => if String.eqb key t then Some toks else from_key key toks'
  end.

(** [first_match], computed. *)
Fixpoint first_hit (key : string) (lines : list string) : option (list string) :=
  match lines with
  | [] => None
  | l :: lines' =>
      match from_key key (tokens l) with
      | Some copied => Some copied
      | None => first_hit key lines'
      end
  end.

(** The copies [scan_tokens] makes of [copied] into an array of [n] rows
    are all defined: there is a row for each token, each token fits its
    row, and none is a format that fetches an argument. *)
Definition copy_ok (n : nat) (copied : list string) : Prop :=
  List.length copied <= n /\
  Forall (fun t => String.length t < 100 /\ fmt_render t <> None) copied.

(** The calls around a prompt: the pipe, the [zenity] entry dialogs and the
    [read] of their answer. *)
Definition is_prompt (c : Call) : bool :=
  match c with
  | Pipe | Dup _ | Dup2 | ClosePipe | Read _ => true
  | System cmd =>
      String.eqb cmd zenity_entry || String.eqb cmd zenity_password
      || String.eqb cmd zenity_senha
  | _ => false
  end.

(** The calls [xmp_open] makes up to the end of [verifica_acesso]. *)
Definition is_check (c : Call) : bool := is_stdio c || is_prompt c.

(** The calls of a denial: messages and the error dialog. *)
Definition is_denial (c : Call) : bool :=
  match c with
  | Printf _ => true
  | System cmd => String.eqb cmd zenity_error
  | _ => false
  end.

Definition not_host_open (c : Call) : bool := negb (is_host_open c).

(** The calls of [string_alloc]. *)
Definition is_alloc (c : Call) : bool :=
  match c with
  | Malloc _ | Rand => true
  | _ => false
  end.

(** The characters [charset] can yield when its index is taken modulo
    [sizeof_charset_minus_1]. *)
Definition reachable_charset : list ascii :=
  firstn (Z.to_nat sizeof_charset_minus_1) (list_ascii_of_string charset).

(** ** Concrete environments *)

Module Samples.

Local Open Scope string_scope.

(** An environment in which every call succeeds and leaves [errno] alone,
    memory that was never written reads as zero bytes, the two stores
    hold [cred] and [perm], the prompts deliver [inputs] in turn, [rand()]
    yields [draws], the host's [open] returns [fd] and [opendir] finds no
    directory. *)
Definition world (cred perm : option string) (inputs : list string)
           (draws : list Z) (fd : Z) : World :=
  {| w_ret := fun _ c => match c with
                         | Open2 _ _ | Open3 _ _ _ => fd
                         | _ => 0%Z
                         end;
     w_errno := fun _ _ e => e;
     w_file := fun p => if String.eqb p cred_path then cred
                        else if String.eqb p perm_path then perm
                        else None;
     w_dir := fun _ _ => None;
     w_pipe := fun n => list_ascii_of_string (nth n inputs EmptyString);
     w_rand := fun n => nth n draws 0%Z;
     w_malloc := fun _ _ => Some (fun _ => NUL);
     w_uninit := fun _ _ => NUL;
     w_credenciais := fun _ => EmptyString;
     w_acesso := fun _ => EmptyString |}.

Definition start : State :=
  {| errno := 0; trace := []; rands := 0; reads := 0 |}.

Definition fi0 : Fi := {| flags := 0; fh := 0 |}.

(** Scenario 1 of the specification: [alice] may open [/m/x]. *)
Definition alice_ok : World :=
  world (Some ("alice,pw,addr,7" ++ nl)) (Some ("/m/x,7" ++ nl))
        ["alice" ++ nl; "pw" ++ nl; "aaaaaa" ++ nl] [] 5.

(** Scenario 2: the same, with a wrong password. *)
Definition alice_wrong_password : World :=
  world (Some ("alice,pw,addr,7" ++ nl)) (Some ("/m/x,7" ++ nl))
        ["alice" ++ nl; "wrong" ++ nl; "aaaaaa" ++ nl] [] 5.

(** The permission store has a record for [/a] only, one of its user-ids
    being the text [/m/x]. *)
Definition path_among_ids : World :=
  world (Some ("alice,pw,addr,7" ++ nl)) (Some ("/a,/m/x,7" ++ nl))
        ["alice" ++ nl; "pw" ++ nl; "aaaaaa" ++ nl] [] 5.

(** [bob]'s password is the text [alice]; there is no user [alice]. *)
Definition password_is_a_name : World :=
  world (Some ("bob,alice,x,9" ++ nl)) (Some ("/m/x,9" ++ nl)) [] [] 5.


(** [close] fails with [EBADF]. *)
Definition close_fails : World :=
  {| w_ret := fun _ c => match c with Close _ => (-1)%Z | _ => 0%Z end;
     w_errno := fun _ c e => match c with Close _ => 9%Z | _ => e end;
     w_file := fun _ => None;
     w_dir := fun _ _ => None;
     w_pipe := fun _ => [];
     w_rand := fun _ => 0%Z;
     w_malloc := fun _ _ => None;
     w_uninit := fun _ _ => NUL;
     w_credenciais := fun _ => EmptyString;
     w_acesso := fun _ => EmptyString |}.

(** [lstat] fails with [ENOENT]; [pread] transfers 12 bytes. *)
Definition lstat_fails : World :=
  {| w_ret := fun _ c => match c with
                         | Lstat _ => (-1)%Z
                         | Pread _ _ _ => 12%Z
                         | _ => 0%Z
                         end;
     w_errno := fun _ c e => match c with Lstat _ => 2%Z | _ => e end;
     w_file := fun _ => None;
     w_dir := fun _ _ => None;
     w_pipe := fun _ => [];
     w_rand := fun _ => 0%Z;
     w_malloc := fun _ _ => None;
     w_uninit := fun _ _ => NUL;
     w_credenciais := fun _ => EmptyString;
     w_acesso := fun _ => EmptyString |}.

End Samples.

(** ** The error convention of the passthrough operations *)







(** The calls of the loop of [xmp_readdir]. *)
Definition is_dir_step (c : Call) : bool :=
  match c with
  | Readdir | Filler _ _ _ _ _ => true
  | _ => false
  end.

(** A call that is neither a draw of the generator nor a delivery. *)
Definition no_otp (c : Call) : bool :=
  negb (is_generator c) && negb (is_delivery c).

(** A call that in addition is not the host's [open]. *)
Definition quiet (c : Call) : bool :=
  no_otp c && negb (is_host_open c).

(** The calls of an open that is refused on the answer of a store: those
    of the checks and those of the denial. *)
Definition is_refusal (c : Call) : bool := is_check c || is_denial c.

(** The specification's reading of what an accepted open needs: a record
    of the user with the password entered, that record's user-id among
    those the permission store lists for the path, the passcode entered
    equal to the one issued, and [root] for the credential file. *)
Definition spec_open_conditions (w : World) (path : string) (st : State) : Prop :=
  exists u p record,
    entered_user w st = Some u /\ entered_pass w st = Some p /\
    (exists content,
        w_file w cred_path = Some content /\
        spec_lookup content u record /\ nth_error record 1 = Some p) /\
    (exists content uid,
        w_file w perm_path = Some content /\
        nth_error record 3 = Some uid /\ spec_lists content path uid) /\
    (exists cs,
        drawn w (rands st) 6 = Some cs /\
        entered_senha w st = Some (string_of_list_ascii cs)) /\
    (path = cred_path -> u = "root").

(** ** The operation table *)

(** The three macros that decide which entries the table has. *)
Record Build : Type := {
  HAVE_UTIMENSAT : bool;
  HAVE_POSIX_FALLOCATE : bool;
  HAVE_SETXATTR : bool
}.

Module Oper.

(** A request, as the library hands it to the entry of [xmp_oper] that
    bears its name, with the arguments of the handler (the buffers of
    [readlink], [readdir], [read], [write], [getxattr] and [listxattr], the
    [filler] of [readdir] and the [conn] of [init] are left to the
    environment). *)
Inductive Request : Type :=
| init (cfg : fuse_config)
| getattr (path : string)
| access (path : string) (mask : Z)
| readlink (path : string) (size : Z)
| readdir (path : string) (offset : Z) (fi : option Fi) (rflags : Z)
| mknod (path : string) (mode rdev : Z)
| mkdir (path : string) (mode : Z)
| symlink (from to : string)
| unlink (path : string)
| rmdir (path : string)
| rename (from to : string) (rflags : Z)
| link (from to : string)
| chmod (path : string) (mode : Z)
| chown (path : string) (uid gid : Z)
| truncate (path : string) (size : Z) (fi : option Fi)
| utimens (path : string) (ts : (Z * Z) * (Z * Z)) (fi : option Fi)
| open (path : string) (fi : Fi)
| create (path : string) (mode : Z) (fi : Fi)
| read (path : string) (size offset : Z) (fi : option Fi)
| write (path : string) (size offset : Z) (fi : option Fi)
| statfs (path : string)
| release (path : string) (fi : Fi)
| fsync (path : string) (isdatasync : Z) (fi : Fi)
| fallocate (path : string) (mode offset length : Z) (fi : option Fi)
| setxattr (path name value : string) (size xflags : Z)
| getxattr (path name : string) (size : Z)
| listxattr (path : string) (size : Z)
| removexattr (path name : string).

(** What a handler hands back: the integer returned, with the file-info
    record where the handler has one to write; for [init], the pointer
    returned and the configuration. *)
Inductive Reply : Type :=
| Int (res : Z) (fi : option Fi)
| Ptr (p : Z) (cfg : fuse_config).

Definition is_open (r : Request) : bool :=
  match r with
  | open _ _ => true
  | _ => false
  end.

Definition is_readdir (r : Request) : bool :=
  match r with
  | readdir _ _ _ _ => true
  | _ => false
  end.

(** [xmp_oper]: the handler of each request, [None] where the build has
    left the entry out of the table. *)
Definition xmp_oper (b : Build) (w : World) (r : Request) : option (M Reply) :=
  let plain (m : M Z) : M Reply := res <- m ;; ret (Int res None) in
  let bound (m : M (Z * Fi)) : M Reply :=
      res <- m ;; ret (Int (fst res) (Some (snd res))) in
  match r with
  | init cfg => Some (res <- xmp_init cfg ;; ret (Ptr (fst res) (snd res)))
  | getattr path => Some (plain (xmp_getattr w path))
  | access path mask => Some (plain (xmp_access w path mask))
  | readlink path size => Some (plain (xmp_readlink w path size))
  | readdir path offset fi rflags => Some (plain (xmp_readdir w path offset fi rflags))
  | mknod path mode rdev => Some (plain (xmp_mknod w path mode rdev))
  | mkdir path mode => Some (plain (xmp_mkdir w path mode))
  | symlink from to => Some (plain (xmp_symlink w from to))
  | unlink path => Some (plain (xmp_unlink w path))
  | rmdir path => Some (plain (xmp_rmdir w path))
  | rename from to rflags => Some (plain (xmp_rename w from to rflags))
  | link from to => Some (plain (xmp_link w from to))
  | chmod path mode => Some (plain (xmp_chmod w path mode))
  | chown path uid gid => Some (plain (xmp_chown w path uid gid))
  | truncate path size fi => Some (plain (xmp_truncate w path size fi))
  | utimens path ts fi =>
      if HAVE_UTIMENSAT b then Some (plain (xmp_utimens w path ts fi)) else None
  | open path fi => Some (bound (xmp_open w path fi))
  | create path mode fi => Some (bound (xmp_create w path mode fi))
  | read path size offset fi => Some (plain (xmp_read w path size offset fi))
  | write path size offset fi => Some (plain (xmp_write w path size offset fi))
  | statfs path => Some (plain (xmp_statfs w path))
  | release path fi => Some (plain (xmp_release w path fi))
  | fsync path isdatasync fi => Some (plain (xmp_fsync path isdatasync fi))
  | fallocate path mode offset length fi =>
      if HAVE_POSIX_FALLOCATE b
      then Some (plain (xmp_fallocate w path mode offset length fi)) else None
  | setxattr path name value size xflags =>
      if HAVE_SETXATTR b
      then Some (plain (xmp_setxattr w path name value size xflags)) else None
  | getxattr path name size =>
      if HAVE_SETXATTR b then Some (plain (xmp_getxattr w path name size)) else None
  | listxattr path size =>
      if HAVE_SETXATTR b then Some (plain (xmp_listxattr w path size)) else None
  | removexattr path name =>
      if HAVE_SETXATTR b then Some (plain (xmp_removexattr w path name)) else None
  end.

End Oper.

(** The calls into the host's file system. *)
Definition is_host (c : Call) : bool :=
  match c with
  | Lstat _ | Access _ _ | Readlink _ _ | Mknod _ _ _ | Mkfifo _ _
  | Mkdir _ _ | Unlink _ | Rmdir _ | Symlink _ _ | Rename _ _ | Link _ _
  | Chmod _ _ | Lchown _ _ _ | Truncate _ _ | Ftruncate _ _ | Open2 _ _
  | Open3 _ _ _ | Close _ | Pread _ _ _ | Pwrite _ _ _ | Statvfs _
  | Opendir _ | Readdir | Closedir | Utimensat _ _ _ _
  | Posix_fallocate _ _ _ | Lsetxattr _ _ _ _ _ | Lgetxattr _ _ _
  | Llistxattr _ _ | Lremovexattr _ _ => true
  | _ => false
  end.

(** The library's callback that takes one directory entry. *)
Definition is_filler (c : Call) : bool :=
  match c with
  | Filler _ _ _ _ _ => true
  | _ => false
  end.

(** A call that leaves the user alone: into the host's file system, or of
    the filler. *)
Definition is_plain (c : Call) : bool := is_host c || is_filler c.

(** The call of the filler for the entry [de]: its name, and a [struct stat]
    zeroed but for [st_ino] and [st_mode]. *)
Definition filler_call (de : Dirent) : Call :=
  Filler (d_name de) (d_ino de) (Z.shiftl (Z.of_N (N_of_ascii (d_type de))) 12) 0 0.

(** The calls [xmp_readdir] makes for the entries it offers. *)
Definition offers (des : list Dirent) : list Call :=
  flat_map (fun de => [Readdir; filler_call de]) des.

(** What [xmp_open] emits from [printf("Autenticado com sucesso:\n")] to the
    [close] of the third prompt's pipe, with [cmd] the delivery command and
    [out] what [printf(credenciais[2])] wrote. *)
Definition otp_events (cmd out : string) : list Call :=
  [Printf ("Autenticado com sucesso:" ++ nl); Malloc 8] ++ repeat Rand 6 ++
  [Malloc 100; System cmd; Printf out;
   Pipe; Dup 1; Dup2; Dup2; System zenity_senha; Read 7; Dup2; ClosePipe].

(** What [xmp_open] emits for its first two prompts. *)
Definition prompt_events : list Call :=
  [Pipe; Dup 1; Dup2; Dup2; System zenity_entry; Read 30;
   System zenity_password; Read 30; Dup2; ClosePipe].

Definition is_printf (c : Call) : bool :=
  match c with
  | Printf _ => true
  | _ => false
  end.

(** The calls of the loop over a store's lines. *)
Definition is_scan (c : Call) : bool :=
  match c with
  | Fgets | Printf _ | Fclose => true
  | _ => false
  end.

(** No character of [s] is a newline. *)
Definition no_lf (s : string) : bool :=
  forallb (fun c => negb (Ascii.eqb c LF)) (list_ascii_of_string s).

(** A newline, if [s] has one, is its last character. *)
Fixpoint lf_last (s : string) : bool :=
  match s with
  | EmptyString => true
  | String c s' =>
      if Ascii.eqb c LF then match s' with EmptyString => true | _ => false end
      else lf_last s'
  end.

(** ** Further environments *)

Module Cases.

Local Open Scope string_scope.

(** Scenario 1 of the specification on a host without memory: [malloc]
    returns NULL. *)
Definition no_memory : World :=
  {| w_ret := w_ret Samples.alice_ok;
     w_errno := w_errno Samples.alice_ok;
     w_file := w_file Samples.alice_ok;
     w_dir := w_dir Samples.alice_ok;
     w_pipe := w_pipe Samples.alice_ok;
     w_rand := w_rand Samples.alice_ok;
     w_malloc := fun _ _ => None;
     w_uninit := w_uninit Samples.alice_ok;
     w_credenciais := w_credenciais Samples.alice_ok;
     w_acesso := w_acesso Samples.alice_ok |}.

(** The first prompt is dismissed: its reply is the empty line. *)
Definition dismissed : World :=
  Samples.world (Some ("alice,pw,addr,7" ++ nl)) (Some ("/m/x,7" ++ nl))
                [nl; "pw" ++ nl] [] 5.

(** Nobody is called [mallory]. *)
Definition unknown_user : World :=
  Samples.world (Some ("alice,pw,addr,7" ++ nl)) (Some ("/m/x,7" ++ nl))
                ["mallory" ++ nl; "pw" ++ nl] [] 5.

(** The record of [/m/x] lists five user-ids. *)
Definition five_ids : World :=
  Samples.world None (Some ("/m/x,1,2,3,4,5" ++ nl)) [] [] 5.

(** A build with every entry of the table. *)
Definition full : Build :=
  {| HAVE_UTIMENSAT := true; HAVE_POSIX_FALLOCATE := true; HAVE_SETXATTR := true |}.

(** A directory of two entries, [.] and the regular file [x]; every call
    succeeds. *)
Definition two_entries : World :=
  {| w_ret := fun _ _ => 0%Z;
     w_errno := fun _ _ e => e;
     w_file := fun _ => None;
     w_dir := fun _ _ =>
                Some [ {| d_ino := 11; d_type := ascii_of_nat 4; d_name := "." |};
                       {| d_ino := 12; d_type := ascii_of_nat 8; d_name := "x" |} ];
     w_pipe := fun _ => [];
     w_rand := fun _ => 0%Z;
     w_malloc := fun _ _ => None;
     w_uninit := fun _ _ => NUL;
     w_credenciais := fun _ => EmptyString;
     w_acesso := fun _ => EmptyString |}.


(** The record of [alice] has a fifth field. *)
Definition five_fields : World :=
  Samples.world (Some ("alice,pw,addr,7,x" ++ nl)) None [] [] 5.

End Cases.

(** * Proofs *)

(** Unfolding of the monad on a state that stays abstract. *)
Ltac mrun_in H :=
  cbv [bind ret get_errno tick undef must] in H;
  cbn [errno trace rands reads] in H.
Ltac mrun :=
  cbv [bind ret get_errno tick undef must];
  cbn [errno trace rands reads].

(** The same for long straight-line code, on a state given by its
    fields. *)
Ltac mexec_in H :=
  cbv [bind ret get_errno tick undef must read malloc printf_fmt
       errno trace rands reads] in H.
Ltac mexec :=
  cbv [bind ret get_errno tick undef must read malloc printf_fmt
       errno trace rands reads].

(** Membership in an explicit list. *)
Ltac find_in := repeat first [left; reflexivity | right].


Lemma ascii_compare_refl (c : ascii) : Ascii.compare c c = Eq.
Proof. unfold Ascii.compare. apply N.compare_refl. Qed.

Lemma string_compare_refl (s : string) : String.compare s s = Eq.
Proof. induction s as [|c s IH]; simpl; [reflexivity|]. now rewrite ascii_compare_refl. Qed.

Lemma strcmp_eqb (a b : string) : (strcmp a b =? 0)%Z = String.eqb a b.
Proof.
  unfold strcmp. destruct (String.eqb_spec a b) as [->|Hne].
  - now rewrite string_compare_refl.
  - destruct (String.compare a b) eqn:E; try reflexivity.
    apply String.compare_eq_iff in E. contradiction.
Qed.

Lemma strcmp_zero (a b : string) : (strcmp a b =? 0)%Z = true <-> a = b.
Proof. rewrite strcmp_eqb. apply String.eqb_eq. Qed.

Lemma store_spec (str : list ascii) (n : nat) (c : ascii) :
  n < List.length str ->
  store str n c = Some (firstn n str ++ c :: skipn (S n) str).
Proof.
  revert n. induction str as [|b str IH]; intros n H; simpl in H; [lia|].
  destruct n as [|n]; simpl; [reflexivity|].
  rewrite IH by lia. reflexivity.
Qed.

Lemma cstring_of_app (cs rest : list ascii) :
  Forall (fun c => Ascii.eqb c NUL = false) cs ->
  cstring_of (cs ++ NUL :: rest) = Some (string_of_list_ascii cs).
Proof.
  induction 1 as [|c cs Hc _ IH]; simpl; [reflexivity|].
  rewrite Hc, IH. reflexivity.
Qed.

Lemma string_length_append (a b : string) :
  String.length (a ++ b)%string = String.length a + String.length b.
Proof. induction a as [|c a IH]; simpl; [reflexivity|now rewrite IH]. Qed.

(** [fgets] splits what is left of the stream in two. *)
Lemma fgets_from_split (room : nat) (s : string) :
  (fst (fgets_from room s) ++ snd (fgets_from room s))%string = s /\
  String.length (fst (fgets_from room s)) <= room.
Proof.
  revert s. induction room as [|room IH]; intros s.
  - simpl. split; [reflexivity|lia].
  - destruct s as [|c s]; simpl; [split; [reflexivity|lia]|].
    destruct (Ascii.eqb c LF); simpl; [split; [reflexivity|lia]|].
    specialize (IH s). destruct (fgets_from room s) as [l rest]. simpl in *.
    destruct IH as [-> Hl]. split; [reflexivity|lia].
Qed.

Lemma fgets_from_progress (room : nat) (c : ascii) (s : string) :
  String.length (snd (fgets_from (S room) (String c s))) <= String.length s.
Proof.
  simpl. destruct (Ascii.eqb c LF); simpl; [lia|].
  pose proof (fgets_from_split room s) as [E _].
  destruct (fgets_from room s) as [l rest]. simpl in *.
  assert (El : String.length s = String.length (l ++ rest)%string) by now rewrite E.
  rewrite string_length_append in El. lia.
Qed.

(** The lines of a file, put end to end, are the file: the loop over
    [fgets] sees all of it, in pieces of at most 127 characters. *)
Lemma read_lines_all (fuel : nat) : forall s,
  String.length s <= fuel ->
  fold_right append EmptyString (read_lines fuel 128 s) = s /\
  Forall (fun l => String.length l <= 127) (read_lines fuel 128 s).
Proof.
  induction fuel as [|fuel IH]; intros s Hs.
  - destruct s; [simpl; auto|simpl in Hs; lia].
  - destruct s as [|c s]; [simpl; auto|].
    cbn [read_lines fgets]. change (128 - 1) with (S 126).
    pose proof (fgets_from_split (S 126) (String c s)) as [E Hl].
    pose proof (fgets_from_progress 126 c s) as Hp.
    destruct (fgets_from (S 126) (String c s)) as [l rest]. cbn [fst snd] in *.
    simpl in Hs. destruct (IH rest ltac:(lia)) as [E' Hf].
    cbn [fold_right]. rewrite E'. split; [exact E|]. now constructor.
Qed.

Lemma file_lines_all (s : string) :
  fold_right append EmptyString (file_lines 128 s) = s /\
  Forall (fun l => String.length l <= 127) (file_lines 128 s).
Proof. apply read_lines_all. lia. Qed.

Lemma fields_nonempty (d : ascii) (s : string) : fields d s <> [].
Proof.
  destruct s as [|c s]; simpl; [discriminate|].
  destruct (Ascii.eqb c d); [discriminate|].
  destruct (fields d s); discriminate.
Qed.

Lemma concat_two (sep x y : string) (l : list string) :
  String.concat sep (x :: y :: l) = (x ++ sep ++ String.concat sep (y :: l))%string.
Proof. reflexivity. Qed.

(** [fields] is a split: joined again with the delimiter, the fields are
    the line. *)
Lemma fields_join (d : ascii) (s : string) :
  String.concat (String d EmptyString) (fields d s) = s.
Proof.
  induction s as [|c s IH]; [reflexivity|].
  simpl fields. pose proof (fields_nonempty d s) as Hn.
  destruct (fields d s) as [|f fs]; [contradiction|].
  destruct (Ascii.eqb_spec c d) as [->|Hne].
  - rewrite concat_two, IH. reflexivity.
  - destruct fs as [|g fs].
    + simpl in *. now rewrite IH.
    + rewrite concat_two in *. simpl. simpl in IH. now rewrite IH.
Qed.

(** No field holds the delimiter, so no token does. *)
Lemma fields_free (d : ascii) (s : string) :
  Forall (fun f => ~ In d (list_ascii_of_string f)) (fields d s).
Proof.
  induction s as [|c s IH]; simpl.
  - constructor; [intros []|constructor].
  - destruct (Ascii.eqb_spec c d) as [->|Hne].
    + constructor; [intros []|exact IH].
    + destruct (fields d s) as [|f fs]; [constructor; [|constructor]|].
      * simpl. intros [E|[]]. congruence.
      * inversion IH as [|? ? Hf Hfs]; subst. constructor; [|exact Hfs].
        simpl. intros [E|E]; [congruence|contradiction].
Qed.

Lemma strtok_all_tokens (d : ascii) (s : string) :
  Forall (fun t => t <> EmptyString /\ ~ In d (list_ascii_of_string t))
         (strtok_all d s).
Proof.
  unfold strtok_all. pose proof (fields_free d s) as Hf.
  induction Hf as [|f fs Hd _ IH]; simpl; [constructor|].
  destruct f as [|c f]; simpl; [exact IH|].
  constructor; [|exact IH]. split; [discriminate|exact Hd].
Qed.

Section Runs.
Variable w : World.

Lemma run_of_refl P st : run_of w P st st.
Proof.
  split; [exists []; split; [unfold emitted; now rewrite app_nil_r | reflexivity] | auto].
Qed.

Lemma run_of_trans P st1 st2 st3 :
  run_of w P st1 st2 -> run_of w P st2 st3 -> run_of w P st1 st3.
Proof.
  intros [[e1 [H1 F1]] E1] [[e2 [H2 F2]] E2]. split.
  - exists (e1 ++ e2). split.
    + unfold emitted in *. now rewrite H2, H1, app_assoc.
    + rewrite forallb_app, F1, F2. reflexivity.
  - auto.
Qed.

Lemma run_of_weaken (P Q : Call -> bool) st st' :
  (forall c, P c = true -> Q c = true) -> run_of w P st st' -> run_of w Q st st'.
Proof.
  intros HPQ [[e [H F]] E]. split; [|exact E].
  exists e. split; [exact H|].
  rewrite forallb_forall in *. auto.
Qed.

Lemma run_of_tick P c st r st' :
  P c = true -> tick w c st = Done r st' -> run_of w P st st'.
Proof.
  intros HP H. unfold tick in H. injection H as _ <-. split.
  - exists [c]. split; [reflexivity|]. simpl. now rewrite HP.
  - intros Hs H0. simpl. now apply Hs.
Qed.

Lemma same_counters_refl st : same_counters st st.
Proof. now split. Qed.

Lemma same_counters_trans st1 st2 st3 :
  same_counters st1 st2 -> same_counters st2 st3 -> same_counters st1 st3.
Proof. intros [A B] [C D]. split; congruence. Qed.

Lemma same_counters_tick c st r st' :
  tick w c st = Done r st' -> same_counters st st'.
Proof. intros H. unfold tick in H. injection H as _ <-. now split. Qed.

End Runs.


Lemma from_key_none key toks : from_key key toks = None <-> ~ In key toks.
Proof.
  induction toks as [|t toks IH]; simpl.
  - tauto.
  - destruct (String.eqb_spec key t) as [->|Hne].
    + split; [discriminate|]. intros H; exfalso; apply H; now left.
    + rewrite IH. split.
      * intros H [E|E]; [congruence|tauto].
      * tauto.
Qed.

Lemma from_key_some key toks copied :
  from_key key toks = Some copied <->
  exists pre post, toks = pre ++ key :: post /\ ~ In key pre /\ copied = key :: post.
Proof.
  revert copied. induction toks as [|t toks IH]; intros copied; simpl.
  - split; [discriminate|]. intros (pre & post & H & _). now destruct pre.
  - destruct (String.eqb_spec key t) as [->|Hne].
    + split.
      * intros [= <-]. exists [], toks. simpl. tauto.
      * intros (pre & post & H & Hn & ->). destruct pre as [|p pre].
        -- simpl in H. now rewrite H.
        -- simpl in H. injection H as <- _. exfalso. apply Hn. now left.
    + rewrite IH. split.
      * intros (pre & post & -> & Hn & ->). exists (t :: pre), post.
        simpl. split; [reflexivity|]. split; [|reflexivity].
        intros [E|E]; [congruence|tauto].
      * intros (pre & post & H & Hn & ->). destruct pre as [|p pre].
        -- simpl in H. injection H as E _. congruence.
        -- simpl in H. injection H as <- ->. exists pre, post.
           split; [reflexivity|]. split; [|reflexivity].
           intros E. apply Hn. now right.
Qed.

Lemma first_hit_none key lines : first_hit key lines = None <-> no_match key lines.
Proof.
  unfold no_match. induction lines as [|l lines IH]; simpl.
  - split; [intros _ l []|reflexivity].
  - destruct (from_key key (tokens l)) eqn:E.
    + split; [discriminate|]. intros H. exfalso.
      assert (Hn : from_key key (tokens l) = None)
        by (apply from_key_none, H; now left).
      congruence.
    + rewrite IH. apply from_key_none in E. split.
      * intros H l' [<-|Hin]; auto.
      * intros H l' Hin. apply H. now right.
Qed.

Lemma first_hit_some key lines copied :
  first_hit key lines = Some copied <-> first_match key lines copied.
Proof.
  unfold first_match. revert copied.
  induction lines as [|l lines IH]; intros copied; simpl.
  - split; [discriminate|]. intros (l1 & line & l2 & pre & post & H & _).
    now destruct l1.
  - destruct (from_key key (tokens l)) as [cp|] eqn:E.
    + split.
      * intros [= <-]. apply from_key_some in E as (pre & post & Ht & Hn & ->).
        exists [], l, lines, pre, post. simpl. intuition.
      * intros (l1 & line & l2 & pre & post & H & Hl1 & Ht & Hn & ->).
        destruct l1 as [|x l1]; simpl in H; injection H as <- ->.
        -- assert (E' : from_key key (tokens l) = Some (key :: post))
             by (apply from_key_some; eauto).
           congruence.
        -- exfalso. assert (En : from_key key (tokens l) = None)
             by (apply from_key_none, Hl1; now left).
           congruence.
    + rewrite IH. apply from_key_none in E. split.
      * intros (l1 & line & l2 & pre & post & -> & Hl1 & Ht & Hn & ->).
        exists (l :: l1), line, l2, pre, post. simpl.
        repeat split; auto. intros l' [<-|Hin]; auto.
      * intros (l1 & line & l2 & pre & post & H & Hl1 & Ht & Hn & ->).
        destruct l1 as [|x l1]; simpl in H; injection H as <- ->.
        -- exfalso. apply E. rewrite Ht. apply in_or_app. right. now left.
        -- exists l1, line, l2, pre, post. repeat split; auto.
           intros l' Hin. apply Hl1. now right.
Qed.

Lemma first_match_unique key lines c1 c2 :
  first_match key lines c1 -> first_match key lines c2 -> c1 = c2.
Proof.
  intros H1 H2. apply first_hit_some in H1, H2. congruence.
Qed.

Lemma first_match_or_none key lines :
  no_match key lines \/ exists copied, first_match key lines copied.
Proof.
  destruct (first_hit key lines) as [cp|] eqn:E.
  - right. exists cp. now apply first_hit_some.
  - left. now apply first_hit_none.
Qed.

Lemma first_match_not_none key lines copied :
  first_match key lines copied -> no_match key lines -> False.
Proof.
  intros H1 H2. apply first_hit_some in H1. apply first_hit_none in H2. congruence.
Qed.


Section Scan.
Variable w : World.

Lemma strcpy_row_some rows i token rows' :
  strcpy_row rows i token = Some rows' ->
  i < List.length rows /\ String.length token < 100 /\
  rows' = firstn i rows ++ token :: skipn (S i) rows.
Proof.
  unfold strcpy_row. destruct (Nat.ltb_spec i (List.length rows)); simpl; [|discriminate].
  destruct (Nat.ltb_spec (String.length token) 100); [|discriminate].
  intros [= <-]. auto.
Qed.

Lemma strcpy_row_ok rows i token :
  i < List.length rows -> String.length token < 100 ->
  strcpy_row rows i token = Some (firstn i rows ++ token :: skipn (S i) rows).
Proof.
  intros H1 H2. unfold strcpy_row.
  apply Nat.ltb_lt in H1, H2. now rewrite H1, H2.
Qed.

Lemma rows_after_copy {A} (rows : list A) i token toks :
  i < List.length rows ->
  let rows1 := firstn i rows ++ token :: skipn (S i) rows in
  firstn (S i) rows1 ++ toks ++ skipn (S i + List.length toks) rows1
  = firstn i rows ++ (token :: toks) ++ skipn (i + List.length (token :: toks)) rows.
Proof.
  intros Hi rows1. subst rows1.
  assert (Hl : List.length (firstn i rows) = i) by (apply firstn_length_le; lia).
  set (a := firstn i rows) in *. set (b := skipn (S i) rows).
  assert (E1 : firstn (S i) (a ++ token :: b) = a ++ [token]).
  { replace (S i) with (List.length a + 1) by lia.
    rewrite firstn_app_2. reflexivity. }
  assert (E2 : skipn (S i + List.length toks) (a ++ token :: b) = skipn (List.length toks) b).
  { replace (S i + List.length toks) with (List.length a + S (List.length toks)) by lia.
    rewrite skipn_app, skipn_all2 by lia.
    replace (List.length a + S (List.length toks) - List.length a) with (S (List.length toks)) by lia.
    reflexivity. }
  assert (E3 : skipn (i + List.length (token :: toks)) rows = skipn (List.length toks) b).
  { subst b. rewrite skipn_skipn. f_equal. simpl. lia. }
  rewrite E1, E2, E3, <- app_assoc. reflexivity.
Qed.

Lemma rows_after_copy_length {A} (rows : list A) i token :
  i < List.length rows ->
  List.length (firstn i rows ++ token :: skipn (S i) rows) = List.length rows.
Proof.
  intros Hi. rewrite length_app. cbn [List.length]. rewrite firstn_length_le, length_skipn by lia. lia.
Qed.

Lemma scan_tokens_true key toks : forall i rows st g rows' st',
  scan_tokens w key toks true i rows st = Done (g, rows') st' ->
  i <= List.length rows ->
  g = true /\
  rows' = firstn i rows ++ toks ++ skipn (i + List.length toks) rows /\
  i + List.length toks <= List.length rows /\
  Forall (fun t => String.length t < 100 /\ fmt_render t <> None) toks /\
  run_of w is_stdio st st' /\ same_counters st st'.
Proof.
  induction toks as [|token toks IH]; intros i rows st g rows' st' H Hi.
  - simpl in H. injection H as <- <- <-.
    simpl. rewrite Nat.add_0_r, firstn_skipn.
    split; [reflexivity|]. split; [reflexivity|]. split; [exact Hi|].
    split; [constructor|]. split; [apply run_of_refl|apply same_counters_refl].
  - simpl in H.
    assert (Hg : (if (strcmp key token =? 0)%Z then true else true) = true)
      by (destruct (strcmp key token =? 0)%Z; reflexivity).
    rewrite Hg in H. unfold printf_fmt in H. mrun_in H.
    destruct (fmt_render token) as [out|] eqn:Ef; [|discriminate].
    destruct (strcpy_row rows i token) as [rows1|] eqn:Ec; [|discriminate].
    apply strcpy_row_some in Ec as (Hlt & Hlen & ->).
    apply IH in H; [|rewrite rows_after_copy_length by exact Hlt; lia].
    destruct H as (-> & -> & Hb & Hf & Hr & Hc).
    rewrite rows_after_copy_length in Hb by exact Hlt.
    split; [reflexivity|]. split; [now apply rows_after_copy|].
    split; [simpl; lia|]. split.
    + constructor; [split; [exact Hlen|congruence]|exact Hf].
    + split.
      * eapply run_of_trans; [|exact Hr].
        eapply (run_of_tick w is_stdio (Printf out)); [reflexivity|reflexivity].
      * eapply same_counters_trans; [|exact Hc]. now split.
Qed.

Lemma scan_tokens_true_run key toks : forall i rows st,
  i + List.length toks <= List.length rows ->
  Forall (fun t => String.length t < 100 /\ fmt_render t <> None) toks ->
  exists st',
    scan_tokens w key toks true i rows st
    = Done (true, firstn i rows ++ toks ++ skipn (i + List.length toks) rows) st'.
Proof.
  induction toks as [|token toks IH]; intros i rows st Hi Hf.
  - exists st. simpl. now rewrite Nat.add_0_r, firstn_skipn.
  - simpl in Hi. inversion Hf as [|? ? [Hlen Hfmt] Hf']; subst.
    simpl.
    assert (Hg : (if (strcmp key token =? 0)%Z then true else true) = true)
      by (destruct (strcmp key token =? 0)%Z; reflexivity).
    rewrite Hg. unfold printf_fmt. mrun.
    destruct (fmt_render token) as [out|] eqn:Ef; [|congruence].
    rewrite strcpy_row_ok by lia.
    edestruct (IH (S i) (firstn i rows ++ token :: skipn (S i) rows)) as [st' E];
      [rewrite rows_after_copy_length by lia; lia|exact Hf'|].
    exists st'. rewrite E. rewrite rows_after_copy by lia. reflexivity.
Qed.

Lemma scan_tokens_head key token toks i rows :
  key = token ->
  scan_tokens w key (token :: toks) false i rows
  = scan_tokens w key (token :: toks) true i rows.
Proof.
  intros ->. simpl. rewrite (proj2 (strcmp_zero token token) eq_refl). reflexivity.
Qed.

Lemma scan_tokens_skip key token toks i rows :
  key <> token ->
  scan_tokens w key (token :: toks) false i rows
  = scan_tokens w key toks false i rows.
Proof.
  intros Hne. simpl.
  destruct (strcmp key token =? 0)%Z eqn:E; [|reflexivity].
  apply strcmp_zero in E. contradiction.
Qed.

Lemma scan_tokens_false key toks : forall rows st g rows' st',
  scan_tokens w key toks false 0 rows st = Done (g, rows') st' ->
  run_of w is_stdio st st' /\ same_counters st st' /\
  match from_key key toks with
  | None => g = false /\ rows' = rows
  | Some copied =>
      g = true /\ rows' = put_rows copied rows /\ copy_ok (List.length rows) copied
  end.
Proof.
  induction toks as [|token toks IH]; intros rows st g rows' st' H.
  - simpl in H. injection H as <- <- <-. simpl.
    split; [apply run_of_refl|]. split; [apply same_counters_refl|]. auto.
  - simpl from_key. destruct (String.eqb_spec key token) as [E|E].
    + rewrite scan_tokens_head in H by exact E.
      apply scan_tokens_true in H; [|lia].
      destruct H as (-> & -> & Hb & Hf & Hr & Hc).
      split; [exact Hr|]. split; [exact Hc|].
      split; [reflexivity|]. split; [reflexivity|]. split; [exact Hb|exact Hf].
    + rewrite scan_tokens_skip in H by exact E. now apply IH.
Qed.

Lemma scan_tokens_false_run key toks : forall rows st,
  match from_key key toks with
  | None => scan_tokens w key toks false 0 rows st = Done (false, rows) st
  | Some copied =>
      copy_ok (List.length rows) copied ->
      exists st', scan_tokens w key toks false 0 rows st
                  = Done (true, put_rows copied rows) st'
  end.
Proof.
  induction toks as [|token toks IH]; intros rows st.
  - reflexivity.
  - simpl from_key. destruct (String.eqb_spec key token) as [E|E].
    + intros [Hl Hf]. rewrite scan_tokens_head by exact E.
      destruct (scan_tokens_true_run key (token :: toks) 0 rows st) as [st' Hs]; auto.
      exists st'. exact Hs.
    + rewrite scan_tokens_skip by exact E. apply IH.
Qed.

End Scan.



Section Stores.
Variable w : World.

Lemma acesso_tem_in acesso id : acesso_tem acesso id = true <-> In id acesso.
Proof.
  unfold acesso_tem. rewrite existsb_exists. split.
  - intros (row & Hin & E). apply strcmp_zero in E. now subst.
  - intros Hin. exists id. split; [exact Hin|]. now apply strcmp_zero.
Qed.

Lemma acesso_tem_true (rows : list string) (id : string) :
  acesso_tem rows id = true -> In id rows.
Proof.
  unfold acesso_tem. intros H. apply existsb_exists in H as (row & Hin & E).
  rewrite strcmp_eqb in E. apply String.eqb_eq in E. now subst.
Qed.

Lemma run_of_tick2 P c1 c2 st :
  P c1 = true -> P c2 = true ->
  forall r1 s1 r2 s2, tick w c1 st = Done r1 s1 -> tick w c2 s1 = Done r2 s2 ->
  run_of w P st s2.
Proof.
  intros H1 H2 r1 s1 r2 s2 E1 E2.
  eapply run_of_trans;
    [eapply (run_of_tick w P c1); [exact H1|exact E1]
    |eapply (run_of_tick w P c2); [exact H2|exact E2]].
Qed.

Lemma acesso_loop_spec lines : forall id path acesso st r st',
  acesso_loop w lines id path acesso st = Done r st' ->
  run_of w is_stdio st st' /\ same_counters st st' /\
  match first_hit path lines with
  | None => r = 0%Z
  | Some copied =>
      copy_ok (List.length acesso) copied /\
      if acesso_tem (put_rows copied acesso) id then r = 1%Z
      else r = (- errno st')%Z
  end.
Proof.
  induction lines as [|line lines IH]; intros id path acesso st r st' H.
  - simpl in H. mrun_in H. injection H as <- <-.
    split; [|split; [now split|reflexivity]].
    eapply run_of_tick2 with (c1 := Fgets) (c2 := Fclose); reflexivity.
  - simpl in H. mrun_in H.
    match type of H with
    | context [scan_tokens w ?k ?t false 0 ?a ?s] =>
        destruct (scan_tokens w k t false 0 a s) as [[g acesso'] s1|] eqn:Es;
        [|discriminate]
    end.
    apply scan_tokens_false in Es as (Hr & Hc & Hk).
    assert (Hr0 : run_of w is_stdio st s1).
    { eapply run_of_trans; [|exact Hr].
      eapply (run_of_tick w is_stdio Fgets); reflexivity. }
    assert (Hc0 : same_counters st s1).
    { eapply same_counters_trans; [|exact Hc]. now split. }
    clear Hr Hc.
    simpl first_hit. fold (tokens line) in Hk.
    destruct (from_key path (tokens line)) as [copied|].
    + destruct Hk as (-> & -> & Hok). 
      destruct (acesso_tem (put_rows copied acesso) id) eqn:Et.
      * mrun_in H. injection H as <- <-. auto.
      * mrun_in H. injection H as <- <-.
        split; [|split; [|split; [exact Hok|reflexivity]]].
        -- eapply run_of_trans; [exact Hr0|].
           eapply (run_of_tick w is_stdio (Printf _)); reflexivity.
        -- eapply same_counters_trans; [exact Hc0|]. now split.
    + destruct Hk as (-> & ->).
      apply IH in H as (Hr & Hc & Hm).
      split; [eapply run_of_trans; eauto|].
      split; [eapply same_counters_trans; eauto|exact Hm].
Qed.


(** The loop returns whenever the copy of the first line that holds the
    path stays within the rows. *)
Lemma acesso_loop_run lines : forall id path acesso st,
  (forall copied, first_hit path lines = Some copied ->
                  copy_ok (List.length acesso) copied) ->
  exists r st', acesso_loop w lines id path acesso st = Done r st'.
Proof.
  induction lines as [|line lines IH]; intros id path acesso st Hok.
  - simpl. mrun. eauto.
  - simpl in Hok. simpl. mrun. fold (tokens line).
    match goal with
    | |- context [scan_tokens w path (tokens line) false 0 acesso ?s] =>
        pose proof (scan_tokens_false_run w path (tokens line) acesso s) as Hs
    end.
    destruct (from_key path (tokens line)) as [cp|].
    + destruct (Hs (Hok _ eq_refl)) as [s1 E]. rewrite E.
      destruct (acesso_tem (put_rows cp acesso) id); mrun; eauto.
    + rewrite Hs. now apply IH.
Qed.

Lemma credenciais_loop_spec lines : forall u p rows st r rows' st',
  credenciais_loop w lines u p rows st = Done (r, rows') st' ->
  run_of w is_stdio st st' /\ same_counters st st' /\
  match first_hit u lines with
  | None => r = 0%Z /\ rows' = rows
  | Some copied =>
      copy_ok (List.length rows) copied /\ rows' = put_rows copied rows /\
      if String.eqb (nth 1 rows' EmptyString) p then r = 1%Z
      else r = (- errno st')%Z
  end.
Proof.
  induction lines as [|line lines IH]; intros u p rows st r rows' st' H.
  - simpl in H. mrun_in H. injection H as <- <- <-.
    split; [|split; [now split|split; reflexivity]].
    eapply run_of_tick2 with (c1 := Fgets) (c2 := Fclose); reflexivity.
  - simpl in H. mrun_in H.
    match type of H with
    | context [scan_tokens w ?k ?t false 0 ?a ?s] =>
        destruct (scan_tokens w k t false 0 a s) as [[g rows1] s1|] eqn:Es;
        [|discriminate]
    end.
    apply scan_tokens_false in Es as (Hr & Hc & Hk).
    assert (Hr0 : run_of w is_stdio st s1).
    { eapply run_of_trans; [|exact Hr].
      eapply (run_of_tick w is_stdio Fgets); reflexivity. }
    assert (Hc0 : same_counters st s1).
    { eapply same_counters_trans; [|exact Hc]. now split. }
    clear Hr Hc.
    simpl first_hit. fold (tokens line) in Hk.
    destruct (from_key u (tokens line)) as [copied|].
    + destruct Hk as (-> & -> & Hok).
      rewrite strcmp_eqb in H.
      destruct (String.eqb (nth 1 (put_rows copied rows) "") p) eqn:Et.
      * mrun_in H. injection H as <- <- <-. rewrite Et. auto.
      * mrun_in H. injection H as <- <- <-.
        rewrite Et.
        split; [|split; [|split; [exact Hok|split; reflexivity]]].
        -- eapply run_of_trans; [exact Hr0|].
           eapply (run_of_tick w is_stdio (Printf _)); reflexivity.
        -- eapply same_counters_trans; [exact Hc0|]. now split.
    + destruct Hk as (-> & ->).
      apply IH in H as (Hr & Hc & Hm).
      split; [eapply run_of_trans; eauto|].
      split; [eapply same_counters_trans; eauto|exact Hm].
Qed.

End Stores.


Section Stores2.
Variable w : World.

Lemma verifica_acesso_spec id path st r st' :
  verifica_acesso w id path st = Done r st' ->
  run_of w is_stdio st st' /\ same_counters st st' /\
  (exists evs, emitted st st' evs /\ In (Fopen perm_path) evs) /\
  match store_lines w perm_path with
  | None => r = (- errno st')%Z
  | Some lines =>
      match first_hit path lines with
      | None => r = 0%Z
      | Some copied =>
          copy_ok 5 copied /\
          if acesso_tem (put_rows copied (acesso0 w)) id then r = 1%Z
          else r = (- errno st')%Z
      end
  end.
Proof.
  unfold verifica_acesso, fopen, store_lines. intros H. mrun_in H.
  match type of H with
  | match w_file w perm_path with _ => _ end ?s = _ =>
      assert (Hr0 : run_of w is_stdio st s);
      [|assert (Hc0 : same_counters st s) by (now split);
        assert (He0 : emitted st s [Printf ("User recebido:" ++ id ++ nl);
                                    Printf ("Path recebida " ++ path ++ nl);
                                    Fopen perm_path])
          by (unfold emitted; cbn [trace]; now rewrite <- !app_assoc);
        revert H Hr0 Hc0 He0; generalize s; intros s1 H Hr0 Hc0 He0]
  end.
  { split; [|intros Hs H0; cbn [errno]; now repeat apply Hs].
    eexists. split; [unfold emitted; cbn [trace]; rewrite <- !app_assoc; reflexivity|reflexivity]. }
  destruct (w_file w perm_path) as [content|]; cbn [option_map].
  - apply acesso_loop_spec in H as (Hr & Hc & Hm).
    split; [eapply run_of_trans; eauto|].
    split; [eapply same_counters_trans; eauto|].
    split; [|exact Hm].
    destruct Hr as [[evs [He _]] _]. exists ([Printf ("User recebido:" ++ id ++ nl);
      Printf ("Path recebida " ++ path ++ nl); Fopen perm_path] ++ evs).
    split; [unfold emitted in *; now rewrite He, He0, app_assoc|].
    apply in_or_app. left. simpl. auto.
  - injection H as <- <-. split; [exact Hr0|]. split; [exact Hc0|].
    split; [|reflexivity]. eexists. split; [exact He0|]. simpl. auto.
Qed.


Lemma verifica_credenciais_spec rows mu mp st r rows' st' :
  verifica_credenciais w rows mu mp st = Done (r, rows') st' ->
  exists u p, mu = Some u /\ mp = Some p /\
  run_of w is_stdio st st' /\ same_counters st st' /\
  match store_lines w cred_path with
  | None => r = (- errno st')%Z /\ rows' = rows
  | Some lines =>
      match first_hit u lines with
      | None => r = 0%Z /\ rows' = rows
      | Some copied =>
          copy_ok (List.length rows) copied /\ rows' = put_rows copied rows /\
          if String.eqb (nth 1 rows' EmptyString) p then r = 1%Z
          else r = (- errno st')%Z
      end
  end.
Proof.
  unfold verifica_credenciais, fopen, store_lines. intros H.
  destruct mu as [u|]; [|discriminate]. destruct mp as [p|]; [|discriminate].
  exists u, p. split; [reflexivity|]. split; [reflexivity|].
  mrun_in H.
  match type of H with
  | match w_file w cred_path with _ => _ end ?s = _ =>
      assert (Hr0 : run_of w is_stdio st s);
      [|assert (Hc0 : same_counters st s) by (now split);
        revert H Hr0 Hc0; generalize s; intros s1 H Hr0 Hc0]
  end.
  { split; [|intros Hs H0; cbn [errno]; now repeat apply Hs].
    eexists. split; [unfold emitted; cbn [trace]; rewrite <- !app_assoc; reflexivity|reflexivity]. }
  destruct (w_file w cred_path) as [content|]; cbn [option_map].
  - apply credenciais_loop_spec in H as (Hr & Hc & Hm).
    split; [eapply run_of_trans; eauto|].
    split; [eapply same_counters_trans; eauto|exact Hm].
  - injection H as <- <- <-. auto.
Qed.

End Stores2.

Lemma charset_at_rem (r : Z) (c : ascii) :
  charset_at (Z.rem r sizeof_charset_minus_1) = Some c ->
  In c reachable_charset /\ Ascii.eqb c NUL = false /\ is_alnum c = true /\
  In c (list_ascii_of_string charset).
Proof.
  unfold charset_at, sizeof_charset_minus_1.
  pose proof (Z.rem_bound_abs r 8 ltac:(lia)) as Hb.
  destruct (Z.ltb_spec (Z.rem r 8) 0) as [Hn|Hn]; [discriminate|].
  assert (Hk : (Z.rem r 8 = 0 \/ Z.rem r 8 = 1 \/ Z.rem r 8 = 2 \/ Z.rem r 8 = 3 \/
                Z.rem r 8 = 4 \/ Z.rem r 8 = 5 \/ Z.rem r 8 = 6 \/ Z.rem r 8 = 7)%Z) by lia.
  destruct Hk as [E|[E|[E|[E|[E|[E|[E|E]]]]]]]; rewrite E;
    intros [= <-]; vm_compute; intuition congruence.
Qed.

Lemma charset_at_nonneg (r : Z) :
  (0 <= r)%Z -> exists c, charset_at (Z.rem r sizeof_charset_minus_1) = Some c.
Proof.
  intros Hr. unfold charset_at, sizeof_charset_minus_1.
  pose proof (Z.rem_bound_pos r 8 Hr ltac:(lia)) as Hb.
  destruct (Z.ltb_spec (Z.rem r 8) 0) as [Hn|Hn]; [lia|].
  assert (Hk : (Z.rem r 8 = 0 \/ Z.rem r 8 = 1 \/ Z.rem r 8 = 2 \/ Z.rem r 8 = 3 \/
                Z.rem r 8 = 4 \/ Z.rem r 8 = 5 \/ Z.rem r 8 = 6 \/ Z.rem r 8 = 7)%Z) by lia.
  destruct Hk as [E|[E|[E|[E|[E|[E|[E|E]]]]]]]; rewrite E; eexists; reflexivity.
Qed.

Section Alloc.
Variable w : World.

Lemma store_some (str : list ascii) n c str' :
  store str n c = Some str' ->
  n < List.length str /\ str' = firstn n str ++ c :: skipn (S n) str.
Proof.
  revert n str'. induction str as [|b str IH]; intros n str' H; [discriminate|].
  destruct n as [|n]; simpl in H.
  - injection H as <-. simpl. split; [lia|reflexivity].
  - destruct (store str n c) as [s1|] eqn:E; [|discriminate].
    injection H as <-. apply IH in E as [Hl ->]. simpl. split; [lia|reflexivity].
Qed.

Lemma gera_password_loop_spec count : forall n str st str' st',
  gera_password_loop w count n str st = Done str' st' ->
  n <= List.length str ->
  exists cs,
    drawn w (rands st) count = Some cs /\
    str' = firstn n str ++ cs ++ skipn (n + List.length cs) str /\
    List.length cs = count /\ n + count <= List.length str /\
    rands st' = rands st + count /\ reads st' = reads st /\
    run_of w is_alloc st st'.
Proof.
  induction count as [|count IH]; intros n str st str' st' H Hn.
  - simpl in H. mrun_in H. injection H as <- <-. exists []. simpl.
    rewrite Nat.add_0_r, firstn_skipn.
    repeat (split; [first [reflexivity | lia]|]). apply run_of_refl.
  - simpl in H. unfold rand in H. mrun_in H.
    destruct (charset_at (Z.rem (w_rand w (rands st)) sizeof_charset_minus_1))
      as [c|] eqn:Ec; [|discriminate].
    destruct (store str n c) as [str1|] eqn:Es; [|discriminate].
    apply store_some in Es as [Hlt ->].
    apply IH in H; [|rewrite rows_after_copy_length by exact Hlt; lia].
    destruct H as (cs & Hd & -> & Hl & Hb & Hr & Hrd & Hrun).
    cbn [rands reads] in *.
    rewrite rows_after_copy_length in Hb by exact Hlt.
    exists (c :: cs). simpl drawn. rewrite Ec, Hd.
    split; [reflexivity|]. split; [now apply rows_after_copy|].
    split; [simpl; lia|]. split; [lia|]. split; [lia|]. split; [exact Hrd|].
    eapply run_of_trans; [|exact Hrun].
    split; [|intros Hs H0; cbn [errno]; now apply Hs].
    exists [Rand]. split; reflexivity.
Qed.

Lemma drawn_length n count cs : drawn w n count = Some cs -> List.length cs = count.
Proof.
  revert n cs. induction count as [|count IH]; intros n cs H; simpl in H.
  - now injection H as <-.
  - destruct (charset_at _); [|discriminate].
    destruct (drawn w (S n) count) as [cs'|] eqn:E; [|discriminate].
    injection H as <-. simpl. f_equal. eauto.
Qed.

Lemma drawn_chars n count cs :
  drawn w n count = Some cs ->
  Forall (fun c => In c reachable_charset /\ Ascii.eqb c NUL = false /\
                   is_alnum c = true /\ In c (list_ascii_of_string charset)) cs.
Proof.
  revert n cs. induction count as [|count IH]; intros n cs H; simpl in H.
  - injection H as <-. constructor.
  - destruct (charset_at _) eqn:Ec; [|discriminate].
    destruct (drawn w (S n) count) as [cs'|] eqn:E; [|discriminate].
    injection H as <-. constructor; [now apply charset_at_rem in Ec|eauto].
Qed.

Lemma drawn_nonneg n count :
  (forall i, i < count -> (0 <= w_rand w (n + i))%Z) ->
  exists cs, drawn w n count = Some cs.
Proof.
  revert n. induction count as [|count IH]; intros n H; simpl.
  - eauto.
  - destruct (charset_at_nonneg (w_rand w n)) as [c Ec].
    { specialize (H 0). rewrite Nat.add_0_r in H. apply H. lia. }
    rewrite Ec. destruct (IH (S n)) as [cs Ecs].
    { intros i Hi. replace (S n + i) with (n + S i) by lia. apply H. lia. }
    rewrite Ecs. eauto.
Qed.

Lemma gera_password_loop_run count : forall n str st cs,
  drawn w (rands st) count = Some cs ->
  n + count <= List.length str ->
  exists st',
    gera_password_loop w count n str st
    = Done (firstn n str ++ cs ++ skipn (n + List.length cs) str) st'.
Proof.
  induction count as [|count IH]; intros n str st cs Hd Hn.
  - simpl in Hd. injection Hd as <-. exists st. simpl. mrun.
    now rewrite Nat.add_0_r, firstn_skipn.
  - simpl in Hd. simpl. unfold rand. mrun.
    destruct (charset_at (Z.rem (w_rand w (rands st)) sizeof_charset_minus_1))
      as [c|] eqn:Ec; [|discriminate].
    destruct (drawn w (S (rands st)) count) as [cs'|] eqn:Ed; [|discriminate].
    injection Hd as <-.
    rewrite store_spec by lia.
    match goal with
    | |- context [gera_password_loop w count (S n) ?b ?s] =>
        destruct (IH (S n) b s cs') as [st' E];
        [exact Ed|rewrite rows_after_copy_length by lia; lia|]
    end.
    exists st'. rewrite E. rewrite rows_after_copy by lia. reflexivity.
Qed.

(** [string_alloc(7)]: six characters and the NUL. *)
Lemma string_alloc_7_spec st o st' :
  string_alloc w 7 st = Done o st' ->
  rands st' = (match o with Some _ => rands st + 6 | None => rands st end) /\
  reads st' = reads st /\ run_of w is_alloc st st' /\
  match o with
  | None => True
  | Some buf =>
      exists cs, drawn w (rands st) 6 = Some cs /\
                 cstring_of buf = Some (string_of_list_ascii cs)
  end.
Proof.
  unfold string_alloc, malloc. intros H. mrun_in H.
  assert (Hm : forall s, s = {| errno := w_errno w (List.length (trace st)) (Malloc (7 + 1)) (errno st);
                        trace := trace st ++ [Malloc (7 + 1)];
                        rands := rands st; reads := reads st |} ->
               run_of w is_alloc st s).
  { intros s ->. split; [|intros Hs H0; cbn [errno]; now apply Hs].
    exists [Malloc (7 + 1)]. split; reflexivity. }
  destruct (w_malloc w (List.length (trace st)) (7 + 1)) as [f|]; cbn [option_map] in H.
  - unfold gera_password in H. mrun_in H.
    match type of H with
    | context [gera_password_loop w 6 0 ?b ?s] =>
        destruct (gera_password_loop w 6 0 b s) as [str1 s1|] eqn:E; [|discriminate];
        specialize (Hm s eq_refl)
    end.
    apply gera_password_loop_spec in E; [|simpl; lia].
    destruct E as (cs & Hd & -> & Hl & Hb & Hr & Hrd & Hrun).
    cbn [rands reads] in *.
    destruct (store _ 6 NUL) as [buf|] eqn:Es; [|discriminate].
    injection H as <- <-.
    split; [exact Hr|]. split; [exact Hrd|].
    split; [eapply run_of_trans; eauto|].
    exists cs. split; [exact Hd|].
    apply store_some in Es as [_ ->].
    pose proof (drawn_chars _ _ _ Hd) as Hf.
    destruct cs as [|c0 [|c1 [|c2 [|c3 [|c4 [|c5 [|c6 cs]]]]]]]; try discriminate Hl.
    cbn -[cstring_of NUL].
    change [c0; c1; c2; c3; c4; c5; NUL; f 7] with ([c0; c1; c2; c3; c4; c5] ++ NUL :: [f 7]).
    apply cstring_of_app.
    eapply Forall_impl; [|exact Hf]. cbv beta. tauto.
  - injection H as <- <-.
    split; [reflexivity|]. split; [reflexivity|]. split; [now apply Hm|exact I].
Qed.

End Alloc.

Section Open.
Variable w : World.

(** A state reached by calls that were all made explicit. *)
Lemma run_of_explicit (P : Call -> bool) st evs e n m :
  forallb P evs = true ->
  (errno_sane w -> (0 <= errno st)%Z -> (0 <= e)%Z) ->
  run_of w P st {| errno := e; trace := trace st ++ evs; rands := n; reads := m |}.
Proof.
  intros HP He. split; [|exact He]. exists evs. split; [reflexivity|exact HP].
Qed.

Lemma xmp_open_checks_inv path st l st1 :
  xmp_open_checks w path st = Done l st1 ->
  exists u p sa sb sc,
    entered_user w st = Some u /\ entered_pass w st = Some p /\
    myuser l = Some u /\
    verifica_credenciais w (credenciais0 w) (Some u) (Some p) sa
    = Done (autenticado l, credenciais l) sb /\
    verifica_acesso w (nth 3 (credenciais l) EmptyString) path sc
    = Done (access l) st1 /\
    run_of w is_prompt st sa /\ rands sa = rands st /\
    reads sa = S (S (reads st)) /\
    run_of w is_stdio sb sc /\ same_counters sb sc.
Proof.
  intros H. destruct st as [e0 t0 n0 m0].
  unfold xmp_open_checks in H. mexec_in H.
  unfold entered_user, entered_pass, prompt_line. cbn [rands reads].
  pose (st := Build_State e0 t0 n0 m0).
  destruct (cstring_of (overlay (firstn 30 (w_pipe w m0)) (uninit w "user" 100)))
    as [user|]; [|discriminate].
  destruct (cstring_of (overlay (firstn 30 (w_pipe w (S m0))) (uninit w "pass" 100)))
    as [pass|]; [|discriminate].
  match type of H with
  | context [verifica_credenciais w ?rows ?mu ?mp ?s] =>
      destruct (verifica_credenciais w rows mu mp s) as [[aut cred] sb|] eqn:Ev;
      [|discriminate];
      assert (Hpr : run_of w is_prompt st s);
      [|assert (Hcn : rands s = rands st /\ reads s = S (S (reads st))) by (now split);
        revert Ev Hpr Hcn; generalize s; intros sa Ev Hpr Hcn]
  end.
  { rewrite <- !app_assoc. apply run_of_explicit; [reflexivity|].
    intros Hs H0. now repeat apply Hs. }
  pose proof (verifica_credenciais_spec w _ _ _ _ _ _ _ Ev) as (u & p & Eu & Ep & _).
  destruct (fmt_render (nth 3 cred "")) as [out|]; [|discriminate].
  match type of H with
  | context [verifica_acesso w ?id ?pa ?s] =>
      destruct (verifica_acesso w id pa s) as [acc sd|] eqn:Ea; [|discriminate];
      assert (Hst : run_of w is_stdio sb s);
      [|assert (Hsc : same_counters sb s) by (now split);
        revert Ea Hst Hsc; generalize s; intros sc Ea Hst Hsc]
  end.
  { rewrite <- !app_assoc. apply run_of_explicit; [reflexivity|].
    intros Hs H0. now repeat apply Hs. }
  injection H as <- <-. cbn [myuser autenticado credenciais access].
  exists u, p, sa, sb, sc. rewrite Eu, Ep in *.
  destruct Hcn as [Hc1 Hc2].
  repeat (split; [first [reflexivity|assumption]|]). assumption.
Qed.


Lemma is_denial_not_host_open c : is_denial c = true -> not_host_open c = true.
Proof. destruct c; simpl; intros H; first [reflexivity|discriminate]. Qed.

Lemma is_alloc_not_host_open c : is_alloc c = true -> not_host_open c = true.
Proof. destruct c; simpl; intros H; first [reflexivity|discriminate]. Qed.

Lemma xmp_open_decide_no_access path fi l st1 :
  access l <> 1%Z ->
  exists st',
    xmp_open_decide w path fi l st1 = Done ((- errno st')%Z, fi) st' /\
    run_of w is_denial st1 st'.
Proof.
  intros Ha. unfold xmp_open_decide.
  destruct (Z.eqb_spec (access l) 1) as [E|_]; [contradiction|].
  cbn [negb]. mrun.
  match goal with |- exists st', Done _ ?s = _ /\ _ => exists s end.
  split; [reflexivity|]. rewrite <- !app_assoc. apply run_of_explicit; [reflexivity|].
  intros Hs H0. now repeat apply Hs.
Qed.

Lemma xmp_open_decide_no_auth path fi l st1 :
  access l = 1%Z -> autenticado l <> 1%Z ->
  exists st',
    xmp_open_decide w path fi l st1 = Done ((- errno st')%Z, fi) st' /\
    run_of w is_denial st1 st'.
Proof.
  intros Ha Hn. unfold xmp_open_decide. rewrite Ha. cbn [Z.eqb Pos.eqb negb].
  destruct (Z.eqb_spec (autenticado l) 1) as [E|_]; [contradiction|].
  mrun.
  match goal with |- exists st', Done _ ?s = _ /\ _ => exists s end.
  split; [reflexivity|].
  apply run_of_explicit; [reflexivity|].
  intros Hs H0. now repeat apply Hs.
Qed.

Lemma xmp_open_decide_inv path fi l st1 r fi' st' :
  xmp_open_decide w path fi l st1 = Done (r, fi') st' ->
  (r = (- errno st')%Z /\ fi' = fi /\ run_of w not_host_open st1 st') \/
  (access l = 1%Z /\ autenticado l = 1%Z /\
   exists cs s2,
     drawn w (rands st1) 6 = Some cs /\
     prompt_line w "recebida" 7 (reads st1) = Some (string_of_list_ascii cs) /\
     (path = cred_path -> myuser l = Some "root") /\
     run_of w not_host_open st1 s2 /\
     xmp_open_host w path fi s2 = Done (r, fi') st').
Proof.
  intros H.
  destruct (Z.eq_dec (access l) 1) as [Ha|Ha].
  2:{ left. destruct (xmp_open_decide_no_access path fi l st1 Ha) as (s & E & Hr).
      rewrite E in H. injection H as <- <- <-.
      split; [reflexivity|]. split; [reflexivity|].
      eapply run_of_weaken; [apply is_denial_not_host_open|exact Hr]. }
  destruct (Z.eq_dec (autenticado l) 1) as [Hu|Hu].
  2:{ left. destruct (xmp_open_decide_no_auth path fi l st1 Ha Hu) as (s & E & Hr).
      rewrite E in H. injection H as <- <- <-.
      split; [reflexivity|]. split; [reflexivity|].
      eapply run_of_weaken; [apply is_denial_not_host_open|exact Hr]. }
  unfold xmp_open_decide in H. rewrite Ha, Hu in H.
  cbn [Z.eqb Pos.eqb negb] in H.
  destruct st1 as [e0 t0 n0 m0]. pose (st1 := Build_State e0 t0 n0 m0).
  mexec_in H. cbn [rands reads].
  match type of H with
  | context [string_alloc w 7 ?s] =>
      destruct (string_alloc w 7 s) as [o [e1 t1 n1 m1]|] eqn:Es; [|discriminate];
      apply string_alloc_7_spec in Es as (Hrn & Hrd & Hrun & Ho);
      cbn [rands reads] in Hrn, Hrd;
      assert (Hr1 : run_of w not_host_open st1 (Build_State e1 t1 n1 m1));
      [eapply run_of_trans;
       [|eapply run_of_weaken; [apply is_alloc_not_host_open|exact Hrun]];
       apply (run_of_explicit not_host_open st1
                [Printf ("Autenticado com sucesso:" ++ nl)]);
       [reflexivity|intros Hs H0; now apply Hs]|]
  end.
  clear Hrun. cbv beta iota in H.
  destruct (w_malloc w (List.length t1) 100) as [f|]; [|discriminate].
  cbv [option_map] in H.
  destruct (strcat (map f (seq 0 100)) sms_command) as [i1|]; [|discriminate].
  destruct (strcat i1 (nth 2 (credenciais l) "")) as [i2|]; [|discriminate].
  destruct (strcat i2 " ") as [i3|]; [|discriminate].
  destruct o as [buf|]; [|discriminate].
  destruct Ho as (cs & Hd & Hbuf). rewrite Hbuf in H.
  destruct (strcat i3 (string_of_list_ascii cs)) as [i4|]; [|discriminate].
  destruct (cstring_of i4) as [cmd|]; [|discriminate].
  destruct (fmt_render (nth 2 (credenciais l) "")) as [out|]; [|discriminate].
  subst m1.
  unfold prompt_line.
  destruct (cstring_of (overlay (firstn 7 (w_pipe w m0))
                                (uninit w "recebida" 100))) as [rec|]; [|discriminate].
  destruct (strtok LF rec) as [myrec|]; [|discriminate].
  rewrite !strcmp_eqb in H.
  match type of H with
  | (if negb (String.eqb myrec _) then _ else _) ?s = _ =>
      assert (Hr2 : run_of w not_host_open st1 s);
      [eapply run_of_trans; [exact Hr1|];
       rewrite <- !app_assoc;
       apply (run_of_explicit not_host_open (Build_State e1 t1 n1 m0));
       [reflexivity|intros Hs H0; now repeat apply Hs]
      |revert H Hr2; generalize s; intros s2 H Hr2]
  end.
  destruct (String.eqb_spec myrec (string_of_list_ascii cs)) as [Em|Em]; cbn [negb] in H.
  2:{ left. injection H as <- <- <-. split; [reflexivity|]. split; [reflexivity|].
      eapply run_of_trans; [exact Hr2|].
      apply run_of_explicit; [reflexivity|intros Hs H0; now repeat apply Hs]. }
  subst myrec.
  destruct (String.eqb_spec cred_path path) as [Ep|Ep].
  - destruct (myuser l) as [u|] eqn:Eu; [|discriminate].
    rewrite strcmp_eqb in H.
    destruct (String.eqb_spec u "root") as [Er|Er]; cbn [negb] in H.
    + right. split; [exact Ha|]. split; [exact Hu|].
      exists cs, s2. subst u. auto 10.
    + left. injection H as <- <- <-. split; [reflexivity|]. split; [reflexivity|].
      eapply run_of_trans; [exact Hr2|].
      apply run_of_explicit; [reflexivity|intros Hs H0; now repeat apply Hs].
  - right. split; [exact Ha|]. split; [exact Hu|].
    exists cs, s2. split; [exact Hd|]. split; [reflexivity|].
    split; [intros E; congruence|]. split; [exact Hr2|exact H].
Qed.

End Open.

Section Mediation.
Variable w : World.

Lemma run_of_emitted P st st' evs :
  run_of w P st st' -> emitted st st' evs -> forallb P evs = true.
Proof.
  intros [[evs' [He Hf]] _] He'. unfold emitted in *.
  rewrite He in He'. apply app_inv_head in He'. now subst.
Qed.

Lemma run_of_errno P st st' :
  run_of w P st st' -> errno_sane w -> (0 <= errno st)%Z -> (0 <= errno st')%Z.
Proof. intros [_ H]. exact H. Qed.

Lemma emitted_trans st1 st2 st3 e1 e2 :
  emitted st1 st2 e1 -> emitted st2 st3 e2 -> emitted st1 st3 (e1 ++ e2).
Proof. unfold emitted. intros H1 H2. now rewrite H2, H1, app_assoc. Qed.

Lemma is_stdio_check c : is_stdio c = true -> is_check c = true.
Proof. unfold is_check. intros ->. reflexivity. Qed.

Lemma is_prompt_check c : is_prompt c = true -> is_check c = true.
Proof. unfold is_check. intros ->. apply orb_true_r. Qed.

Lemma is_check_quiet c : is_check c = true -> quiet c = true.
Proof.
  unfold is_check, quiet, no_otp. destruct c; simpl; try reflexivity; try discriminate.
  intros H. rewrite !orb_true_iff in H.
  destruct H as [[H|H]|H]; apply String.eqb_eq in H; subst cmd; reflexivity.
Qed.

Lemma is_denial_quiet c : is_denial c = true -> quiet c = true.
Proof.
  unfold quiet, no_otp. destruct c; simpl; try reflexivity; try discriminate.
  intros H. apply String.eqb_eq in H; subst cmd; reflexivity.
Qed.


Lemma quiet_not_host_open c : quiet c = true -> not_host_open c = true.
Proof. unfold quiet, not_host_open. intros H. now apply andb_true_iff in H. Qed.

Lemma xmp_open_checks_run path st l st1 :
  xmp_open_checks w path st = Done l st1 ->
  run_of w is_check st st1 /\
  rands st1 = rands st /\ reads st1 = S (S (reads st)) /\
  exists evs, emitted st st1 evs /\ In (Fopen perm_path) evs.
Proof.
  intros H. apply xmp_open_checks_inv in H
    as (u & p & sa & sb & sc & _ & _ & _ & Hv & Ha & Hp & Hrn & Hrd & Hs & Hc).
  apply verifica_credenciais_spec in Hv as (_ & _ & _ & _ & Hv1 & Hv2 & _).
  apply verifica_acesso_spec in Ha as (Ha1 & Ha2 & Ha3 & _).
  assert (Hrun : run_of w is_check st sc).
  { eapply run_of_trans; [eapply run_of_weaken; [apply is_prompt_check|exact Hp]|].
    eapply run_of_trans; eapply run_of_weaken; try apply is_stdio_check; eauto. }
  split.
  { eapply run_of_trans; [exact Hrun|].
    eapply run_of_weaken; [apply is_stdio_check|exact Ha1]. }
  destruct Hv2 as [V1 V2], Hc as [C1 C2], Ha2 as [A1 A2].
  split; [congruence|]. split; [congruence|].
  destruct Hrun as [[e1 [He1 _]] _]. destruct Ha3 as (e2 & He2 & Hin).
  exists (e1 ++ e2). split; [eapply emitted_trans; eauto|].
  apply in_or_app. now right.
Qed.


(** Every open that is refused on the answer of one of the two stores. *)
Lemma xmp_open_refused path fi st l st1 :
  xmp_open_checks w path st = Done l st1 ->
  access l <> 1%Z \/ autenticado l <> 1%Z ->
  exists st' evs,
    xmp_open w path fi st = Done ((- errno st')%Z, fi) st' /\
    emitted st st' evs /\ In (Fopen perm_path) evs /\
    forallb is_refusal evs = true.
Proof.
  intros Hc Hd.
  assert (Hx : exists st', xmp_open_decide w path fi l st1
                           = Done ((- errno st')%Z, fi) st' /\
                           run_of w is_denial st1 st').
  { destruct (Z.eq_dec (access l) 1) as [Ha|Ha].
    - destruct Hd as [Hd|Hd]; [contradiction|].
      now apply xmp_open_decide_no_auth.
    - now apply xmp_open_decide_no_access. }
  destruct Hx as (st' & Ex & Hr).
  pose proof (xmp_open_checks_run path st l st1 Hc) as (Hrun & _ & _ & e1 & He1 & Hin).
  exists st'. destruct Hr as [[e2 [He2 Hf2]] _]. exists (e1 ++ e2).
  split; [unfold xmp_open, bind; now rewrite Hc|].
  split; [eapply emitted_trans; eauto|].
  split; [apply in_or_app; now left|].
  rewrite forallb_app. apply andb_true_iff. split.
  - pose proof (run_of_emitted _ _ _ _ Hrun He1) as Hf1.
    rewrite forallb_forall in *. intros c Hc'. unfold is_refusal.
    rewrite Hf1 by exact Hc'. reflexivity.
  - rewrite forallb_forall in *. intros c Hc'. unfold is_refusal.
    rewrite Hf2 by exact Hc'. apply orb_true_r.
Qed.

Lemma is_refusal_quiet c : is_refusal c = true -> quiet c = true.
Proof.
  unfold is_refusal. intros H. apply orb_true_iff in H.
  destruct H as [H|H]; [now apply is_check_quiet|now apply is_denial_quiet].
Qed.

Lemma forallb_weaken {A} (P Q : A -> bool) (l : list A) :
  (forall a, P a = true -> Q a = true) ->
  forallb P l = true -> forallb Q l = true.
Proof. intros H Hl. rewrite forallb_forall in *. auto. Qed.

End Mediation.


(** Claim C3, amended.  When authentication fails ([verifica_credenciais]
    returned something other than 1) the permission store is consulted all
    the same, [verifica_acesso] being called whatever the first answer was;
    the open is then refused with the negated [errno], the handle is left
    as it was, and no passcode is generated or delivered and the host's
    [open] is not called. *)
Theorem xmp_open_authentication_failure
        (w : World) (path : string) (fi : Fi) (st : State) (l : Locals) (st1 : State) :
  xmp_open_checks w path st = Done l st1 ->
  autenticado l <> 1%Z ->
  exists st' evs,
    xmp_open w path fi st = Done ((- errno st')%Z, fi) st' /\
    emitted st st' evs /\ In (Fopen perm_path) evs /\
    forallb is_refusal evs = true /\ forallb quiet evs = true.
Proof.
  intros Hc Hn.
  destruct (xmp_open_refused w path fi st l st1 Hc (or_intror Hn))
    as (st' & evs & E & He & Hin & Hf).
  exists st', evs. split; [exact E|]. split; [exact He|].
  split; [exact Hin|]. split; [exact Hf|].
  eapply forallb_weaken; [apply is_refusal_quiet|exact Hf].
Qed.

Lemma put_rows_full (copied rows : list string) :
  List.length copied = List.length rows -> put_rows copied rows = copied.
Proof.
  intros H. unfold put_rows. rewrite H, skipn_all. apply app_nil_r.
Qed.

(** Claim C4, amended.  The lookup copies a record only when some
    comma-separated token of some line, whatever its position, equals the
    username byte for byte; what it copies is that token and the tokens
    after it on the first such line, which fills the four rows when the
    token is the first of four; and it returns 1 when the second row then
    equals the password, the negated [errno] otherwise.  Without such a
    line it returns 0 and leaves the rows alone. *)
Theorem verifica_credenciais_lookup
        (w : World) (rows : list string) (u p : string) (st : State)
        (r : Z) (rows' : list string) (st' : State) :
  verifica_credenciais w rows (Some u) (Some p) st = Done (r, rows') st' ->
  match store_lines w cred_path with
  | None => r = (- errno st')%Z /\ rows' = rows
  | Some lines =>
      (no_match u lines /\ r = 0%Z /\ rows' = rows) \/
      (exists copied,
          first_match u lines copied /\
          copy_ok (List.length rows) copied /\
          rows' = put_rows copied rows /\
          (List.length copied = List.length rows -> rows' = copied) /\
          ((nth 1 rows' EmptyString = p /\ r = 1%Z) \/
           (nth 1 rows' EmptyString <> p /\ r = (- errno st')%Z)))
  end.
Proof.
  intros H. apply verifica_credenciais_spec in H
    as (u' & p' & [= <-] & [= <-] & _ & _ & Hm).
  destruct (store_lines w cred_path) as [lines|]; [|exact Hm].
  destruct (first_hit u lines) as [copied|] eqn:Eh.
  - right. exists copied. destruct Hm as (Hok & -> & Hr).
    split; [now apply first_hit_some|]. split; [exact Hok|].
    split; [reflexivity|]. split; [apply put_rows_full|].
    destruct (String.eqb_spec (nth 1 (put_rows copied rows) "") p); auto.
  - left. split; [now apply first_hit_none|exact Hm].
Qed.

(** Claim C5, amended.  [verifica_acesso] returns 1 exactly when the
    permission store can be opened, some line has a token equal to the
    path, and on the first such line the user-id is one of the five rows of
    [acesso] once the path token and the tokens after it were copied there
    (the path itself, these tokens, and what the remaining rows held).  It
    returns 0 when no line has such a token, and the negated [errno] both
    when the first such line does not hold the user-id and when the store
    cannot be opened. *)
Theorem verifica_acesso_outcome
        (w : World) (id path : string) (st : State) (r : Z) (st' : State) :
  verifica_acesso w id path st = Done r st' ->
  (0 <= errno st')%Z ->
  match store_lines w perm_path with
  | None => r = (- errno st')%Z
  | Some lines =>
      (no_match path lines /\ r = 0%Z) \/
      (exists copied,
          first_match path lines copied /\ copy_ok 5 copied /\
          ((In id (put_rows copied (acesso0 w)) /\ r = 1%Z) \/
           (~ In id (put_rows copied (acesso0 w)) /\ r = (- errno st')%Z)))
  end /\
  (r = 1%Z <->
   exists lines copied,
     store_lines w perm_path = Some lines /\ first_match path lines copied /\
     In id (put_rows copied (acesso0 w))).
Proof.
  intros H He. apply verifica_acesso_spec in H as (_ & _ & _ & Hm).
  destruct (store_lines w perm_path) as [lines|].
  - destruct (first_hit path lines) as [copied|] eqn:Eh.
    + destruct Hm as (Hok & Hr). apply first_hit_some in Eh.
      destruct (acesso_tem (put_rows copied (acesso0 w)) id) eqn:Et.
      * apply acesso_tem_in in Et. split.
        -- right. exists copied. auto.
        -- split; [intros _; exists lines, copied; auto|auto].
      * assert (Hn : ~ In id (put_rows copied (acesso0 w))).
        { intros Hin. apply acesso_tem_in in Hin. congruence. }
        split.
        -- right. exists copied. auto.
        -- split; [lia|]. intros (lines' & copied' & [= <-] & Hf & Hin).
           rewrite (first_match_unique _ _ _ _ Hf Eh) in Hin. contradiction.
    + apply first_hit_none in Eh. split; [left; auto|].
      split; [lia|]. intros (lines' & copied' & [= <-] & Hf & _).
      exfalso. eapply first_match_not_none; eauto.
  - split; [exact Hm|]. split; [lia|]. intros (? & ? & [=] & _).
Qed.

(** Claim C1, amended.  The mediated open reaches the host's [open] only
    if (a) some line of the credential store has a token equal to the
    username entered and, once that token and those after it were copied
    into [credenciais], row 1 equals the password entered; (b) some line of
    the permission store has a token equal to the path and row 3 of
    [credenciais] is one of the five rows of [acesso] after the copy from
    the first such line; (c) the first line of the passcode reply equals
    the six characters drawn in this call; and (d) the user is [root] when
    the path is the credential file. *)
Theorem xmp_open_accepts_only_if
        (w : World) (path : string) (fi : Fi) (st : State)
        (r : Z) (fi' : Fi) (st' : State) (evs : list Call) :
  errno_sane w -> (0 <= errno st)%Z ->
  xmp_open w path fi st = Done (r, fi') st' ->
  emitted st st' evs ->
  In (Open2 path (flags fi)) evs ->
  exists u p creds perms copied_c copied_p cs,
    entered_user w st = Some u /\ entered_pass w st = Some p /\
    store_lines w cred_path = Some creds /\
    first_match u creds copied_c /\
    nth 1 (put_rows copied_c (credenciais0 w)) EmptyString = p /\
    store_lines w perm_path = Some perms /\
    first_match path perms copied_p /\
    In (nth 3 (put_rows copied_c (credenciais0 w)) EmptyString)
       (put_rows copied_p (acesso0 w)) /\
    drawn w (rands st) 6 = Some cs /\
    entered_senha w st = Some (string_of_list_ascii cs) /\
    (path = cred_path -> u = "root").
Proof.
  intros Hs H0 H He Hin.
  unfold xmp_open, bind in H.
  destruct (xmp_open_checks w path st) as [l st1|] eqn:Hc; [|discriminate].
  pose proof (xmp_open_checks_run w path st l st1 Hc) as (Hrun & Hrn & Hrd & _).
  apply xmp_open_decide_inv in H
    as [(_ & _ & Hr)|(Ha & Hu & cs & s2 & Hd & Hp & Hg & _ & _)].
  { exfalso.
    assert (Hall : run_of w not_host_open st st').
    { eapply run_of_trans; [|exact Hr].
      eapply run_of_weaken; [|exact Hrun].
      intros c Hc'. apply quiet_not_host_open, is_check_quiet, Hc'. }
    pose proof (run_of_emitted w _ _ _ _ Hall He) as Hf.
    rewrite forallb_forall in Hf. specialize (Hf _ Hin). discriminate. }
  apply xmp_open_checks_inv in Hc
    as (u & p & sa & sb & sc & Eu & Ep & Emu & Hv & Hacc & Hpr & _ & _ & Hst & _).
  assert (Hsa : (0 <= errno sa)%Z) by (eapply run_of_errno; eauto).
  pose proof (verifica_credenciais_spec w _ _ _ _ _ _ _ Hv)
    as (u' & p' & [= <-] & [= <-] & Hrv & _ & Hmv).
  assert (Hsb : (0 <= errno sb)%Z) by (eapply run_of_errno; eauto).
  assert (Hsc : (0 <= errno sc)%Z) by (eapply run_of_errno; eauto).
  pose proof (verifica_acesso_spec w _ _ _ _ _ Hacc) as (Hra & _ & _ & Hma).
  assert (Hs1 : (0 <= errno st1)%Z) by (eapply run_of_errno; eauto).
  unfold credenciais0, acesso0 in *.
  destruct (store_lines w cred_path) as [creds|]; [|lia].
  destruct (first_hit u creds) as [copied_c|] eqn:Ehc; [|lia].
  destruct Hmv as (_ & Ecred & Hrc).
  destruct (String.eqb_spec (nth 1 (credenciais l) "") p) as [Epw|_]; [|lia].
  destruct (store_lines w perm_path) as [perms|]; [|lia].
  destruct (first_hit path perms) as [copied_p|] eqn:Ehp; [|lia].
  destruct Hma as (_ & Hrp).
  destruct (acesso_tem _ _) eqn:Et; [|lia].
  apply acesso_tem_in in Et.
  exists u, p, creds, perms, copied_c, copied_p, cs.
  rewrite Ecred in *. rewrite Hrn in Hd. rewrite Hrd in Hp.
  split; [exact Eu|]. split; [exact Ep|]. split; [reflexivity|].
  split; [now apply first_hit_some|]. split; [exact Epw|].
  split; [reflexivity|]. split; [now apply first_hit_some|].
  split; [exact Et|]. split; [exact Hd|]. split; [exact Hp|].
  intros E. specialize (Hg E). congruence.
Qed.



(** Claim C7, at the failing input: a wrong password, with [errno] at zero.
    Authentication fails and the open returns 0. *)
Theorem xmp_open_wrong_password_returns_zero :
  exists l st1 st',
    xmp_open_checks Samples.alice_wrong_password "/m/x" Samples.start = Done l st1 /\
    autenticado l <> 1%Z /\
    xmp_open Samples.alice_wrong_password "/m/x" Samples.fi0 Samples.start
    = Done (0%Z, Samples.fi0) st'.
Proof.
  eexists. eexists. eexists. split; [vm_compute; reflexivity|].
  split; [cbn; discriminate|vm_compute; reflexivity].
Qed.



Section Passthrough.
Variable w : World.





End Passthrough.

Section Convention.
Variable w : World.



Lemma readdir_loop_run (des : list Dirent) : forall st,
  exists st' evs,
    readdir_loop w des st = Done tt st' /\
    emitted st st' evs /\ forallb is_dir_step evs = true /\
    same_counters st st'.
Proof.
  induction des as [|de des IH]; intros st.
  - simpl. mrun. eexists. exists [Readdir].
    split; [reflexivity|]. split; [reflexivity|]. split; [reflexivity|now split].
  - simpl. mrun.
    match goal with
    | |- context [if ?b then _ else _] => destruct b
    end.
    + eexists. eexists [Readdir; Filler _ _ _ _ _].
      split; [reflexivity|]. split; [|split; [reflexivity|now split]].
      unfold emitted. cbn [trace]. now rewrite <- app_assoc.
    + match goal with
      | |- context [readdir_loop w des ?s] => destruct (IH s) as (st' & evs & E & He & Hf & Hc)
      end.
      exists st'. eexists ([Readdir; Filler _ _ _ _ _] ++ evs).
      split; [exact E|]. split; [|split].
      * unfold emitted in *. cbn [trace] in He. rewrite He, <- !app_assoc. reflexivity.
      * cbn. exact Hf.
      * exact Hc.
Qed.

Lemma xmp_readdir_run path offset fi rflags st :
  exists st' evs,
    xmp_readdir w path offset fi rflags st
    = Done (match w_dir w (List.length (trace st)) path with
            | None => (- errno st')%Z
            | Some _ => 0%Z
            end) st' /\
    emitted st st' (Opendir path ::
                    match w_dir w (List.length (trace st)) path with
                    | None => []
                    | Some _ => evs ++ [Closedir]
                    end) /\
    forallb is_dir_step evs = true /\ same_counters st st'.
Proof.
  unfold xmp_readdir, opendir. mrun.
  destruct (w_dir w (List.length (trace st)) path) as [des|].
  - match goal with
    | |- context [readdir_loop w des ?s] =>
        destruct (readdir_loop_run des s) as (s1 & evs & E & He & Hf & Hc)
    end.
    rewrite E. eexists. exists evs. split; [reflexivity|].
    split; [|split; [exact Hf|]].
    + unfold emitted in *. cbn [trace] in *. rewrite He, <- !app_assoc. reflexivity.
    + destruct Hc as [H1 H2]. cbn [rands reads] in *. now split.
  - mrun.
    match goal with |- exists st' evs, Done _ ?s = _ /\ _ => exists s, [] end.
    split; [reflexivity|].
    split; [reflexivity|]. split; [reflexivity|now split].
Qed.

End Convention.


Lemma string_alloc_7_run (w : World) (st : State) (f : nat -> ascii) (cs : list ascii) :
  w_malloc w (List.length (trace st)) 8 = Some f ->
  drawn w (rands st) 6 = Some cs ->
  exists st',
    string_alloc w 7 st = Done (Some (cs ++ [NUL; f 7])) st'.
Proof.
  intros Hm Hd. unfold string_alloc, malloc. mrun.
  change (7 + 1) with 8. rewrite Hm. cbn [option_map].
  unfold gera_password. mrun.
  match goal with
  | |- context [gera_password_loop w 6 0 ?b ?s] =>
      destruct (gera_password_loop_run w 6 0 b s cs) as [s1 E];
      [exact Hd|simpl; lia|]
  end.
  rewrite E.
  pose proof (drawn_length w _ _ _ Hd) as Hl.
  destruct cs as [|c0 [|c1 [|c2 [|c3 [|c4 [|c5 [|c6 cs]]]]]]]; try discriminate Hl.
  cbn. eexists. reflexivity.
Qed.

Lemma string_of_list_ascii_length (cs : list ascii) :
  String.length (string_of_list_ascii cs) = List.length cs.
Proof. induction cs; simpl; congruence. Qed.

(** Claim C6, amended.  When [malloc] succeeds and [rand()] yields
    non-negative values, [string_alloc(7)] returns a buffer of 8 bytes
    holding a string of exactly 6 characters, with the NUL at index 6, each
    character one of the alphabet's letters and digits. *)
Theorem string_alloc_7_token (w : World) (st : State) (f : nat -> ascii) :
  w_malloc w (List.length (trace st)) 8 = Some f ->
  (forall i, i < 6 -> (0 <= w_rand w (rands st + i))%Z) ->
  exists buf tok st',
    string_alloc w 7 st = Done (Some buf) st' /\
    List.length buf = 8 /\
    cstring_of buf = Some tok /\
    String.length tok = 6 /\
    nth_error buf 6 = Some NUL /\
    forall c, In c (list_ascii_of_string tok) ->
              In c (list_ascii_of_string charset) /\ is_alnum c = true.
Proof.
  intros Hm Hr.
  destruct (drawn_nonneg w (rands st) 6 Hr) as [cs Hd].
  destruct (string_alloc_7_run w st f cs Hm Hd) as [st' E].
  pose proof (drawn_length w _ _ _ Hd) as Hl.
  pose proof (drawn_chars w _ _ _ Hd) as Hc.
  exists (cs ++ [NUL; f 7]), (string_of_list_ascii cs), st'.
  split; [exact E|].
  split; [rewrite length_app, Hl; reflexivity|].
  split.
  { change (cs ++ [NUL; f 7]) with (cs ++ NUL :: [f 7]).
    apply cstring_of_app. eapply Forall_impl; [|exact Hc]. cbv beta. tauto. }
  split; [now rewrite string_of_list_ascii_length|].
  split.
  { rewrite nth_error_app2 by lia. rewrite Hl. reflexivity. }
  intros c Hin. rewrite list_ascii_of_string_of_list_ascii in Hin.
  rewrite Forall_forall in Hc. specialize (Hc c Hin). tauto.
Qed.

Lemma string_alloc_7_token_witness :
  exists buf tok st',
    string_alloc Samples.alice_ok 7 Samples.start = Done (Some buf) st' /\
    List.length buf = 8 /\
    cstring_of buf = Some tok /\
    String.length tok = 6 /\
    nth_error buf 6 = Some NUL /\
    forall c, In c (list_ascii_of_string tok) ->
              In c (list_ascii_of_string charset) /\ is_alnum c = true.
Proof.
  apply (string_alloc_7_token Samples.alice_ok Samples.start (fun _ => NUL)).
  - reflexivity.
  - intros i Hi. cbn. destruct i; cbn; lia.
Defined.

(** Claim C6 as stated fails: the passcode is not 7 characters long. *)
Lemma string_alloc_7_not_seven_characters :
  ~ (forall buf st',
        string_alloc Samples.alice_ok 7 Samples.start = Done (Some buf) st' ->
        exists tok, cstring_of buf = Some tok /\ String.length tok = 7).
Proof.
  intros H.
  destruct (string_alloc Samples.alice_ok 7 Samples.start) as [[buf|] st'|] eqn:E0;
    vm_compute in E0; try discriminate E0.
  injection E0 as <- <-.
  destruct (H _ _ eq_refl) as (tok & E & Hl).
  vm_compute in E. injection E as <-. discriminate Hl.
Qed.




Lemma sample_errno_sane cred perm inputs draws fd :
  errno_sane (Samples.world cred perm inputs draws fd).
Proof. intros k c e He. exact He. Qed.

(** The theorem of C1 at scenario 1 of the specification. *)
Lemma xmp_open_accepts_only_if_witness :
  exists u p creds perms copied_c copied_p cs,
    entered_user Samples.alice_ok Samples.start = Some u /\
    entered_pass Samples.alice_ok Samples.start = Some p /\
    store_lines Samples.alice_ok cred_path = Some creds /\
    first_match u creds copied_c /\
    nth 1 (put_rows copied_c (credenciais0 Samples.alice_ok)) EmptyString = p /\
    store_lines Samples.alice_ok perm_path = Some perms /\
    first_match "/m/x" perms copied_p /\
    In (nth 3 (put_rows copied_c (credenciais0 Samples.alice_ok)) EmptyString)
       (put_rows copied_p (acesso0 Samples.alice_ok)) /\
    drawn Samples.alice_ok (rands Samples.start) 6 = Some cs /\
    entered_senha Samples.alice_ok Samples.start = Some (string_of_list_ascii cs) /\
    ("/m/x" = cred_path -> u = "root").
Proof.
  destruct (xmp_open Samples.alice_ok "/m/x" Samples.fi0 Samples.start)
    as [[r fi'] st'|] eqn:E; [|vm_compute in E; discriminate E].
  apply (xmp_open_accepts_only_if Samples.alice_ok "/m/x" Samples.fi0 Samples.start
           r fi' st' (trace st')).
  - apply sample_errno_sane.
  - simpl; lia.
  - exact E.
  - reflexivity.
  - vm_compute in E. injection E as _ _ <-. cbn [trace flags Samples.fi0]. find_in.
Defined.

(** Claim C1 as stated fails: the open succeeds on [/m/x] for a user whose
    id the permission store lists for [/a] only. *)
Lemma xmp_open_accepts_unlisted_user :
  ~ (forall r fi' st',
        xmp_open Samples.path_among_ids "/m/x" Samples.fi0 Samples.start
        = Done (r, fi') st' ->
        r = 0%Z ->
        spec_open_conditions Samples.path_among_ids "/m/x" Samples.start).
Proof.
  intros H.
  destruct (xmp_open Samples.path_among_ids "/m/x" Samples.fi0 Samples.start)
    as [[r fi'] st'|] eqn:E; vm_compute in E; [|discriminate E].
  injection E as <- <- <-.
  destruct (H _ _ _ eq_refl eq_refl)
    as (u & p & record & _ & _ & _ & (content & uid & Hc & _ & Hl) & _).
  vm_compute in Hc. injection Hc as <-.
  destruct Hl as (uids & Hin & _). vm_compute in Hin.
  destruct Hin as [Hin|[Hin|[]]]; discriminate Hin.
Qed.

Lemma xmp_open_accepts_unlisted_user_handle :
  exists st',
    xmp_open Samples.path_among_ids "/m/x" Samples.fi0 Samples.start
    = Done (0%Z, set_fh Samples.fi0 5) st' /\
    In (Open2 "/m/x" 0) (trace st').
Proof.
  destruct (xmp_open Samples.path_among_ids "/m/x" Samples.fi0 Samples.start)
    as [[r fi'] st'|] eqn:E; vm_compute in E; [|discriminate E].
  injection E as <- <- <-. eexists. split; [reflexivity|]. cbn [trace]. find_in.
Qed.



(** The theorem of C3 at scenario 2 of the specification. *)
Lemma xmp_open_authentication_failure_witness :
  exists st' evs,
    xmp_open Samples.alice_wrong_password "/m/x" Samples.fi0 Samples.start
    = Done ((- errno st')%Z, Samples.fi0) st' /\
    emitted Samples.start st' evs /\ In (Fopen perm_path) evs /\
    forallb is_refusal evs = true /\ forallb quiet evs = true.
Proof.
  destruct (xmp_open_checks Samples.alice_wrong_password "/m/x" Samples.start)
    as [l st1|] eqn:E; [|vm_compute in E; discriminate E].
  apply (xmp_open_authentication_failure
           Samples.alice_wrong_password "/m/x" Samples.fi0 Samples.start l st1 E).
  vm_compute in E. injection E as <- _. cbn [autenticado]. lia.
Defined.

(** Claim C3 as stated fails: after a wrong password the permission store
    is opened. *)
Lemma xmp_open_asks_permissions_after_failed_login :
  ~ (forall l st1 r fi' st',
        xmp_open_checks Samples.alice_wrong_password "/m/x" Samples.start
        = Done l st1 ->
        autenticado l <> 1%Z ->
        xmp_open Samples.alice_wrong_password "/m/x" Samples.fi0 Samples.start
        = Done (r, fi') st' ->
        ~ In (Fopen perm_path) (trace st') /\ (r < 0)%Z).
Proof.
  intros H.
  destruct (xmp_open_checks Samples.alice_wrong_password "/m/x" Samples.start)
    as [l st1|] eqn:E1; vm_compute in E1; [|discriminate E1].
  injection E1 as <- <-.
  destruct (xmp_open Samples.alice_wrong_password "/m/x" Samples.fi0 Samples.start)
    as [[r fi'] st'|] eqn:E2; vm_compute in E2; [|discriminate E2].
  injection E2 as <- <- <-.
  destruct (H _ _ _ _ _ eq_refl ltac:(cbn; lia) eq_refl) as [Hn _].
  apply Hn. cbn [trace]. find_in.
Qed.

(** The theorem of C4 at scenario 1 of the specification. *)
Lemma verifica_credenciais_lookup_witness :
  exists r rows' st',
    verifica_credenciais Samples.alice_ok (credenciais0 Samples.alice_ok)
                         (Some "alice") (Some "pw") Samples.start
    = Done (r, rows') st' /\
    match store_lines Samples.alice_ok cred_path with
    | None => r = (- errno st')%Z /\ rows' = credenciais0 Samples.alice_ok
    | Some lines =>
        (no_match "alice" lines /\ r = 0%Z /\ rows' = credenciais0 Samples.alice_ok) \/
        (exists copied,
            first_match "alice" lines copied /\
            copy_ok (List.length (credenciais0 Samples.alice_ok)) copied /\
            rows' = put_rows copied (credenciais0 Samples.alice_ok) /\
            (List.length copied = List.length (credenciais0 Samples.alice_ok) ->
             rows' = copied) /\
            ((nth 1 rows' EmptyString = "pw" /\ r = 1%Z) \/
             (nth 1 rows' EmptyString <> "pw" /\ r = (- errno st')%Z)))
    end.
Proof.
  destruct (verifica_credenciais Samples.alice_ok (credenciais0 Samples.alice_ok)
                                 (Some "alice") (Some "pw") Samples.start)
    as [[r rows'] st'|] eqn:E; [|vm_compute in E; discriminate E].
  exists r, rows', st'. split; [reflexivity|].
  exact (verifica_credenciais_lookup Samples.alice_ok _ _ _ _ _ _ _ E).
Defined.

(** Claim C4 as stated fails: the lookup succeeds for [alice], who is field
    0 of no record. *)
Lemma verifica_credenciais_matches_any_field :
  ~ (forall r rows' st',
        verifica_credenciais Samples.password_is_a_name
                             (credenciais0 Samples.password_is_a_name)
                             (Some "alice") (Some "x") Samples.start
        = Done (r, rows') st' ->
        r = 1%Z ->
        exists content record,
          w_file Samples.password_is_a_name cred_path = Some content /\
          spec_lookup content "alice" record).
Proof.
  intros H.
  destruct (verifica_credenciais Samples.password_is_a_name
              (credenciais0 Samples.password_is_a_name)
              (Some "alice") (Some "x") Samples.start)
    as [[r rows'] st'|] eqn:E; vm_compute in E; [|discriminate E].
  injection E as <- <- <-.
  destruct (H _ _ _ eq_refl eq_refl) as (content & record & Hc & Hin & Hhd).
  vm_compute in Hc. injection Hc as <-. vm_compute in Hin.
  destruct Hin as [<-|[<-|[]]]; discriminate Hhd.
Qed.

(** The theorem of C5 at scenario 1 of the specification. *)
Lemma verifica_acesso_outcome_witness :
  exists r st',
    verifica_acesso Samples.alice_ok ("7" ++ nl) "/m/x" Samples.start = Done r st' /\
    (0 <= errno st')%Z /\
    (r = 1%Z <->
     exists lines copied,
       store_lines Samples.alice_ok perm_path = Some lines /\
       first_match "/m/x" lines copied /\
       In ("7" ++ nl)%string (put_rows copied (acesso0 Samples.alice_ok))).
Proof.
  destruct (verifica_acesso Samples.alice_ok ("7" ++ nl) "/m/x" Samples.start)
    as [r st'|] eqn:E; [|vm_compute in E; discriminate E].
  exists r, st'. split; [reflexivity|].
  assert (He : (0 <= errno st')%Z).
  { vm_compute in E. injection E as _ <-. cbn [errno]. lia. }
  split; [exact He|].
  exact (proj2 (verifica_acesso_outcome Samples.alice_ok _ _ _ _ _ E He)).
Defined.

(** Claim C5 as stated fails: access is granted on [/m/x], which is field 0
    of no record. *)
Lemma verifica_acesso_grants_path_among_ids :
  ~ (forall r st',
        verifica_acesso Samples.path_among_ids ("7" ++ nl) "/m/x" Samples.start
        = Done r st' ->
        (r = 1%Z <->
         exists content,
           w_file Samples.path_among_ids perm_path = Some content /\
           spec_scan content "/m/x" ("7" ++ nl))).
Proof.
  intros H.
  destruct (verifica_acesso Samples.path_among_ids ("7" ++ nl) "/m/x" Samples.start)
    as [r st'|] eqn:E; vm_compute in E; [|discriminate E].
  injection E as <- <-.
  destruct (H _ _ eq_refl) as [Hr _].
  destruct (Hr eq_refl) as (content & Hc & record & Hin & Hhd & _).
  vm_compute in Hc. injection Hc as <-. vm_compute in Hin.
  destruct Hin as [<-|[<-|[]]]; discriminate Hhd.
Qed.

(** ** Sanity of the vocabulary *)

(** In scenario 1 the passcode is drawn and delivered, and the classes
    [is_generator] and [is_delivery] see it; the open succeeds. *)
Example alice_ok_issues_passcode :
  exists st',
    xmp_open Samples.alice_ok "/m/x" Samples.fi0 Samples.start
    = Done (0%Z, set_fh Samples.fi0 5) st' /\
    existsb is_generator (trace st') = true /\
    existsb is_delivery (trace st') = true /\
    In (System (sms_command ++ "addr aaaaaa")) (trace st').
Proof.
  destruct (xmp_open Samples.alice_ok "/m/x" Samples.fi0 Samples.start)
    as [[r fi'] st'|] eqn:E; vm_compute in E; [|discriminate E].
  injection E as <- <- <-. eexists. split; [reflexivity|].
  split; [reflexivity|]. split; [reflexivity|]. cbn [trace]. find_in.
Qed.

(** A count that fits an [int] is returned unchanged by [xmp_read] and
    [xmp_write]. *)
Lemma to_int_small (z : Z) :
  (- 2 ^ 31 <= z < 2 ^ 31)%Z -> to_int z = z.
Proof.
  intros H. unfold to_int. rewrite Z.mod_small by lia. lia.
Qed.

(** A descriptor the host returned is bound unchanged as the handle. *)
Lemma to_uint64_small (z : Z) :
  (0 <= z < 2 ^ 64)%Z -> to_uint64 z = z.
Proof.
  intros H. unfold to_uint64. now apply Z.mod_small.
Qed.

(** [strtok] in its own words: the first token starts after the leading
    delimiters and stops before the next one. *)
Example strtok_examples :
  strtok LF ("alice" ++ nl ++ "rest") = Some "alice" /\
  strtok LF (nl ++ nl ++ "x") = Some "x" /\
  strtok LF nl = None /\
  strtok_all COMMA ("a,,b," ++ nl) = ["a"; "b"; nl] /\
  file_lines 128 ("a,b" ++ nl ++ "c") = [("a,b" ++ nl)%string; "c"].
Proof. repeat split. Qed.

(** The comparison of the lookup is exact: another case or a blank is
    another name, and the lookup returns 0. *)
Example lookup_is_exact :
  (exists st', verifica_credenciais Samples.alice_ok (credenciais0 Samples.alice_ok)
                 (Some "Alice") (Some "pw") Samples.start
               = Done (0%Z, credenciais0 Samples.alice_ok) st') /\
  (exists st', verifica_credenciais Samples.alice_ok (credenciais0 Samples.alice_ok)
                 (Some "alice ") (Some "pw") Samples.start
               = Done (0%Z, credenciais0 Samples.alice_ok) st').
Proof.
  split.
  - destruct (verifica_credenciais Samples.alice_ok (credenciais0 Samples.alice_ok)
                (Some "Alice") (Some "pw") Samples.start)
      as [[r rows'] st'|] eqn:E; vm_compute in E; [|discriminate E].
    injection E as <- <- <-. eexists. reflexivity.
  - destruct (verifica_credenciais Samples.alice_ok (credenciais0 Samples.alice_ok)
                (Some "alice ") (Some "pw") Samples.start)
      as [[r rows'] st'|] eqn:E; vm_compute in E; [|discriminate E].
    injection E as <- <- <-. eexists. reflexivity.
Qed.

(** A refusal and a store that cannot be opened may return the same value:
    the negated [errno], here -2 both times. *)
Example refusal_and_io_error_coincide :
  let st := {| errno := 2; trace := []; rands := 0; reads := 0 |} in
  (exists st', verifica_acesso Samples.alice_ok "9" "/m/x" st = Done (-2)%Z st') /\
  (exists st', verifica_acesso Samples.close_fails "9" "/m/x" st = Done (-2)%Z st').
Proof.
  split.
  - destruct (verifica_acesso Samples.alice_ok "9" "/m/x"
                {| errno := 2; trace := []; rands := 0; reads := 0 |})
      as [r st'|] eqn:E; vm_compute in E; [|discriminate E].
    injection E as <- <-. eexists. reflexivity.
  - destruct (verifica_acesso Samples.close_fails "9" "/m/x"
                {| errno := 2; trace := []; rands := 0; reads := 0 |})
      as [r st'|] eqn:E; vm_compute in E; [|discriminate E].
    injection E as <- <-. eexists. reflexivity.
Qed.

(** * Further properties *)

Local Open Scope string_scope.
Local Open Scope list_scope.

(** ** The operation table *)

(** A passthrough run on a state given by its fields: every test is
    decided, then the final state and the calls are read off. *)
Ltac passthrough_run :=
  cbv [xmp_init xmp_getattr xmp_access xmp_readlink xmp_mknod xmp_mkdir
       xmp_symlink xmp_unlink xmp_rmdir xmp_rename xmp_link xmp_chmod
       xmp_chown xmp_truncate xmp_utimens xmp_create xmp_read xmp_write
       xmp_statfs xmp_release xmp_fsync xmp_fallocate xmp_setxattr
       xmp_getxattr xmp_listxattr xmp_removexattr
       bind ret get_errno tick errno trace rands reads
       emitted same_counters fst snd];
  repeat match goal with
         | |- context [if ?b then _ else _] => destruct b
         | |- context [match ?o with Some _ => _ | None => _ end] => destruct o
         end;
  cbv [bind ret get_errno tick errno trace rands reads fst snd];
  eexists; eexists; eexists;
  (split; [reflexivity|]);
  (split; [rewrite <- ?app_assoc; try reflexivity;
           rewrite <- (app_nil_r (A := Call)) at 1; reflexivity|]);
  (split; [reflexivity|]);
  (split; [split; reflexivity|]);
  intros _; cbn [List.length app]; lia.

Lemma is_dir_step_plain evs :
  forallb is_dir_step evs = true -> forallb is_plain evs = true.
Proof.
  apply forallb_weaken. intros c H. destruct c; try discriminate H; reflexivity.
Qed.

(** X1.  Every entry of the table other than [open], whatever entries the
    build has given it, returns, and the calls it makes are calls into the
    host's file system and, for [readdir], calls of the library's filler: no
    prompt, no store, no draw and no delivery stands before [create], [read],
    [write], [truncate], [unlink] and the others.  But for [readdir], which
    makes two calls for each entry, the calls are at most three. *)
Theorem only_open_is_mediated
        (b : Build) (w : World) (r : Oper.Request) (m : M Oper.Reply) (st : State) :
  Oper.is_open r = false ->
  Oper.xmp_oper b w r = Some m ->
  exists res st' evs,
    m st = Done res st' /\
    emitted st st' evs /\
    forallb is_plain evs = true /\
    same_counters st st' /\
    (Oper.is_readdir r = false -> List.length evs <= 3).
Proof.
  intros Hr Hm. destruct st as [e0 t0 n0 m0].
  destruct r; try discriminate Hr; cbn [Oper.xmp_oper] in Hm;
    try (match type of Hm with
         | (if ?c then _ else _) = _ => destruct c; [|discriminate Hm]
         end);
    injection Hm as <-.
  5:{ destruct (xmp_readdir_run w path offset fi rflags (Build_State e0 t0 n0 m0))
        as (st' & evs & E & He & Hf & Hc).
      unfold bind. rewrite E. cbn [ret].
      eexists. exists st'. eexists. split; [reflexivity|].
      split; [exact He|]. split; [|split; [exact Hc|discriminate]].
      cbn [forallb]. apply is_dir_step_plain in Hf.
      destruct (w_dir w _ path); [|reflexivity].
      rewrite forallb_app, Hf. reflexivity. }
  all: passthrough_run.
Qed.

(** [readdir] on a directory of two entries. *)
Lemma only_open_is_mediated_witness :
  exists res st' evs,
    (res <- xmp_readdir Cases.two_entries "/m" 0 None 0 ;; ret (Oper.Int res None))
      Samples.start = Done res st' /\
    emitted Samples.start st' evs /\
    forallb is_plain evs = true /\
    same_counters Samples.start st' /\
    (Oper.is_readdir (Oper.readdir "/m" 0 None 0) = false -> List.length evs <= 3).
Proof.
  apply (only_open_is_mediated Cases.full Cases.two_entries
           (Oper.readdir "/m" 0 None 0)); reflexivity.
Defined.

(** ** A handle from [create] to [release] *)

Lemma to_int_to_uint64 (fd : Z) :
  (0 <= fd < 2 ^ 31)%Z -> to_int (to_uint64 fd) = fd.
Proof.
  intros H. rewrite to_uint64_small by lia. apply to_int_small. lia.
Qed.

Lemma xmp_read_bound (w : World) (path : string) (size offset : Z) (fi : Fi) (st : State) :
  to_int (fh fi) <> (-1)%Z ->
  exists r st',
    xmp_read w path size offset (Some fi) st = Done r st' /\
    emitted st st' [Pread (to_int (fh fi)) size offset].
Proof.
  intros Hne. apply Z.eqb_neq in Hne. destruct st as [e0 t0 n0 m0].
  cbv [xmp_read bind ret get_errno tick errno trace rands reads emitted].
  rewrite Hne. destruct (to_int (w_ret w _ _) =? -1)%Z; do 2 eexists; split; reflexivity.
Qed.

Lemma xmp_write_bound (w : World) (path : string) (size offset : Z) (fi : Fi) (st : State) :
  to_int (fh fi) <> (-1)%Z ->
  exists r st',
    xmp_write w path size offset (Some fi) st = Done r st' /\
    emitted st st' [Pwrite (to_int (fh fi)) size offset].
Proof.
  intros Hne. apply Z.eqb_neq in Hne. destruct st as [e0 t0 n0 m0].
  cbv [xmp_write bind ret get_errno tick errno trace rands reads emitted].
  rewrite Hne. destruct (to_int (w_ret w _ _) =? -1)%Z; do 2 eexists; split; reflexivity.
Qed.

Lemma xmp_release_closes (w : World) (path : string) (fi : Fi) (st : State) :
  exists st',
    xmp_release w path fi st = Done 0%Z st' /\
    emitted st st' [Close (to_int (fh fi))].
Proof.
  destruct st as [e0 t0 n0 m0].
  cbv [xmp_release bind ret tick errno trace rands reads emitted].
  eexists; split; reflexivity.
Qed.

(** X2.  The handle [create] binds is the descriptor [read], [write] and
    [release] then use: the four operations make the host's [open], [pread],
    [pwrite] and [close] on it and nothing else. *)
Theorem create_read_write_release
        (w : World) (path : string) (mode : Z) (fi : Fi) (st : State)
        (size offset size' offset' : Z) :
  let fd := w_ret w (List.length (trace st)) (Open3 path (flags fi) mode) in
  (0 <= fd < 2 ^ 31)%Z ->
  exists fi' s1 r s2 r' s3 s4,
    xmp_create w path mode fi st = Done (0%Z, fi') s1 /\
    xmp_read w path size offset (Some fi') s1 = Done r s2 /\
    xmp_write w path size' offset' (Some fi') s2 = Done r' s3 /\
    xmp_release w path fi' s3 = Done 0%Z s4 /\
    emitted st s4 [Open3 path (flags fi) mode; Pread fd size offset;
                   Pwrite fd size' offset'; Close fd].
Proof.
  intros fd Hfd.
  assert (Hne : (fd =? -1)%Z = false) by (apply Z.eqb_neq; lia).
  pose proof (to_int_to_uint64 fd Hfd) as Hrt.
  set (fi' := set_fh fi (to_uint64 fd)).
  assert (Hfh : to_int (fh fi') = fd) by exact Hrt.
  assert (Hc : exists s1, xmp_create w path mode fi st = Done (0%Z, fi') s1 /\
                          emitted st s1 [Open3 path (flags fi) mode]).
  { destruct st as [e0 t0 n0 m0].
    cbv [xmp_create bind ret get_errno tick errno trace rands reads emitted].
    cbn [trace] in fd. fold fd. rewrite Hne. eexists; split; reflexivity. }
  destruct Hc as (s1 & Ec & He1).
  destruct (xmp_read_bound w path size offset fi' s1) as (r & s2 & Er & He2);
    [rewrite Hfh; lia|].
  destruct (xmp_write_bound w path size' offset' fi' s2) as (r' & s3 & Ew & He3);
    [rewrite Hfh; lia|].
  destruct (xmp_release_closes w path fi' s3) as (s4 & El & He4).
  rewrite Hfh in *.
  exists fi', s1, r, s2, r', s3, s4.
  repeat (split; [assumption|]).
  unfold emitted in *. rewrite He4, He3, He2, He1, <- !app_assoc. reflexivity.
Qed.

(** The host hands out the descriptor 5. *)
Lemma create_read_write_release_witness :
  exists fi' s1 r s2 r' s3 s4,
    xmp_create Samples.alice_ok "/m/new" 420 Samples.fi0 Samples.start
    = Done (0%Z, fi') s1 /\
    xmp_read Samples.alice_ok "/m/new" 10 0 (Some fi') s1 = Done r s2 /\
    xmp_write Samples.alice_ok "/m/new" 10 0 (Some fi') s2 = Done r' s3 /\
    xmp_release Samples.alice_ok "/m/new" fi' s3 = Done 0%Z s4 /\
    emitted Samples.start s4
            [Open3 "/m/new" (flags Samples.fi0) 420; Pread 5 10 0;
             Pwrite 5 10 0; Close 5].
Proof.
  apply (create_read_write_release Samples.alice_ok "/m/new" 420 Samples.fi0
           Samples.start 10 0 10 0).
  simpl. lia.
Defined.

(** ** The generator at any size *)

Section Generator.
Variable w : World.

Lemma emitted_refl st : emitted st st [].
Proof. unfold emitted. now rewrite app_nil_r. Qed.

Lemma gera_password_loop_draws count : forall n str st str' st',
  gera_password_loop w count n str st = Done str' st' ->
  emitted st st' (repeat Rand count) /\ reads st' = reads st.
Proof.
  induction count as [|count IH]; intros n str st str' st' H.
  - simpl in H. mrun_in H. injection H as _ <-. split; [apply emitted_refl|reflexivity].
  - simpl in H. unfold rand in H. mrun_in H.
    destruct (charset_at _) as [c|]; [|discriminate].
    destruct (store str n c) as [str1|]; [|discriminate].
    apply IH in H as [He Hr]. cbn [reads] in Hr. split; [|exact Hr].
    unfold emitted in *. cbn [trace] in He. rewrite He, <- app_assoc. reflexivity.
Qed.

Lemma store_after (cs rest : list ascii) (c : ascii) :
  rest <> [] -> store (cs ++ rest) (List.length cs) c = Some (cs ++ c :: tl rest).
Proof.
  intros Hr. induction cs as [|a cs IH]; simpl.
  - destruct rest; [contradiction|reflexivity].
  - rewrite IH. reflexivity.
Qed.

Lemma tl_skipn {A} (n : nat) (l : list A) : tl (skipn n l) = skipn (S n) l.
Proof.
  revert l. induction n as [|n IH]; intros l; destruct l; simpl; auto.
Qed.

Lemma gera_password_run (str : list ascii) (n : nat) (st : State) (cs : list ascii) :
  S n <= List.length str ->
  drawn w (rands st) n = Some cs ->
  exists st',
    gera_password w str (S n) st = Done (cs ++ NUL :: skipn (S n) str) st' /\
    emitted st st' (repeat Rand n) /\ rands st' = rands st + n.
Proof.
  intros Hs Hd.
  pose proof (drawn_length w _ _ _ Hd) as Hl.
  destruct (gera_password_loop_run w n 0 str st cs Hd) as [s1 E]; [simpl; lia|].
  pose proof (gera_password_loop_draws _ _ _ _ _ _ E) as [He _].
  pose proof (gera_password_loop_spec w _ _ _ _ _ _ E ltac:(lia))
    as (cs' & _ & _ & _ & _ & Hrn & _).
  exists s1. unfold gera_password. mrun. rewrite E.
  cbn [firstn app Nat.add]. rewrite Hl.
  assert (Hst : store (cs ++ skipn n str) n NUL
                = Some (cs ++ NUL :: skipn (S n) str)).
  { rewrite <- Hl at 2. rewrite store_after, tl_skipn; [reflexivity|].
    intros E0. apply (f_equal (@List.length ascii)) in E0.
    rewrite length_skipn in E0. simpl in E0. lia. }
  rewrite Hst. split; [reflexivity|]. split; [exact He|exact Hrn].
Qed.

(** X3.  [gera_password(str, size)] on a buffer that has room for [size] bytes:
    [size - 1] draws, as many characters, the NUL after them, and nothing
    written from index [size] on; with [size] zero, nothing at all.  The
    index is taken modulo [sizeof (charset - 1)], the size of a pointer, so
    the characters come from the first eight of [charset] only. *)
Theorem gera_password_fills (str : list ascii) (size : nat) (st : State) :
  size <= List.length str ->
  (forall i, i < size - 1 -> (0 <= w_rand w (rands st + i))%Z) ->
  exists cs st',
    gera_password w str size st
    = Done (match size with
            | O => str
            | S _ => cs ++ NUL :: skipn size str
            end) st' /\
    List.length cs = size - 1 /\
    Forall (fun c => In c (list_ascii_of_string "abcdcv98")) cs /\
    emitted st st' (repeat Rand (size - 1)) /\
    rands st' = rands st + (size - 1).
Proof.
  intros Hs Hr. destruct size as [|n].
  - exists [], st. simpl. mrun. split; [reflexivity|]. split; [reflexivity|].
    split; [constructor|]. split; [apply emitted_refl|lia].
  - replace (S n - 1) with n in * by lia.
    destruct (drawn_nonneg w (rands st) n Hr) as [cs Hd].
    destruct (gera_password_run str n st cs Hs Hd) as (st' & E & He & Hrn).
    exists cs, st'. split; [exact E|].
    split; [exact (drawn_length w _ _ _ Hd)|].
    split; [|split; assumption].
    eapply Forall_impl; [|exact (drawn_chars w _ _ _ Hd)].
    intros c (Hc & _). exact Hc.
Qed.

(** X4.  [string_alloc(size)]: the block has [size + 1] bytes, of which the last
    is never written; with [size] zero the block comes back as [malloc]
    left it, without a NUL of the program's. *)
Theorem string_alloc_block (size : nat) (st : State) (f : nat -> ascii) :
  w_malloc w (List.length (trace st)) (size + 1) = Some f ->
  (forall i, i < size - 1 -> (0 <= w_rand w (rands st + i))%Z) ->
  exists cs st',
    string_alloc w size st
    = Done (Some (match size with
                  | O => [f 0]
                  | S _ => cs ++ [NUL; f size]
                  end)) st' /\
    List.length cs = size - 1 /\
    emitted st st' (Malloc (size + 1) :: repeat Rand (size - 1)).
Proof.
  intros Hm Hr. unfold string_alloc, malloc. mrun. rewrite Hm. cbn [option_map].
  destruct size as [|n].
  - exists []. eexists. unfold gera_password. mrun.
    split; [reflexivity|]. split; reflexivity.
  - replace (S n - 1) with n in * by lia.
    destruct (drawn_nonneg w (rands st) n Hr) as [cs Hd].
    match goal with
    | |- context [gera_password w ?b (S n) ?s] =>
        destruct (gera_password_run b n s cs) as (st' & E & He & _);
        [rewrite length_map, length_seq; lia|exact Hd|]
    end.
    rewrite E. exists cs, st'. split.
    + rewrite skipn_map, skipn_seq.
      replace (S n + 1 - S n) with 1 by lia. reflexivity.
    + split; [exact (drawn_length w _ _ _ Hd)|].
      unfold emitted in *. cbn [trace] in He.
      rewrite He, <- app_assoc. reflexivity.
Qed.

End Generator.

(** Seven bytes asked for in a buffer of eight. *)
Lemma gera_password_fills_witness :
  exists cs st',
    gera_password Samples.alice_ok (repeat NUL 8) 7 Samples.start
    = Done (cs ++ NUL :: skipn 7 (repeat NUL 8)) st' /\
    List.length cs = 7 - 1 /\
    Forall (fun c => In c (list_ascii_of_string "abcdcv98")) cs /\
    emitted Samples.start st' (repeat Rand (7 - 1)) /\
    rands st' = rands Samples.start + (7 - 1).
Proof.
  apply (gera_password_fills Samples.alice_ok (repeat NUL 8) 7 Samples.start).
  - simpl. lia.
  - intros i _. simpl. destruct i; simpl; lia.
Defined.

Lemma string_alloc_block_witness :
  exists cs st',
    string_alloc Samples.alice_ok 7 Samples.start
    = Done (Some (cs ++ [NUL; NUL])) st' /\
    List.length cs = 7 - 1 /\
    emitted Samples.start st' (Malloc (7 + 1) :: repeat Rand (7 - 1)).
Proof.
  apply (string_alloc_block Samples.alice_ok 7 Samples.start (fun _ => NUL)).
  - reflexivity.
  - intros i _. simpl. destruct i; simpl; lia.
Defined.

(** ** The passcode stage *)

(** *** [strcat] on the strings the arrays hold *)

Lemma cstring_of_list (s : string) (rest : list ascii) :
  cstring_of (list_ascii_of_string s ++ NUL :: rest) = Some (cstr s).
Proof.
  induction s as [|c s IH]; simpl; [reflexivity|].
  destruct (Ascii.eqb c NUL); [reflexivity|]. rewrite IH. reflexivity.
Qed.

Lemma cstring_of_split (buf : list ascii) (s : string) :
  cstring_of buf = Some s ->
  cstr s = s /\
  exists rest, buf = list_ascii_of_string s ++ NUL :: rest.
Proof.
  revert s. induction buf as [|c buf IH]; intros s H; [discriminate|].
  simpl in H. destruct (Ascii.eqb_spec c NUL) as [->|Hne].
  - injection H as <-. split; [reflexivity|]. exists buf. reflexivity.
  - destruct (cstring_of buf) as [s'|]; [|discriminate].
    injection H as <-. destruct (IH s' eq_refl) as [Hc [rest ->]].
    split.
    + simpl. destruct (Ascii.eqb_spec c NUL); [contradiction|]. now rewrite Hc.
    + exists rest. reflexivity.
Qed.

Lemma cstr_append (a b : string) : cstr a = a -> cstr (a ++ b) = (a ++ cstr b)%string.
Proof.
  induction a as [|c a IH]; simpl; [reflexivity|].
  destruct (Ascii.eqb c NUL); [discriminate|].
  intros [= H]. now rewrite IH.
Qed.

Lemma list_ascii_of_string_app (a b : string) :
  list_ascii_of_string (a ++ b) = list_ascii_of_string a ++ list_ascii_of_string b.
Proof. induction a as [|c a IH]; simpl; [reflexivity|now rewrite IH]. Qed.

Lemma list_ascii_of_string_length (s : string) :
  List.length (list_ascii_of_string s) = String.length s.
Proof. induction s; simpl; congruence. Qed.

Lemma firstn_exact {A} (l r : list A) : firstn (List.length l) (l ++ r) = l.
Proof. induction l as [|a l IH]; simpl; [reflexivity|now rewrite IH]. Qed.

(** [strcat(buf, s)], when it is defined, leaves in [buf] the string it
    held followed by [s]. *)
Lemma strcat_cstring (buf : list ascii) (s : string) (buf' : list ascii) :
  strcat buf s = Some buf' ->
  exists old,
    cstring_of buf = Some old /\
    cstring_of buf' = Some (old ++ cstr s)%string /\
    String.length old + String.length s < List.length buf.
Proof.
  unfold strcat. destruct (cstring_of buf) as [old|] eqn:E; [|discriminate].
  destruct (Nat.ltb_spec (String.length old + String.length s) (List.length buf));
    [|discriminate].
  intros [= <-]. exists old. split; [reflexivity|]. split; [|assumption].
  destruct (cstring_of_split buf old E) as [Hc [rest ->]].
  rewrite <- (list_ascii_of_string_length old), firstn_exact.
  rewrite app_assoc, <- list_ascii_of_string_app, cstring_of_list.
  f_equal. now apply cstr_append.
Qed.

Lemma append_assoc (a b c : string) : ((a ++ b) ++ c = a ++ (b ++ c))%string.
Proof. induction a as [|x a IH]; simpl; [reflexivity|now rewrite IH]. Qed.

Lemma cstr_free (cs : list ascii) :
  Forall (fun c => Ascii.eqb c NUL = false) cs ->
  cstr (string_of_list_ascii cs) = string_of_list_ascii cs.
Proof.
  induction 1 as [|c cs Hc _ IH]; simpl; [reflexivity|]. now rewrite Hc, IH.
Qed.

Section Passcode.
Variable w : World.

Lemma string_alloc_7_trace st o st' :
  string_alloc w 7 st = Done o st' ->
  emitted st st' (Malloc 8 :: match o with Some _ => repeat Rand 6 | None => [] end).
Proof.
  unfold string_alloc, malloc. intros H. mrun_in H.
  destruct (w_malloc w (List.length (trace st)) (7 + 1)) as [f|]; cbn [option_map] in H.
  - unfold gera_password in H. mrun_in H.
    match type of H with
    | context [gera_password_loop w 6 0 ?b ?s] =>
        destruct (gera_password_loop w 6 0 b s) as [str1 s1|] eqn:E; [|discriminate]
    end.
    apply gera_password_loop_draws in E as [He _].
    destruct (store str1 6 NUL); [|discriminate]. injection H as <- <-.
    unfold emitted in *. cbn [trace] in He. rewrite He, <- app_assoc. reflexivity.
  - injection H as <- <-. reflexivity.
Qed.

Lemma string_alloc_malloc size st o st' :
  string_alloc w size st = Done o st' ->
  o = None <-> w_malloc w (List.length (trace st)) (size + 1) = None.
Proof.
  unfold string_alloc, malloc. intros H. mrun_in H.
  destruct (w_malloc w (List.length (trace st)) (size + 1)) as [f|]; cbn [option_map] in H.
  - destruct (gera_password w _ size _) as [b s1|]; [|discriminate].
    injection H as <- _. split; discriminate.
  - injection H as <- _. split; reflexivity.
Qed.

(** The passcode stage of [xmp_open], event by event. *)
Lemma xmp_open_decide_otp path fi l st1 r fi' st' :
  access l = 1%Z -> autenticado l = 1%Z ->
  xmp_open_decide w path fi l st1 = Done (r, fi') st' ->
  exists cs f g out myrec tail,
    drawn w (rands st1) 6 = Some cs /\
    w_malloc w (List.length (trace st1) + 1) 8 <> None /\
    w_malloc w (List.length (trace st1) + 8) 100 = Some f /\
    cstring_of (map f (seq 0 100)) = Some g /\
    fmt_render (nth 2 (credenciais l) "") = Some out /\
    prompt_line w "recebida" 7 (reads st1) = Some myrec /\
    emitted st1 st'
      (otp_events (g ++ sms_command ++ cstr (nth 2 (credenciais l) "") ++ " "
                     ++ string_of_list_ascii cs) out ++ tail) /\
    rands st' = rands st1 + 6 /\ reads st' = S (reads st1) /\
    ((myrec <> string_of_list_ascii cs /\
      tail = [Printf ("Senha incorreta!" ++ nl)] /\
      r = (- errno st')%Z /\ fi' = fi) \/
     (myrec = string_of_list_ascii cs /\ path = cred_path /\
      (exists u, myuser l = Some u /\ u <> "root"%string) /\
      (exists msg, tail = [Printf msg]) /\
      r = (- errno st')%Z /\ fi' = fi) \/
     (myrec = string_of_list_ascii cs /\
      (path = cred_path -> myuser l = Some "root"%string) /\
      tail = [Open2 path (flags fi)] /\
      let res := w_ret w (List.length (trace st1) + 19) (Open2 path (flags fi)) in
      (res = (-1)%Z /\ r = (- errno st')%Z /\ fi' = fi) \/
      (res <> (-1)%Z /\ r = 0%Z /\ fi' = set_fh fi (to_uint64 res)))).
Proof.
  intros Ha Hu H.
  unfold xmp_open_decide in H. rewrite Ha, Hu in H.
  cbn [Z.eqb Pos.eqb negb] in H.
  destruct st1 as [e0 t0 n0 m0].
  mexec_in H. cbn [rands reads trace].
  match type of H with
  | context [string_alloc w 7 ?s] =>
      destruct (string_alloc w 7 s) as [o [e1 t1 n1 m1]|] eqn:Es; [|discriminate];
      pose proof (string_alloc_7_trace _ _ _ Es) as Ht;
      pose proof (string_alloc_malloc _ _ _ _ Es) as Hm8;
      cbn [trace] in Hm8; rewrite length_app in Hm8; cbn [List.length Nat.add] in Hm8;
      apply string_alloc_7_spec in Es as (Hrn & Hrd & _ & Ho);
      cbn [rands reads] in Hrn, Hrd; unfold emitted in Ht; cbn [trace] in Ht
  end.
  cbv beta iota in H.
  destruct (w_malloc w (List.length t1) 100) as [f|] eqn:Ef; [|discriminate].
  cbv [option_map] in H.
  destruct (strcat (map f (seq 0 100)) sms_command) as [i1|] eqn:E1; [|discriminate].
  destruct (strcat i1 (nth 2 (credenciais l) "")) as [i2|] eqn:E2; [|discriminate].
  destruct (strcat i2 " ") as [i3|] eqn:E3; [|discriminate].
  destruct o as [buf|]; [|discriminate].
  assert (Hm8' : w_malloc w (List.length t0 + 1) 8 <> None)
    by (intros E; apply Hm8 in E; discriminate).
  clear Hm8.
  destruct Ho as (cs & Hd & Hbuf). rewrite Hbuf in H.
  destruct (strcat i3 (string_of_list_ascii cs)) as [i4|] eqn:E4; [|discriminate].
  destruct (cstring_of i4) as [cmd|] eqn:Ec; [|discriminate].
  destruct (fmt_render (nth 2 (credenciais l) "")) as [out|] eqn:Eo; [|discriminate].
  subst m1 n1.
  unfold prompt_line.
  destruct (cstring_of (overlay (firstn 7 (w_pipe w m0))
                                (uninit w "recebida" 100))) as [rec|]; [|discriminate].
  destruct (strtok LF rec) as [myrec|]; [|discriminate].
  rewrite !strcmp_eqb in H.
  apply strcat_cstring in E1 as (g & Hg & H1 & _).
  apply strcat_cstring in E2 as (g2 & Hg2 & H2 & _).
  apply strcat_cstring in E3 as (g3 & Hg3 & H3 & _).
  apply strcat_cstring in E4 as (g4 & Hg4 & H4 & _).
  rewrite H1 in Hg2. injection Hg2 as <-.
  rewrite H2 in Hg3. injection Hg3 as <-.
  rewrite H3 in Hg4. injection Hg4 as <-.
  change (cstr sms_command) with sms_command in H4.
  change (cstr " ") with " "%string in H4.
  rewrite (cstr_free cs) in H4
    by (eapply Forall_impl; [|exact (drawn_chars w _ _ _ Hd)]; cbv beta; tauto).
  rewrite !append_assoc in H4.
  rewrite Ec in H4. injection H4 as Ecmd.
  change (cmd = (g ++ sms_command ++ cstr (nth 2 (credenciais l) "") ++ " "
                   ++ string_of_list_ascii cs)%string) in Ecmd.
  assert (Hlen : List.length t1 = List.length t0 + 8).
  { rewrite Ht, !length_app. simpl. lia. }
  rewrite Hlen in Ef.
  assert (Hev : forall tail e s,
             trace s = (((((((((((t1 ++ [Malloc 100]) ++ [System cmd]) ++ [Printf out])
                              ++ [Pipe]) ++ [Dup 1]) ++ [Dup2]) ++ [Dup2])
                          ++ [System zenity_senha]) ++ [Read 7]) ++ [Dup2])
                        ++ [ClosePipe]) ++ tail ->
             emitted (Build_State e t0 n0 m0) s (otp_events cmd out ++ tail)).
  { intros tail e s Hs. unfold emitted, otp_events. cbn [trace]. rewrite Hs, Ht.
    rewrite <- !app_assoc. reflexivity. }
  assert (Hidx : List.length
                   (((((((((((t1 ++ [Malloc 100]) ++ [System cmd]) ++ [Printf out])
                           ++ [Pipe]) ++ [Dup 1]) ++ [Dup2]) ++ [Dup2])
                       ++ [System zenity_senha]) ++ [Read 7]) ++ [Dup2])
                    ++ [ClosePipe]) = List.length t0 + 19).
  { rewrite !length_app, Hlen. cbn [List.length]. lia. }
  exists cs, f, g, out, myrec. rewrite <- Ecmd. clear Ecmd.
  destruct (String.eqb_spec myrec (string_of_list_ascii cs)) as [Em|Em]; cbn [negb] in H.
  2:{ injection H as <- <- <-. exists [Printf ("Senha incorreta!" ++ nl)].
      repeat (split; [first [assumption|reflexivity|now apply Hev]|]).
      left. auto. }
  destruct (String.eqb_spec cred_path path) as [Ep|Ep].
  - destruct (myuser l) as [u|] eqn:Eu; [|discriminate].
    rewrite strcmp_eqb in H.
    destruct (String.eqb_spec u "root") as [Er|Er]; cbn [negb] in H.
    + unfold xmp_open_host in H. mexec_in H. rewrite Hidx in H.
      destruct (Z.eqb_spec (w_ret w (List.length t0 + 19) (Open2 path (flags fi))) (-1))
        as [E|E].
      * injection H as <- <- <-. exists [Open2 path (flags fi)].
        repeat (split; [first [assumption|reflexivity|now apply Hev]|]).
        right. right. split; [assumption|]. split; [intros _; now subst u|].
        split; [reflexivity|]. cbv zeta. cbn [trace]. left. auto.
      * injection H as <- <- <-. exists [Open2 path (flags fi)].
        repeat (split; [first [assumption|reflexivity|now apply Hev]|]).
        right. right. split; [assumption|]. split; [intros _; now subst u|].
        split; [reflexivity|]. cbv zeta. cbn [trace]. right. auto.
    + injection H as <- <- <-. eexists [Printf _].
      repeat (split; [first [assumption|reflexivity|now apply Hev]|]).
      right. left. split; [assumption|]. split; [now symmetry|].
      split; [exists u; auto|]. split; [eexists; reflexivity|]. auto.
  - unfold xmp_open_host in H. mexec_in H. rewrite Hidx in H.
    destruct (Z.eqb_spec (w_ret w (List.length t0 + 19) (Open2 path (flags fi))) (-1))
      as [E|E].
    + injection H as <- <- <-. exists [Open2 path (flags fi)].
      repeat (split; [first [assumption|reflexivity|now apply Hev]|]).
      right. right. split; [assumption|]. split; [intros E'; now subst path|].
      split; [reflexivity|]. cbv zeta. cbn [trace]. left. auto.
    + injection H as <- <- <-. exists [Open2 path (flags fi)].
      repeat (split; [first [assumption|reflexivity|now apply Hev]|]).
      right. right. split; [assumption|]. split; [intros E'; now subst path|].
      split; [reflexivity|]. cbv zeta. cbn [trace]. right. auto.
Qed.

End Passcode.



Section Verdict.
Variable w : World.

Lemma xmp_open_decide_denied path fi l st1 :
  access l <> 1%Z ->
  exists st',
    xmp_open_decide w path fi l st1 = Done ((- errno st')%Z, fi) st' /\
    emitted st1 st' [Printf ("Acesso negado" ++ nl); System zenity_error] /\
    same_counters st1 st'.
Proof.
  intros Ha. unfold xmp_open_decide.
  destruct (Z.eqb_spec (access l) 1) as [E|_]; [contradiction|]. cbn [negb].
  destruct st1 as [e0 t0 n0 m0]. mexec.
  eexists (Build_State _ _ _ _). split; [reflexivity|].
  split; [unfold emitted; cbn [trace]; now rewrite <- app_assoc|split; reflexivity].
Qed.

Lemma xmp_open_decide_unauthenticated path fi l st1 :
  access l = 1%Z -> autenticado l <> 1%Z ->
  exists st',
    xmp_open_decide w path fi l st1 = Done ((- errno st')%Z, fi) st' /\
    emitted st1 st' [Printf ("Erro autenticação!;" ++ nl)] /\
    same_counters st1 st'.
Proof.
  intros Ha Hu. unfold xmp_open_decide. rewrite Ha.
  destruct (Z.eqb_spec (autenticado l) 1) as [E|_]; [contradiction|].
  cbn [Z.eqb Pos.eqb negb].
  destruct st1 as [e0 t0 n0 m0]. mexec.
  eexists (Build_State _ _ _ _). split; [reflexivity|].
  split; [reflexivity|split; reflexivity].
Qed.

Lemma xmp_open_split path fi st r fi' st' :
  xmp_open w path fi st = Done (r, fi') st' ->
  exists l st1,
    xmp_open_checks w path st = Done l st1 /\
    xmp_open_decide w path fi l st1 = Done (r, fi') st'.
Proof.
  unfold xmp_open. unfold bind at 1.
  destruct (xmp_open_checks w path st) as [l st1|]; [|discriminate].
  intros H. exists l, st1. split; [reflexivity|exact H].
Qed.

End Verdict.

Section Stage.
Variable w : World.

(** X5.  The passcode stage. When both stores accepted, an open that returns
    has made, after the checks: the allocation of the passcode and six draws;
    the allocation of a 100-byte block that is never initialised, so that the
    command handed to [system] is whatever string [g] the block held,
    followed by the fixed prefix, row 2 of the credential record, a space and
    the passcode; [printf] with row 2 as the format; and only then the third
    prompt. One call follows the prompt: a message or the host's [open]. *)
Theorem xmp_open_passcode_stage path fi st l st1 r fi' st' :
  xmp_open_checks w path st = Done l st1 ->
  access l = 1%Z -> autenticado l = 1%Z ->
  xmp_open w path fi st = Done (r, fi') st' ->
  exists cs f g out tail,
    drawn w (rands st1) 6 = Some cs /\
    w_malloc w (List.length (trace st1) + 8) 100 = Some f /\
    cstring_of (map f (seq 0 100)) = Some g /\
    fmt_render (nth 2 (credenciais l) "") = Some out /\
    emitted st1 st'
      (otp_events (g ++ sms_command ++ cstr (nth 2 (credenciais l) "") ++ " "
                     ++ string_of_list_ascii cs) out ++ tail) /\
    (tail = [Open2 path (flags fi)] \/ exists msg, tail = [Printf msg]) /\
    rands st' = rands st + 6 /\ reads st' = reads st + 3.
Proof.
  intros Hc Ha Hu H.
  apply xmp_open_split in H as (l' & st1' & Hc' & Hd).
  rewrite Hc in Hc'. injection Hc' as <- <-.
  apply xmp_open_checks_run in Hc as (_ & Hrn & Hrd & _).
  destruct (xmp_open_decide_otp w _ _ _ _ _ _ _ Ha Hu Hd)
    as (cs & f & g & out & myrec & tail & Hdr & _ & Hf & Hg & Ho & _ & He & Hr1 & Hr2 & Ht).
  exists cs, f, g, out, tail.
  repeat (split; [assumption|]).
  split; [|split; lia].
  destruct Ht as [(_ & -> & _)|[(_ & _ & _ & (msg & ->) & _)|(_ & _ & -> & _)]];
    [right; eexists; reflexivity|right; eexists; reflexivity|left; reflexivity].
Qed.

(** X6.  Neither allocation is tested: when [malloc] returns NULL for the
    passcode or for the command, the open that reached the passcode stage
    has no defined behaviour. *)
Theorem xmp_open_malloc_null path fi st l st1 :
  xmp_open_checks w path st = Done l st1 ->
  access l = 1%Z -> autenticado l = 1%Z ->
  w_malloc w (List.length (trace st1) + 1) 8 = None \/
  w_malloc w (List.length (trace st1) + 8) 100 = None ->
  xmp_open w path fi st = Undef.
Proof.
  intros Hc Ha Hu Hm.
  destruct (xmp_open w path fi st) as [[r fi'] st'|] eqn:H; [exfalso|reflexivity].
  apply xmp_open_split in H as (l' & st1' & Hc' & Hd).
  rewrite Hc in Hc'. injection Hc' as <- <-.
  destruct (xmp_open_decide_otp w _ _ _ _ _ _ _ Ha Hu Hd)
    as (cs & f & g & out & myrec & tail & _ & Hm8 & Hf & _).
  destruct Hm as [Hm|Hm]; [contradiction|congruence].
Qed.



End Stage.

(** The open of scenario 1 goes through the passcode stage. *)
Lemma xmp_open_passcode_stage_witness :
  exists l st1 r fi' st' cs f g out tail,
    xmp_open_checks Samples.alice_ok "/m/x" Samples.start = Done l st1 /\
    xmp_open Samples.alice_ok "/m/x" Samples.fi0 Samples.start = Done (r, fi') st' /\
    drawn Samples.alice_ok (rands st1) 6 = Some cs /\
    w_malloc Samples.alice_ok (List.length (trace st1) + 8) 100 = Some f /\
    cstring_of (map f (seq 0 100)) = Some g /\
    fmt_render (nth 2 (credenciais l) "") = Some out /\
    emitted st1 st'
      (otp_events (g ++ sms_command ++ cstr (nth 2 (credenciais l) "") ++ " "
                     ++ string_of_list_ascii cs) out ++ tail) /\
    (tail = [Open2 "/m/x" (flags Samples.fi0)] \/ exists msg, tail = [Printf msg]) /\
    rands st' = rands Samples.start + 6 /\ reads st' = reads Samples.start + 3.
Proof.
  destruct (xmp_open_checks Samples.alice_ok "/m/x" Samples.start)
    as [l st1|] eqn:E; [|vm_compute in E; discriminate E].
  destruct (xmp_open Samples.alice_ok "/m/x" Samples.fi0 Samples.start)
    as [[r fi'] st'|] eqn:E0; [|vm_compute in E0; discriminate E0].
  exists l, st1, r, fi', st'.
  destruct (xmp_open_passcode_stage Samples.alice_ok "/m/x" Samples.fi0
              Samples.start l st1 r fi' st' E)
    as (cs & f & g & out & tail & H);
    [vm_compute in E; injection E as <- _; reflexivity
    |vm_compute in E; injection E as <- _; reflexivity
    |exact E0|].
  exists cs, f, g, out, tail. split; [reflexivity|]. split; [reflexivity|]. exact H.
Defined.

(** Scenario 1 on a host without memory. *)
Lemma xmp_open_malloc_null_witness :
  xmp_open Cases.no_memory "/m/x" Samples.fi0 Samples.start = Undef.
Proof.
  destruct (xmp_open_checks Cases.no_memory "/m/x" Samples.start)
    as [l st1|] eqn:E; [|vm_compute in E; discriminate E].
  apply (xmp_open_malloc_null Cases.no_memory "/m/x" Samples.fi0 Samples.start l st1 E).
  - vm_compute in E. injection E as <- _. reflexivity.
  - vm_compute in E. injection E as <- _. reflexivity.
  - left. reflexivity.
Defined.



(** ** The stores: when they return, and the stream they leave *)

Section Stores.
Variable w : World.

Lemma emitted_tick st c : 
  emitted st {| errno := w_errno w (List.length (trace st)) c (errno st);
                trace := trace st ++ [c]; rands := rands st; reads := reads st |} [c].
Proof. reflexivity. Qed.

Lemma emitted_cons st st' c evs :
  emitted {| errno := w_errno w (List.length (trace st)) c (errno st);
             trace := trace st ++ [c]; rands := rands st; reads := reads st |} st' evs ->
  emitted st st' (c :: evs).
Proof. unfold emitted. cbn [trace]. intros ->. now rewrite <- app_assoc. Qed.

Lemma scan_tokens_events key toks : forall g i rows st g' rows' st',
  scan_tokens w key toks g i rows st = Done (g', rows') st' ->
  exists evs, emitted st st' evs /\ forallb is_printf evs = true.
Proof.
  induction toks as [|token toks IH]; intros g i rows st g' rows' st' H.
  - simpl in H. injection H as _ _ <-. exists []. split; [apply emitted_refl|reflexivity].
  - simpl in H.
    destruct (if (strcmp key token =? 0)%Z then true else g).
    + unfold printf_fmt in H. mrun_in H.
      destruct (fmt_render token) as [out|]; [|discriminate].
      destruct (strcpy_row rows i token) as [rows1|]; [|discriminate].
      apply IH in H as (evs & He & Hf).
      exists (Printf out :: evs). split; [now apply emitted_cons|exact Hf].
    + now apply IH in H.
Qed.

Lemma acesso_loop_events lines : forall id path acesso st r st',
  acesso_loop w lines id path acesso st = Done r st' ->
  exists evs, emitted st st' evs /\
              (In Fclose evs <-> first_hit path lines = None).
Proof.
  induction lines as [|line lines IH]; intros id path acesso st r st' H.
  - simpl in H. mrun_in H. injection H as _ <-.
    exists [Fgets; Fclose]. split.
    + unfold emitted. cbn [trace]. now rewrite <- app_assoc.
    + split; [reflexivity|]. intros _. right. now left.
  - simpl in H. mrun_in H.
    match type of H with
    | context [scan_tokens w ?k ?t false 0 ?a ?s] =>
        destruct (scan_tokens w k t false 0 a s) as [[g acesso'] s1|] eqn:Es;
        [|discriminate]
    end.
    pose proof (scan_tokens_events _ _ _ _ _ _ _ _ _ Es) as (evs1 & He1 & Hf1).
    apply emitted_cons in He1.
    assert (Hn1 : ~ In Fclose (Fgets :: evs1)).
    { intros [Hin|Hin]; [discriminate Hin|].
      rewrite forallb_forall in Hf1. apply Hf1 in Hin. discriminate Hin. }
    apply scan_tokens_false in Es as (_ & _ & Hk).
    simpl first_hit. fold (tokens line) in Hk.
    destruct (from_key path (tokens line)) as [copied|].
    + destruct Hk as (-> & -> & _).
      destruct (acesso_tem (put_rows copied acesso) id).
      * mrun_in H. injection H as _ <-. exists (Fgets :: evs1).
        split; [exact He1|]. split; [contradiction|discriminate].
      * mrun_in H. injection H as _ <-. eexists ((Fgets :: evs1) ++ [Printf _]).
        split; [eapply emitted_trans; [exact He1|apply emitted_tick]|].
        split; [|discriminate]. intros Hin.
        apply in_app_or in Hin as [Hin|[Hin|[]]]; [contradiction|discriminate Hin].
    + destruct Hk as (-> & ->).
      apply IH in H as (evs & He & Hi).
      exists ((Fgets :: evs1) ++ evs). split; [eapply emitted_trans; eassumption|].
      rewrite <- Hi. split.
      * intros Hin. apply in_app_or in Hin as [Hin|Hin]; [contradiction|exact Hin].
      * intros Hin. apply in_or_app. now right.
Qed.

Lemma credenciais_loop_events lines : forall u p rows st r rows' st',
  credenciais_loop w lines u p rows st = Done (r, rows') st' ->
  exists evs, emitted st st' evs /\
              (In Fclose evs <-> first_hit u lines = None).
Proof.
  induction lines as [|line lines IH]; intros u p rows st r rows' st' H.
  - simpl in H. mrun_in H. injection H as _ _ <-.
    exists [Fgets; Fclose]. split.
    + unfold emitted. cbn [trace]. now rewrite <- app_assoc.
    + split; [reflexivity|]. intros _. right. now left.
  - simpl in H. mrun_in H.
    match type of H with
    | context [scan_tokens w ?k ?t false 0 ?a ?s] =>
        destruct (scan_tokens w k t false 0 a s) as [[g rows1] s1|] eqn:Es;
        [|discriminate]
    end.
    pose proof (scan_tokens_events _ _ _ _ _ _ _ _ _ Es) as (evs1 & He1 & Hf1).
    apply emitted_cons in He1.
    assert (Hn1 : ~ In Fclose (Fgets :: evs1)).
    { intros [Hin|Hin]; [discriminate Hin|].
      rewrite forallb_forall in Hf1. apply Hf1 in Hin. discriminate Hin. }
    apply scan_tokens_false in Es as (_ & _ & Hk).
    simpl first_hit. fold (tokens line) in Hk.
    destruct (from_key u (tokens line)) as [copied|].
    + destruct Hk as (-> & -> & _).
      destruct (strcmp (nth 1 (put_rows copied rows) "") p =? 0)%Z.
      * mrun_in H. injection H as _ _ <-. exists (Fgets :: evs1).
        split; [exact He1|]. split; [contradiction|discriminate].
      * mrun_in H. injection H as _ _ <-. eexists ((Fgets :: evs1) ++ [Printf _]).
        split; [eapply emitted_trans; [exact He1|apply emitted_tick]|].
        split; [|discriminate]. intros Hin.
        apply in_app_or in Hin as [Hin|[Hin|[]]]; [contradiction|discriminate Hin].
    + destruct Hk as (-> & ->).
      apply IH in H as (evs & He & Hi).
      exists ((Fgets :: evs1) ++ evs). split; [eapply emitted_trans; eassumption|].
      rewrite <- Hi. split.
      * intros Hin. apply in_app_or in Hin as [Hin|Hin]; [contradiction|exact Hin].
      * intros Hin. apply in_or_app. now right.
Qed.

(** The loop returns whenever the copy of the first line that holds the
    name stays within the rows. *)
Lemma credenciais_loop_run lines : forall u p rows st,
  (forall copied, first_hit u lines = Some copied ->
                  copy_ok (List.length rows) copied) ->
  exists r rows' st', credenciais_loop w lines u p rows st = Done (r, rows') st'.
Proof.
  induction lines as [|line lines IH]; intros u p rows st Hok.
  - simpl. mrun. eauto.
  - simpl in Hok. simpl. mrun. fold (tokens line).
    match goal with
    | |- context [scan_tokens w u (tokens line) false 0 rows ?s] =>
        pose proof (scan_tokens_false_run w u (tokens line) rows s) as Hs
    end.
    destruct (from_key u (tokens line)) as [cp|].
    + destruct (Hs (Hok _ eq_refl)) as [s1 E]. rewrite E.
      destruct (strcmp (nth 1 (put_rows cp rows) "") p =? 0)%Z; mrun; eauto.
    + rewrite Hs. now apply IH.
Qed.

(** X9.  [verifica_acesso] has a defined result exactly when the copy into
    [acesso[5][100]] stays within the array and the tokens printed as
    formats hold no conversion: at most five tokens from the path on, on the
    first line that holds the path, each shorter than 100 characters. *)
Theorem verifica_acesso_defined id path st :
  (exists r st', verifica_acesso w id path st = Done r st') <->
  (forall lines copied,
      store_lines w perm_path = Some lines ->
      first_hit path lines = Some copied -> copy_ok 5 copied).
Proof.
  split.
  - intros (r & st' & H) lines copied Hl Hh.
    apply verifica_acesso_spec in H as (_ & _ & _ & H).
    rewrite Hl, Hh in H. tauto.
  - intros Hok. unfold verifica_acesso, fopen. mrun.
    unfold store_lines in Hok.
    destruct (w_file w perm_path) as [content|]; [|mrun; eauto].
    apply acesso_loop_run. rewrite length_map, length_seq.
    intros copied Hh. now apply (Hok _ _ eq_refl).
Qed.

(** X10.  [verifica_credenciais], given a name and a password, has a
    defined result exactly when the copy into the caller's rows (the four
    of [credenciais[4][100]] in [xmp_open]) stays within them: on the first
    line that holds the name, no more tokens from the name on than there are
    rows, each shorter than 100 characters and free of conversions. *)
Theorem verifica_credenciais_defined rows u p st :
  (exists r rows' st',
      verifica_credenciais w rows (Some u) (Some p) st = Done (r, rows') st') <->
  (forall lines copied,
      store_lines w cred_path = Some lines ->
      first_hit u lines = Some copied -> copy_ok (List.length rows) copied).
Proof.
  split.
  - intros (r & rows' & st' & H) lines copied Hl Hh.
    apply verifica_credenciais_spec in H as (u' & p' & [= <-] & [= <-] & _ & _ & H).
    rewrite Hl, Hh in H. tauto.
  - intros Hok. unfold verifica_credenciais, fopen. mrun.
    unfold store_lines in Hok.
    destruct (w_file w cred_path) as [content|]; [|mrun; eauto].
    apply credenciais_loop_run.
    intros copied Hh. now apply (Hok _ _ eq_refl).
Qed.

Lemma verifica_acesso_events id path st r st' :
  verifica_acesso w id path st = Done r st' ->
  exists evs1,
    emitted st st' ([Printf ("User recebido:" ++ id ++ nl);
                     Printf ("Path recebida " ++ path ++ nl);
                     Fopen perm_path] ++ evs1) /\
    match store_lines w perm_path with
    | Some lines => In Fclose evs1 <-> first_hit path lines = None
    | None => evs1 = []
    end.
Proof.
  unfold verifica_acesso, fopen, store_lines. intros H. mrun_in H.
  destruct (w_file w perm_path) as [content|]; cbn [option_map].
  - apply acesso_loop_events in H as (evs1 & He1 & Hi).
    exists evs1. split; [|exact Hi].
    unfold emitted in *. cbn [trace] in He1. rewrite He1, <- !app_assoc. reflexivity.
  - mrun_in H. injection H as _ <-. exists []. split; [|reflexivity].
    unfold emitted. cbn [trace]. rewrite <- !app_assoc. reflexivity.
Qed.

Lemma verifica_credenciais_events rows u p st r rows' st' :
  verifica_credenciais w rows (Some u) (Some p) st = Done (r, rows') st' ->
  exists evs1,
    emitted st st' ([Printf ("User recebido:" ++ u ++ nl);
                     Printf ("Pass recebida " ++ p ++ nl);
                     Fopen cred_path] ++ evs1) /\
    match store_lines w cred_path with
    | Some lines => In Fclose evs1 <-> first_hit u lines = None
    | None => evs1 = []
    end.
Proof.
  unfold verifica_credenciais, fopen, store_lines. intros H. mrun_in H.
  destruct (w_file w cred_path) as [content|]; cbn [option_map].
  - apply credenciais_loop_events in H as (evs1 & He1 & Hi).
    exists evs1. split; [|exact Hi].
    unfold emitted in *. cbn [trace] in He1. rewrite He1, <- !app_assoc. reflexivity.
  - mrun_in H. injection H as _ _ <-. exists []. split; [|reflexivity].
    unfold emitted. cbn [trace]. rewrite <- !app_assoc. reflexivity.
Qed.

Lemma stream_closed (evs pre evs1 : list Call) (st st' : State)
      (lines : option (list string)) (key : string) :
  emitted st st' evs -> emitted st st' (pre ++ evs1) ->
  ~ In Fclose pre ->
  match lines with
  | Some lines => In Fclose evs1 <-> first_hit key lines = None
  | None => evs1 = []
  end ->
  In Fclose evs <-> exists ls, lines = Some ls /\ first_hit key ls = None.
Proof.
  intros He He1 Hpre Hm. unfold emitted in *. rewrite He in He1.
  apply app_inv_head in He1. subst evs. split.
  - intros Hin. apply in_app_or in Hin as [Hin|Hin]; [contradiction|].
    destruct lines as [ls|]; [|subst evs1; contradiction].
    exists ls. split; [reflexivity|now apply Hm].
  - intros (ls & -> & Hh). apply in_or_app. right. now apply Hm.
Qed.

(** X11.  [verifica_acesso] closes the stream it opened only when it has read
    the whole file without finding the path: every answer given on a record,
    the grant as the refusal, leaves the stream open. *)
Theorem verifica_acesso_stream id path st r st' evs :
  verifica_acesso w id path st = Done r st' ->
  emitted st st' evs ->
  In Fclose evs <->
  exists lines, store_lines w perm_path = Some lines /\ first_hit path lines = None.
Proof.
  intros H He. apply verifica_acesso_events in H as (evs1 & He1 & Hm).
  eapply stream_closed; [exact He|exact He1| |exact Hm].
  intros [Hin|[Hin|[Hin|[]]]]; discriminate Hin.
Qed.

(** X12.  [verifica_credenciais] closes the stream it opened only when it
    has read the whole file without finding the name: the accepted password
    as the wrong one leaves the stream open. *)
Theorem verifica_credenciais_stream rows u p st r rows' st' evs :
  verifica_credenciais w rows (Some u) (Some p) st = Done (r, rows') st' ->
  emitted st st' evs ->
  In Fclose evs <->
  exists lines, store_lines w cred_path = Some lines /\ first_hit u lines = None.
Proof.
  intros H He. apply verifica_credenciais_events in H as (evs1 & He1 & Hm).
  eapply stream_closed; [exact He|exact He1| |exact Hm].
  intros [Hin|[Hin|[Hin|[]]]]; discriminate Hin.
Qed.

End Stores.

(** A record with the path and five user-ids: the sixth token is copied
    past the end of [acesso]. *)
Lemma verifica_acesso_defined_witness :
  verifica_acesso Cases.five_ids "5" "/m/x" Samples.start = Undef.
Proof.
  destruct (verifica_acesso Cases.five_ids "5" "/m/x" Samples.start)
    as [r st'|] eqn:E; [exfalso|reflexivity].
  destruct (proj1 (verifica_acesso_defined Cases.five_ids "5" "/m/x" Samples.start)
                  (ex_intro _ r (ex_intro _ st' E))
                  (file_lines 128 ("/m/x,1,2,3,4,5" ++ nl)%string)
                  ["/m/x"; "1"; "2"; "3"; "4"; ("5" ++ nl)%string]
                  eq_refl eq_refl) as [Hlen _].
  simpl in Hlen. lia.
Defined.

(** A credential record of five fields: the fifth is copied past the end
    of [credenciais]. *)
Lemma verifica_credenciais_defined_witness :
  verifica_credenciais Cases.five_fields (credenciais0 Cases.five_fields)
                       (Some "alice") (Some "pw") Samples.start = Undef.
Proof.
  destruct (verifica_credenciais Cases.five_fields (credenciais0 Cases.five_fields)
                                 (Some "alice") (Some "pw") Samples.start)
    as [[r rows'] st'|] eqn:E; [exfalso|reflexivity].
  destruct (proj1 (verifica_credenciais_defined Cases.five_fields
                     (credenciais0 Cases.five_fields) "alice" "pw" Samples.start)
                  (ex_intro _ r (ex_intro _ rows' (ex_intro _ st' E)))
                  (file_lines 128 ("alice,pw,addr,7,x" ++ nl)%string)
                  ["alice"; "pw"; "addr"; "7"; ("x" ++ nl)%string]
                  eq_refl eq_refl) as [Hlen _].
  simpl in Hlen. lia.
Defined.

(** Scenario 1: the grant leaves the stream of the permission file open. *)
Lemma verifica_acesso_stream_witness :
  exists r st',
    verifica_acesso Samples.alice_ok ("7" ++ nl) "/m/x" Samples.start = Done r st' /\
    (In Fclose (trace st') <->
     exists lines, store_lines Samples.alice_ok perm_path = Some lines /\
                   first_hit "/m/x" lines = None).
Proof.
  destruct (verifica_acesso Samples.alice_ok ("7" ++ nl) "/m/x" Samples.start)
    as [r st'|] eqn:E; [|vm_compute in E; discriminate E].
  exists r, st'. split; [reflexivity|].
  apply (verifica_acesso_stream Samples.alice_ok ("7" ++ nl) "/m/x" Samples.start
           r st' (trace st') E).
  reflexivity.
Defined.

(** Scenario 1: so does the accepted password. *)
Lemma verifica_credenciais_stream_witness :
  exists r rows' st',
    verifica_credenciais Samples.alice_ok (credenciais0 Samples.alice_ok)
                         (Some "alice") (Some "pw") Samples.start
    = Done (r, rows') st' /\
    (In Fclose (trace st') <->
     exists lines, store_lines Samples.alice_ok cred_path = Some lines /\
                   first_hit "alice" lines = None).
Proof.
  destruct (verifica_credenciais Samples.alice_ok (credenciais0 Samples.alice_ok)
                                 (Some "alice") (Some "pw") Samples.start)
    as [[r rows'] st'|] eqn:E; [|vm_compute in E; discriminate E].
  exists r, rows', st'. split; [reflexivity|].
  apply (verifica_credenciais_stream Samples.alice_ok (credenciais0 Samples.alice_ok)
           "alice" "pw" Samples.start r rows' st' (trace st') E).
  reflexivity.
Defined.

(** ** The checks of [xmp_open] *)

Section Checks.
Variable w : World.

(** The checks of [xmp_open], event by event. *)
Lemma xmp_open_checks_events path st l st1 :
  xmp_open_checks w path st = Done l st1 ->
  exists u p sa sb out sc,
    entered_user w st = Some u /\ entered_pass w st = Some p /\
    myuser l = Some u /\
    emitted st sa prompt_events /\
    verifica_credenciais w (credenciais0 w) (Some u) (Some p) sa
    = Done (autenticado l, credenciais l) sb /\
    fmt_render (nth 3 (credenciais l) "") = Some out /\
    emitted sb sc [Printf "ID do utilizador "; Printf out; Printf nl] /\
    verifica_acesso w (nth 3 (credenciais l) "") path sc = Done (access l) st1.
Proof.
  intros H. destruct st as [e0 t0 n0 m0].
  unfold xmp_open_checks in H. mexec_in H.
  unfold entered_user, entered_pass, prompt_line. cbn [rands reads].
  destruct (cstring_of (overlay (firstn 30 (w_pipe w m0)) (uninit w "user" 100)))
    as [user|]; [|discriminate].
  destruct (cstring_of (overlay (firstn 30 (w_pipe w (S m0))) (uninit w "pass" 100)))
    as [pass|]; [|discriminate].
  match type of H with
  | context [verifica_credenciais w ?rows ?mu ?mp ?s] =>
      destruct (verifica_credenciais w rows mu mp s) as [[aut cred] sb|] eqn:Ev;
      [|discriminate];
      assert (Hpr : emitted (Build_State e0 t0 n0 m0) s prompt_events);
      [|revert Ev Hpr; generalize s; intros sa Ev Hpr]
  end.
  { unfold emitted, prompt_events. cbn [trace]. rewrite <- !app_assoc. reflexivity. }
  pose proof (verifica_credenciais_spec w _ _ _ _ _ _ _ Ev) as (u & p & Eu & Ep & _).
  destruct (fmt_render (nth 3 cred "")) as [out|] eqn:Ef; [|discriminate].
  destruct sb as [e1 t1 n1 m1]. cbn [errno trace rands reads] in H.
  match type of H with
  | context [verifica_acesso w ?id ?pa ?s] =>
      destruct (verifica_acesso w id pa s) as [acc sd|] eqn:Ea; [|discriminate];
      assert (Hst : emitted (Build_State e1 t1 n1 m1) s
                            [Printf "ID do utilizador "; Printf out; Printf nl]);
      [|revert Ea Hst; generalize s; intros sc Ea Hst]
  end.
  { unfold emitted. cbn [trace]. rewrite <- !app_assoc. reflexivity. }
  injection H as <- <-. cbn [myuser autenticado credenciais access].
  exists u, p, sa, (Build_State e1 t1 n1 m1), out, sc. rewrite Eu, Ep in *.
  repeat (split; [first [reflexivity|assumption]|]). assumption.
Qed.

Lemma xmp_open_decide_emits path fi l st1 r fi' st' :
  xmp_open_decide w path fi l st1 = Done (r, fi') st' ->
  exists evs, emitted st1 st' evs.
Proof.
  intros H. exists (skipn (List.length (trace st1)) (trace st')).
  destruct (Z.eq_dec (access l) 1) as [Ha|Ha].
  2:{ destruct (xmp_open_decide_denied w path fi l st1 Ha) as (s & E & He & _).
      rewrite E in H. injection H as _ _ <-. unfold emitted in *.
      now rewrite He, skipn_app, skipn_all, Nat.sub_diag. }
  destruct (Z.eq_dec (autenticado l) 1) as [Hu|Hu].
  2:{ destruct (xmp_open_decide_unauthenticated w path fi l st1 Ha Hu) as (s & E & He & _).
      rewrite E in H. injection H as _ _ <-. unfold emitted in *.
      now rewrite He, skipn_app, skipn_all, Nat.sub_diag. }
  destruct (xmp_open_decide_otp w _ _ _ _ _ _ _ Ha Hu H)
    as (cs & f & g & out & myrec & tail & _ & _ & _ & _ & _ & _ & He & _).
  unfold emitted in *. now rewrite He, skipn_app, skipn_all, Nat.sub_diag.
Qed.

(** X13.  Every open that returns has written to the standard output, in
    clear, the two strings it takes for the name and the password: the first
    line of each of the two reads of 30 bytes from the pipe of the
    prompts. *)
Theorem xmp_open_prints_password path fi st r fi' st' evs :
  xmp_open w path fi st = Done (r, fi') st' ->
  emitted st st' evs ->
  exists u p,
    entered_user w st = Some u /\ entered_pass w st = Some p /\
    In (Printf ("User recebido:" ++ u ++ nl)) evs /\
    In (Printf ("Pass recebida " ++ p ++ nl)) evs.
Proof.
  intros H He.
  apply xmp_open_split in H as (l & st1 & Hc & Hd).
  apply xmp_open_checks_events in Hc
    as (u & p & sa & sb & out & sc & Hu & Hp & _ & H1 & Hv & _ & H3 & Ha).
  apply verifica_credenciais_events in Hv as (evs2 & H2 & _).
  apply verifica_acesso_events in Ha as (evs4 & H4 & _).
  apply xmp_open_decide_emits in Hd as (evs5 & H5).
  exists u, p. split; [exact Hu|]. split; [exact Hp|].
  pose proof (emitted_trans _ _ _ _ _ H1
                (emitted_trans _ _ _ _ _ H2
                   (emitted_trans _ _ _ _ _ H3
                      (emitted_trans _ _ _ _ _ H4 H5)))) as Hall.
  unfold emitted in He, Hall. rewrite He in Hall. apply app_inv_head in Hall.
  subst evs. split; apply in_or_app; right; apply in_or_app; left; cbn [app];
    [left|right; left]; reflexivity.
Qed.

(** X14.  When [strtok] finds no token in the reply to one of the first two
    prompts, or a reply array holds no NUL, the open has no defined
    behaviour: the null pointer goes to [printf] and [strcmp]. *)
Theorem xmp_open_without_reply path fi st :
  entered_user w st = None \/ entered_pass w st = None ->
  xmp_open w path fi st = Undef.
Proof.
  intros Hn.
  destruct (xmp_open w path fi st) as [[r fi'] st'|] eqn:H; [exfalso|reflexivity].
  apply xmp_open_split in H as (l & st1 & Hc & _).
  apply xmp_open_checks_events in Hc as (u & p & sa & sb & out & sc & Hu & Hp & _).
  destruct Hn as [Hn|Hn]; congruence.
Qed.

(** X15.  A user no line of the credential file names is not turned away at
    once: the permission check runs on row 3 of [credenciais] as the stack
    left it, after that row went to [printf] as a format. *)
Theorem xmp_open_unknown_user path st l st1 u lines :
  xmp_open_checks w path st = Done l st1 ->
  entered_user w st = Some u ->
  store_lines w cred_path = Some lines ->
  first_hit u lines = None ->
  autenticado l = 0%Z /\ credenciais l = credenciais0 w /\
  fmt_render (w_credenciais w 3) <> None /\
  exists sc, verifica_acesso w (w_credenciais w 3) path sc = Done (access l) st1.
Proof.
  intros Hc Hu Hl Hh.
  apply xmp_open_checks_events in Hc
    as (u' & p & sa & sb & out & sc & Hu' & _ & _ & _ & Hv & Hf & _ & Ha).
  rewrite Hu in Hu'. injection Hu' as <-.
  apply verifica_credenciais_spec in Hv as (u' & p' & [= <-] & _ & _ & _ & Hv).
  rewrite Hl, Hh in Hv. destruct Hv as [-> Hr]. rewrite Hr in *.
  change (nth 3 (credenciais0 w) "") with (w_credenciais w 3) in *.
  split; [reflexivity|]. split; [reflexivity|].
  split; [congruence|]. exists sc. exact Ha.
Qed.

End Checks.

(** Scenario 2: the wrong password is printed. *)
Lemma xmp_open_prints_password_witness :
  exists r fi' st',
    xmp_open Samples.alice_wrong_password "/m/x" Samples.fi0 Samples.start
    = Done (r, fi') st' /\
    exists u p,
      entered_user Samples.alice_wrong_password Samples.start = Some u /\
      entered_pass Samples.alice_wrong_password Samples.start = Some p /\
      In (Printf ("User recebido:" ++ u ++ nl)) (trace st') /\
      In (Printf ("Pass recebida " ++ p ++ nl)) (trace st').
Proof.
  destruct (xmp_open Samples.alice_wrong_password "/m/x" Samples.fi0 Samples.start)
    as [[r fi'] st'|] eqn:E0; [|vm_compute in E0; discriminate E0].
  exists r, fi', st'. split; [reflexivity|].
  apply (xmp_open_prints_password Samples.alice_wrong_password "/m/x" Samples.fi0
           Samples.start r fi' st' (trace st') E0).
  reflexivity.
Defined.

(** The first prompt is dismissed. *)
Lemma xmp_open_without_reply_witness :
  xmp_open Cases.dismissed "/m/x" Samples.fi0 Samples.start = Undef.
Proof.
  apply xmp_open_without_reply. left. reflexivity.
Defined.

(** [mallory] is unknown; the stack holds empty rows. *)
Lemma xmp_open_unknown_user_witness :
  exists l st1,
    xmp_open_checks Cases.unknown_user "/m/x" Samples.start = Done l st1 /\
    autenticado l = 0%Z /\ credenciais l = credenciais0 Cases.unknown_user /\
    fmt_render (w_credenciais Cases.unknown_user 3) <> None /\
    exists sc, verifica_acesso Cases.unknown_user (w_credenciais Cases.unknown_user 3) "/m/x" sc
               = Done (access l) st1.
Proof.
  destruct (xmp_open_checks Cases.unknown_user "/m/x" Samples.start)
    as [l st1|] eqn:E; [|vm_compute in E; discriminate E].
  exists l, st1. split; [reflexivity|].
  apply (xmp_open_unknown_user Cases.unknown_user "/m/x" Samples.start l st1 "mallory"
           (file_lines 128 ("alice,pw,addr,7" ++ nl)) E); reflexivity.
Defined.

(** ** When [xmp_open] binds a handle *)



Section Accept.
Variable w : World.






End Accept.


(** ** Lines and tokens *)

(** *** The lines [fgets] cuts *)


Lemma read_lines_fuel (f1 : nat) : forall f2 s,
  String.length s <= f1 -> String.length s <= f2 ->
  read_lines f1 128 s = read_lines f2 128 s.
Proof.
  induction f1 as [|f1 IH]; intros f2 s H1 H2.
  - destruct s; [|simpl in H1; lia]. destruct f2; reflexivity.
  - destruct s as [|c s]; [destruct f2; reflexivity|].
    destruct f2 as [|f2]; [simpl in H2; lia|].
    cbn [read_lines fgets]. change (128 - 1) with (S 126).
    pose proof (fgets_from_progress 126 c s) as Hp.
    destruct (fgets_from (S 126) (String c s)) as [l rest]. cbn [snd] in Hp.
    simpl in H1, H2. f_equal. apply IH; lia.
Qed.

Lemma fgets_from_line (a b : string) : forall room,
  no_lf a = true -> String.length a < room ->
  fgets_from room (a ++ String LF b) = ((a ++ String LF "")%string, b).
Proof.
  induction a as [|c a IH]; intros room Hn Hl.
  - destruct room; [simpl in Hl; lia|]. reflexivity.
  - destruct room; [simpl in Hl; lia|].
    unfold no_lf in Hn. simpl in Hn. apply andb_true_iff in Hn as [Hc Hn].
    simpl. destruct (Ascii.eqb c LF); [discriminate|].
    rewrite IH; [reflexivity|exact Hn|simpl in Hl; lia].
Qed.

Lemma fgets_from_full (a b : string) : forall room,
  no_lf a = true -> String.length a = room ->
  fgets_from room (a ++ b) = (a, b).
Proof.
  induction a as [|c a IH]; intros room Hn Hl.
  - simpl in Hl. subst room. reflexivity.
  - destruct room; [simpl in Hl; lia|].
    unfold no_lf in Hn. simpl in Hn. apply andb_true_iff in Hn as [Hc Hn].
    simpl. destruct (Ascii.eqb c LF); [discriminate|].
    rewrite IH; [reflexivity|exact Hn|simpl in Hl; lia].
Qed.

(** X17.  The loop [while (fgets(line, sizeof line, file) != NULL)] with
    [char line[128]] cuts the file after each newline, and after 127
    characters where no newline came: the rest of a longer line is read, and
    scanned, as a line of its own. *)
Theorem file_lines_chunks (a b : string) :
  no_lf a = true ->
  (String.length a < 127 ->
   file_lines 128 (a ++ String LF b) = (a ++ String LF "")%string :: file_lines 128 b) /\
  (String.length a = 127 ->
   file_lines 128 (a ++ b) = a :: file_lines 128 b).
Proof.
  intros Hn. split.
  - intros Hl. unfold file_lines.
    rewrite string_length_append. cbn [String.length].
    rewrite Nat.add_succ_r. cbn [read_lines].
    assert (E : fgets 128 (a ++ String LF b)
                = Some ((a ++ String LF "")%string, b)).
    { unfold fgets. rewrite fgets_from_line by (assumption || (simpl; lia)).
      destruct a; reflexivity. }
    rewrite E. f_equal. apply read_lines_fuel; lia.
  - intros Hl. unfold file_lines.
    rewrite string_length_append, Hl.
    change (127 + String.length b) with (S (126 + String.length b)).
    cbn [read_lines].
    assert (E : fgets 128 (a ++ b) = Some (a, b)).
    { unfold fgets. rewrite fgets_from_full by (assumption || (simpl; lia)).
      destruct a; [discriminate Hl|reflexivity]. }
    rewrite E. f_equal. apply read_lines_fuel; lia.
Qed.

Lemma file_lines_chunks_witness :
  file_lines 128 ("/m/x,7" ++ String LF "/a,1")
  = ("/m/x,7" ++ String LF "")%string :: file_lines 128 "/a,1" /\
  file_lines 128 (string_of_list_ascii (repeat "a"%char 127) ++ ",/m/x,7")
  = string_of_list_ascii (repeat "a"%char 127) :: file_lines 128 ",/m/x,7".
Proof.
  split.
  - apply (proj1 (file_lines_chunks "/m/x,7" "/a,1" eq_refl)). simpl. lia.
  - apply (proj2 (file_lines_chunks (string_of_list_ascii (repeat "a"%char 127))
                    ",/m/x,7" eq_refl)). reflexivity.
Defined.

(** *** The newline [fgets] keeps *)


Lemma fgets_from_lf_last (room : nat) : forall s,
  lf_last (fst (fgets_from room s)) = true.
Proof.
  induction room as [|room IH]; intros s; [reflexivity|].
  destruct s as [|c s]; [reflexivity|]. simpl.
  destruct (Ascii.eqb c LF) eqn:E; [simpl; now rewrite E|].
  specialize (IH s). destruct (fgets_from room s) as [l rest]. simpl in *.
  now rewrite E.
Qed.

Lemma read_lines_lf_last (fuel : nat) : forall s,
  Forall (fun l => lf_last l = true) (read_lines fuel 128 s).
Proof.
  induction fuel as [|fuel IH]; intros s; [constructor|].
  destruct s as [|c s]; [constructor|].
  cbn [read_lines fgets]. change (128 - 1) with 127.
  pose proof (fgets_from_lf_last 127 (String c s)) as H.
  destruct (fgets_from 127 (String c s)) as [l rest]. constructor; [exact H|apply IH].
Qed.

Lemma cstr_lf_last (s : string) : lf_last s = true -> lf_last (cstr s) = true.
Proof.
  induction s as [|c s IH]; [reflexivity|]. simpl.
  destruct (Ascii.eqb c NUL); [reflexivity|].
  destruct (Ascii.eqb c LF) eqn:E; simpl; rewrite E.
  - destruct s; [reflexivity|discriminate].
  - exact IH.
Qed.

Lemma fields_lf_last (s : string) : forall pre t post,
  lf_last s = true ->
  fields COMMA s = pre ++ t :: post ->
  In LF (list_ascii_of_string t) -> post = [].
Proof.
  induction s as [|c s IH]; intros pre t post Hl Hf Hin.
  - simpl in Hf. destruct pre as [|p pre]; [now injection Hf as _ <-|].
    destruct pre; discriminate Hf.
  - simpl in Hf, Hl. destruct (Ascii.eqb_spec c COMMA) as [Ec|Ec].
    + subst c. change (Ascii.eqb COMMA LF) with false in Hl.
      destruct pre as [|p pre].
      * injection Hf as <- _. destruct Hin.
      * injection Hf as _ Hf. now apply (IH pre t post).
    + destruct (Ascii.eqb_spec c LF) as [El|El].
      * destruct s; [|discriminate Hl]. simpl in Hf.
        destruct pre as [|p pre]; [now injection Hf as _ <-|].
        destruct pre; discriminate Hf.
      * pose proof (fields_nonempty COMMA s) as Hne.
        destruct (fields COMMA s) as [|f fs] eqn:Efs; [contradiction|].
        destruct pre as [|p pre].
        -- injection Hf as <- <-. simpl in Hin.
           destruct Hin as [Hin|Hin]; [congruence|].
           now apply (IH [] f fs).
        -- injection Hf as _ ->. now apply (IH (f :: pre) t post).
Qed.

Lemma filter_split {A} (f : A -> bool) (l : list A) : forall pre t post,
  filter f l = pre ++ t :: post ->
  exists X Y, l = X ++ t :: Y /\ filter f Y = post.
Proof.
  induction l as [|a l IH]; intros pre t post H.
  - destruct pre; discriminate H.
  - simpl in H. destruct (f a).
    + destruct pre as [|p pre].
      * injection H as <- H. exists [], l. split; [reflexivity|exact H].
      * injection H as _ H. apply IH in H as (X & Y & -> & HY).
        exists (a :: X), Y. split; [reflexivity|exact HY].
    + apply IH in H as (X & Y & -> & HY).
      exists (a :: X), Y. split; [reflexivity|exact HY].
Qed.

(** A token that holds a newline is the last token of its line. *)
Lemma tokens_lf_last (line : string) (pre : list string) (t : string) (post : list string) :
  lf_last line = true ->
  tokens line = pre ++ t :: post ->
  In LF (list_ascii_of_string t) -> post = [].
Proof.
  unfold tokens, strtok_all. intros Hl Ht Hin.
  apply filter_split in Ht as (X & Y & Hf & <-).
  apply fields_lf_last in Hf; [|now apply cstr_lf_last|exact Hin].
  now subst Y.
Qed.

Lemma In_skipn_nth {A} (d : A) (l : list A) (n : nat) (x : A) :
  In x (skipn n l) -> exists j, n <= j < List.length l /\ nth j l d = x.
Proof.
  revert n. induction l as [|a l IH]; intros n H.
  - rewrite skipn_nil in H. destruct H.
  - destruct n as [|n].
    + simpl in H. destruct H as [->|H].
      * exists 0. simpl. split; [lia|reflexivity].
      * apply (IH 0) in H as (j & Hj & E). exists (S j). simpl. split; [lia|exact E].
    + simpl in H. apply IH in H as (j & Hj & E). exists (S j). simpl. split; [lia|exact E].
Qed.

Section Newline.
Variable w : World.

(** X18.  [fgets] keeps the newline and [strtok] cuts at commas only, so the
    last token of a line ends in the newline. A user-id that holds a newline,
    as the last field of a credential line does, is granted only when it is
    the last token of the first line of the permission file that holds the
    path, or when a row of [acesso] that was never written happens to hold
    it: the ids listed before the last one on a line are out of its reach. *)
Theorem verifica_acesso_newline_id id path st st' lines copied :
  errno_sane w -> (0 <= errno st)%Z ->
  store_lines w perm_path = Some lines ->
  first_hit path lines = Some copied ->
  verifica_acesso w id path st = Done 1%Z st' ->
  In LF (list_ascii_of_string id) ->
  last copied "" = id \/
  exists j, List.length copied <= j < 5 /\ w_acesso w j = id.
Proof.
  intros Hs H0 Hl Hh H Hin.
  apply verifica_acesso_spec in H as (Hr & _ & _ & H).
  rewrite Hl, Hh in H. destruct H as [Hok H].
  destruct (acesso_tem (put_rows copied (acesso0 w)) id) eqn:Et.
  2:{ pose proof (run_of_errno w _ _ _ Hr Hs H0). lia. }
  apply acesso_tem_true in Et. unfold put_rows in Et.
  apply in_app_or in Et as [Hc|Hu].
  - left.
    apply first_hit_some in Hh as (l1 & line & l2 & pre & post & El & _ & Et & _ & Ec).
    assert (Hll : lf_last line = true).
    { unfold store_lines in Hl. destruct (w_file w perm_path) as [content|];
        [|discriminate]. injection Hl as Hl.
      pose proof (read_lines_lf_last (String.length content) content) as Hf.
      fold (file_lines 128 content) in Hf. rewrite Hl, El in Hf.
      rewrite Forall_forall in Hf. apply Hf. apply in_or_app. right. now left. }
    apply in_split in Hc as (X & Y & Hc).
    assert (HY : Y = []).
    { apply (tokens_lf_last line (firstn (List.length (tokens line) - List.length copied)
                                         (tokens line) ++ X) id Y Hll); [|exact Hin].
      rewrite <- app_assoc, <- Hc, Ec, Et.
      rewrite length_app. cbn [List.length].
      replace (List.length pre + S (List.length post) - S (List.length post))
        with (List.length pre + 0) by lia.
      rewrite firstn_app_2, firstn_O, app_nil_r. reflexivity. }
    subst Y. rewrite Hc. apply last_last.
  - right. apply (In_skipn_nth "") in Hu as (j & Hj & E).
    unfold acesso0 in Hj, E. rewrite length_map, length_seq in Hj.
    exists j. split; [exact Hj|].
    rewrite (nth_indep _ "" (w_acesso w 0)) in E
      by (rewrite length_map, length_seq; lia).
    rewrite map_nth, seq_nth in E by lia. exact E.
Qed.

End Newline.

(** Scenario 1: the user-id of [alice] is the last token of the record of
    [/m/x]. *)
Lemma verifica_acesso_newline_id_witness :
  last ["/m/x"; ("7" ++ nl)%string] "" = ("7" ++ nl)%string \/
  exists j, List.length ["/m/x"; ("7" ++ nl)%string] <= j < 5 /\
            w_acesso Samples.alice_ok j = ("7" ++ nl)%string.
Proof.
  destruct (verifica_acesso Samples.alice_ok ("7" ++ nl) "/m/x" Samples.start)
    as [r st'|] eqn:E; [|vm_compute in E; discriminate E].
  apply (verifica_acesso_newline_id Samples.alice_ok ("7" ++ nl) "/m/x"
           Samples.start st' (file_lines 128 ("/m/x,7" ++ nl)%string)).
  - apply sample_errno_sane.
  - simpl. lia.
  - reflexivity.
  - reflexivity.
  - rewrite E. vm_compute in E. injection E as <- _. reflexivity.
  - right. left. reflexivity.
Defined.

(** ** The order of the checks *)

Section Order.
Variable w : World.

Lemma is_printf_scan evs : forallb is_printf evs = true -> forallb is_scan evs = true.
Proof.
  apply forallb_weaken. intros c H. destruct c; try discriminate H; reflexivity.
Qed.

Lemma acesso_loop_scan lines : forall id path acesso st r st',
  acesso_loop w lines id path acesso st = Done r st' ->
  exists evs, emitted st st' evs /\ forallb is_scan evs = true.
Proof.
  induction lines as [|line lines IH]; intros id path acesso st r st' H.
  - simpl in H. mrun_in H. injection H as _ <-.
    exists [Fgets; Fclose]. split; [|reflexivity].
    unfold emitted. cbn [trace]. now rewrite <- app_assoc.
  - simpl in H. mrun_in H.
    match type of H with
    | context [scan_tokens w ?k ?t false 0 ?a ?s] =>
        destruct (scan_tokens w k t false 0 a s) as [[g acesso'] s1|] eqn:Es;
        [|discriminate]
    end.
    apply scan_tokens_events in Es as (evs1 & He1 & Hf1).
    apply emitted_cons in He1. apply is_printf_scan in Hf1.
    destruct g.
    + destruct (acesso_tem acesso' id).
      * mrun_in H. injection H as _ <-. exists (Fgets :: evs1). now split.
      * mrun_in H. injection H as _ <-. eexists ((Fgets :: evs1) ++ [Printf _]).
        split; [eapply emitted_trans; [exact He1|apply emitted_tick]|].
        rewrite forallb_app. cbn. now rewrite Hf1.
    + apply IH in H as (evs & He & Hf).
      exists ((Fgets :: evs1) ++ evs). split; [eapply emitted_trans; eassumption|].
      rewrite forallb_app. cbn. now rewrite Hf1, Hf.
Qed.

Lemma credenciais_loop_scan lines : forall u p rows st r rows' st',
  credenciais_loop w lines u p rows st = Done (r, rows') st' ->
  exists evs, emitted st st' evs /\ forallb is_scan evs = true.
Proof.
  induction lines as [|line lines IH]; intros u p rows st r rows' st' H.
  - simpl in H. mrun_in H. injection H as _ _ <-.
    exists [Fgets; Fclose]. split; [|reflexivity].
    unfold emitted. cbn [trace]. now rewrite <- app_assoc.
  - simpl in H. mrun_in H.
    match type of H with
    | context [scan_tokens w ?k ?t false 0 ?a ?s] =>
        destruct (scan_tokens w k t false 0 a s) as [[g rows1] s1|] eqn:Es;
        [|discriminate]
    end.
    apply scan_tokens_events in Es as (evs1 & He1 & Hf1).
    apply emitted_cons in He1. apply is_printf_scan in Hf1.
    destruct g.
    + destruct (strcmp (nth 1 rows1 "") p =? 0)%Z.
      * mrun_in H. injection H as _ _ <-. exists (Fgets :: evs1). now split.
      * mrun_in H. injection H as _ _ <-. eexists ((Fgets :: evs1) ++ [Printf _]).
        split; [eapply emitted_trans; [exact He1|apply emitted_tick]|].
        rewrite forallb_app. cbn. now rewrite Hf1.
    + apply IH in H as (evs & He & Hf).
      exists ((Fgets :: evs1) ++ evs). split; [eapply emitted_trans; eassumption|].
      rewrite forallb_app. cbn. now rewrite Hf1, Hf.
Qed.

Lemma verifica_acesso_scan id path st r st' :
  verifica_acesso w id path st = Done r st' ->
  exists evs1,
    emitted st st' ([Printf ("User recebido:" ++ id ++ nl);
                     Printf ("Path recebida " ++ path ++ nl);
                     Fopen perm_path] ++ evs1) /\
    forallb is_scan evs1 = true.
Proof.
  unfold verifica_acesso, fopen. intros H. mrun_in H.
  destruct (w_file w perm_path) as [content|].
  - apply acesso_loop_scan in H as (evs1 & He1 & Hf).
    exists evs1. split; [|exact Hf].
    unfold emitted in *. cbn [trace] in He1. rewrite He1, <- !app_assoc. reflexivity.
  - mrun_in H. injection H as _ <-. exists []. split; [|reflexivity].
    unfold emitted. cbn [trace]. rewrite <- !app_assoc. reflexivity.
Qed.

Lemma verifica_credenciais_scan rows u p st r rows' st' :
  verifica_credenciais w rows (Some u) (Some p) st = Done (r, rows') st' ->
  exists evs1,
    emitted st st' ([Printf ("User recebido:" ++ u ++ nl);
                     Printf ("Pass recebida " ++ p ++ nl);
                     Fopen cred_path] ++ evs1) /\
    forallb is_scan evs1 = true.
Proof.
  unfold verifica_credenciais, fopen. intros H. mrun_in H.
  destruct (w_file w cred_path) as [content|].
  - apply credenciais_loop_scan in H as (evs1 & He1 & Hf).
    exists evs1. split; [|exact Hf].
    unfold emitted in *. cbn [trace] in He1. rewrite He1, <- !app_assoc. reflexivity.
  - mrun_in H. injection H as _ _ <-. exists []. split; [|reflexivity].
    unfold emitted. cbn [trace]. rewrite <- !app_assoc. reflexivity.
Qed.

(** X19.  The checks of [xmp_open] in their order: the two prompts, each
    answered before any file is opened; the name and the password in clear;
    the credential file, opened once and read; row 3 as a format; the
    permission file, opened once and read, whatever the credential file
    answered. Between the two [fopen] and after the second there are only
    calls of the loop over the lines. *)
Theorem xmp_open_checks_order path st l st1 :
  xmp_open_checks w path st = Done l st1 ->
  exists u p out scan1 scan2,
    entered_user w st = Some u /\ entered_pass w st = Some p /\
    fmt_render (nth 3 (credenciais l) "") = Some out /\
    emitted st st1
      (prompt_events ++
       [Printf ("User recebido:" ++ u ++ nl); Printf ("Pass recebida " ++ p ++ nl);
        Fopen cred_path] ++ scan1 ++
       [Printf "ID do utilizador "; Printf out; Printf nl;
        Printf ("User recebido:" ++ nth 3 (credenciais l) "" ++ nl);
        Printf ("Path recebida " ++ path ++ nl); Fopen perm_path] ++ scan2) /\
    forallb is_scan scan1 = true /\ forallb is_scan scan2 = true.
Proof.
  intros Hc.
  apply xmp_open_checks_events in Hc
    as (u & p & sa & sb & out & sc & Hu & Hp & _ & H1 & Hv & Hf & H3 & Ha).
  apply verifica_credenciais_scan in Hv as (scan1 & H2 & Hs1).
  apply verifica_acesso_scan in Ha as (scan2 & H4 & Hs2).
  exists u, p, out, scan1, scan2.
  repeat (split; [assumption|]). split; [|now split].
  pose proof (emitted_trans _ _ _ _ _ H1
                (emitted_trans _ _ _ _ _ H2
                   (emitted_trans _ _ _ _ _ H3 H4))) as Hall.
  unfold emitted in *. rewrite Hall. rewrite <- !app_assoc. reflexivity.
Qed.

End Order.

(** Scenario 1 of the specification. *)
Lemma xmp_open_checks_order_witness :
  exists l st1 u p out scan1 scan2,
    xmp_open_checks Samples.alice_ok "/m/x" Samples.start = Done l st1 /\
    entered_user Samples.alice_ok Samples.start = Some u /\
    entered_pass Samples.alice_ok Samples.start = Some p /\
    fmt_render (nth 3 (credenciais l) "") = Some out /\
    emitted Samples.start st1
      (prompt_events ++
       [Printf ("User recebido:" ++ u ++ nl); Printf ("Pass recebida " ++ p ++ nl);
        Fopen cred_path] ++ scan1 ++
       [Printf "ID do utilizador "; Printf out; Printf nl;
        Printf ("User recebido:" ++ nth 3 (credenciais l) "" ++ nl);
        Printf ("Path recebida " ++ "/m/x" ++ nl); Fopen perm_path] ++ scan2) /\
    forallb is_scan scan1 = true /\ forallb is_scan scan2 = true.
Proof.
  destruct (xmp_open_checks Samples.alice_ok "/m/x" Samples.start)
    as [l st1|] eqn:E; [|vm_compute in E; discriminate E].
  destruct (xmp_open_checks_order Samples.alice_ok "/m/x" Samples.start l st1 E)
    as (u & p & out & scan1 & scan2 & H).
  exists l, st1, u, p, out, scan1, scan2. split; [reflexivity|exact H].
Defined.

(** ** The directory stream *)

Section Directory.
Variable w : World.

Lemma readdir_loop_offers (des : list Dirent) : forall st,
  exists m st',
    m <= List.length des /\
    readdir_loop w des st = Done tt st' /\
    same_counters st st' /\
    (forall i de, i < m -> nth_error des i = Some de ->
                  w_ret w (List.length (trace st) + 2 * i + 1) (filler_call de) = 0%Z) /\
    ((m = List.length des /\ emitted st st' (offers des ++ [Readdir])) \/
     (exists de,
         nth_error des m = Some de /\
         w_ret w (List.length (trace st) + 2 * m + 1) (filler_call de) <> 0%Z /\
         emitted st st' (offers (firstn (S m) des)))).
Proof.
  induction des as [|de des IH]; intros st.
  - exists 0. cbn [readdir_loop List.length]. mrun. eexists. split; [lia|]. split; [reflexivity|].
    split; [now split|]. split; [intros i de' Hi; lia|]. left. split; reflexivity.
  - cbn [readdir_loop]. mrun. fold (filler_call de).
    rewrite length_app. cbn [List.length].
    destruct (Z.eqb_spec (w_ret w (List.length (trace st) + 1) (filler_call de)) 0)
      as [E|E]; cbn [negb].
    + match goal with
      | |- context [readdir_loop w des ?s] =>
          destruct (IH s) as (m & st' & Hm & Er & Hcn & Hz & Hc)
      end.
      cbn [trace] in Hz, Hc. rewrite !length_app in Hz, Hc. cbn [List.length] in Hz, Hc.
      exists (S m), st'. split; [simpl; lia|]. split; [exact Er|]. split; [exact Hcn|].
      split.
      * intros i de' Hi Hnth. destruct i as [|i].
        -- injection Hnth as <-. rewrite <- E. f_equal. lia.
        -- cbn [nth_error] in Hnth.
           rewrite <- (Hz i de' ltac:(lia) Hnth). f_equal. lia.
      * destruct Hc as [(-> & He)|(de' & Hnth & Hne & He)].
        -- left. split; [reflexivity|].
           unfold emitted in *. cbn [trace] in *. rewrite He.
           cbn [offers flat_map app]. rewrite <- !app_assoc. reflexivity.
        -- right. exists de'. split; [exact Hnth|]. split.
           ++ intros Hc. apply Hne. rewrite <- Hc. f_equal. lia.
           ++ unfold emitted in *. cbn [trace] in *. rewrite He.
              cbn [firstn offers flat_map app]. rewrite <- !app_assoc. reflexivity.
    + exists 0. eexists. split; [simpl; lia|]. split; [reflexivity|].
      split; [now split|].
      split; [intros i de' Hi; lia|]. right. exists de.
      split; [reflexivity|]. split.
      * intros Hc. apply E. rewrite <- Hc. f_equal. lia.
      * unfold emitted. cbn [trace firstn offers flat_map app]. now rewrite <- app_assoc.
Qed.

(** X20.  [xmp_readdir] on a directory that opens offers the entries of the
    stream to the filler in their order, each with its name and a [struct
    stat] that holds the entry's inode number and [d_type << 12] and zeros,
    until the stream ends or the filler returns non-zero for the first time;
    it then closes the stream and returns 0, the filler's refusal being
    reported to nobody. *)
Theorem xmp_readdir_offers path offset fi rflags st des :
  w_dir w (List.length (trace st)) path = Some des ->
  exists m st',
    m <= List.length des /\
    xmp_readdir w path offset fi rflags st = Done 0%Z st' /\
    (forall i de, i < m -> nth_error des i = Some de ->
                  w_ret w (List.length (trace st) + 2 * i + 2) (filler_call de) = 0%Z) /\
    ((m = List.length des /\
      emitted st st' (Opendir path :: offers des ++ [Readdir; Closedir])) \/
     (exists de,
         nth_error des m = Some de /\
         w_ret w (List.length (trace st) + 2 * m + 2) (filler_call de) <> 0%Z /\
         emitted st st' (Opendir path :: offers (firstn (S m) des) ++ [Closedir]))).
Proof.
  intros Hd. unfold xmp_readdir, opendir. mrun. rewrite Hd.
  match goal with
  | |- context [readdir_loop w des ?s] =>
      destruct (readdir_loop_offers des s) as (m & s1 & Hm & Er & _ & Hz & Hc)
  end.
  cbn [trace] in Hz, Hc. rewrite length_app in Hz, Hc. cbn [List.length] in Hz, Hc.
  rewrite Er. exists m. eexists. split; [exact Hm|]. split; [reflexivity|]. split.
  - intros i de Hi Hnth. rewrite <- (Hz i de Hi Hnth). f_equal. lia.
  - destruct Hc as [(-> & He)|(de & Hnth & Hne & He)].
    + left. split; [reflexivity|].
      unfold emitted in *. cbn [trace] in *. rewrite He, <- !app_assoc. reflexivity.
    + right. exists de. split; [exact Hnth|]. split.
      * intros Hc. apply Hne. rewrite <- Hc. f_equal. lia.
      * unfold emitted in *. cbn [trace] in *. rewrite He, <- !app_assoc. reflexivity.
Qed.

End Directory.

(** A directory of two entries, both taken. *)
Lemma xmp_readdir_offers_witness :
  exists m st',
    m <= 2 /\
    xmp_readdir Cases.two_entries "/m" 0 None 0 Samples.start = Done 0%Z st' /\
    emitted Samples.start st'
            [Opendir "/m"; Readdir; Filler "." 11 16384 0 0;
             Readdir; Filler "x" 12 32768 0 0; Readdir; Closedir].
Proof.
  destruct (xmp_readdir_offers Cases.two_entries "/m" 0 None 0 Samples.start
              [ {| d_ino := 11; d_type := ascii_of_nat 4; d_name := "." |};
                {| d_ino := 12; d_type := ascii_of_nat 8; d_name := "x" |} ] eq_refl)
    as (m & st' & Hm & E & _ & [(_ & He)|(de & _ & Hne & _)]).
  - exists m, st'. split; [exact Hm|]. split; [exact E|exact He].
  - exfalso. apply Hne. reflexivity.
Defined.
